(** * mrec.mf.warp_fast: WARP sampling and bounded SGD updates

    A shallow embedding of [mrec/mf/warp_fast.pyx] and the properties of its
    samplers ([sample_positive_example], [sample_negative_example],
    [sample_violating_negative_example], [warp_sample]) and of
    [apply_updates].

    Conventions of the embedding.
    - Python integers are [Z]; a C [unsigned int] is a [Z] reduced modulo
      [2^32] where the C code computes or casts, and a coercion from a Python
      object to a C integer raises [OverflowError] out of range.
    - The C library's [rand()] reads a tape of draws; every call advances it.
    - [while True] loops take fuel; running out of it is the outcome
      [OutOfFuel], distinct from every result of the code.
    - [for N in xrange(1,max_trials)] with a C [unsigned int] [N] is a C
      loop: the bound is coerced to a C [long] ([OverflowError] outside
      [-2^63 .. 2^63-1]), the comparison is made on [long]s and the loop
      variable wraps around at [2^32]. The scan
      [for jx in xrange(begin,end)] of a row runs over the positions
      [begin .. end-1] as they are given.
    - A typed buffer indexed by a C integer is read without any check
      ([boundscheck=False]): outside the buffer the outcome is [Undefined].
      Indexing by a Python object goes through numpy: negative indices count
      from the end and an index out of range raises [IndexError].
    - Doubles are the carrier of a [Floating] interface; its instance is
      IEEE binary64, the arithmetic the code runs on, with the rounding to
      single precision of the C [float] variables.
    - [F] and [deltas] can be views of one memory: a store records whether
      [deltas] has a memory of its own or is a slice of rows of [F]. *)

From Stdlib Require Import ZArith QArith List Lia Bool Floats.
From stdpp Require Import base list.

Open Scope Z_scope.

(** ** Outcomes and the state monad *)

Inductive exn : Set :=
| ZeroDivisionError
| IndexError
| ValueError
| OverflowError
| AssertionError.

Inductive outcome (A : Type) : Type :=
| Done (a : A)
| Raised (e : exn)
| Undefined
| OutOfFuel.

Arguments Done {A} a.
Arguments Raised {A} e.
Arguments Undefined {A}.
Arguments OutOfFuel {A}.

Definition obind {A B : Type} (o : outcome A) (k : A -> outcome B) : outcome B :=
  match o with
  | Done a => k a
  | Raised e => Raised e
  | Undefined => Undefined
  | OutOfFuel => OutOfFuel
  end.

Definition M (S A : Type) : Type := S -> outcome A * S.

Definition ret {S A : Type} (a : A) : M S A := fun s => (Done a, s).

Definition lift {S A : Type} (o : outcome A) : M S A := fun s => (o, s).

Definition bind {S A B : Type} (c : M S A) (k : A -> M S B) : M S B :=
  fun s =>
    match c s with
    | (Done a, s') => k a s'
    | (Raised e, s') => (Raised e, s')
    | (Undefined, s') => (Undefined, s')
    | (OutOfFuel, s') => (OutOfFuel, s')
    end.

Definition get {S : Type} : M S S := fun s => (Done s, s).

Declare Scope monad_scope.
Delimit Scope monad_scope with monad.

Notation "x <- c ; k" := (bind c (fun x => k))
  (at level 20, c at level 100, k at level 200, only parsing) : monad_scope.
Notation "' p <- c ; k" := (bind c (fun x => match x with p => k end))
  (at level 20, p pattern, c at level 100, k at level 200, only parsing) : monad_scope.
Notation "x <-! o ; k" := (bind (lift o) (fun x => k))
  (at level 20, o at level 100, k at level 200, only parsing) : monad_scope.

Open Scope monad_scope.

(** ** C integers *)

Definition UINT_MOD : Z := 2 ^ 32.
Definition INT_MAX : Z := 2 ^ 31 - 1.

(** A C conversion to [unsigned int]. *)
Definition to_uint (z : Z) : Z := z mod UINT_MOD.

(** A Python object coerced to a C [unsigned int]. *)
Definition as_uint (z : Z) : outcome Z :=
  if (0 <=? z) && (z <? UINT_MOD) then Done z else Raised OverflowError.

(** A Python object coerced to a C [int]. *)
Definition as_int (z : Z) : outcome Z :=
  if (- INT_MAX - 1 <=? z) && (z <=? INT_MAX) then Done z else Raised OverflowError.

(** A Python object coerced to a C [long] (64 bits). *)
Definition LONG_MAX : Z := 2 ^ 63 - 1.

Definition as_long (z : Z) : outcome Z :=
  if (- LONG_MAX - 1 <=? z) && (z <=? LONG_MAX) then Done z else Raised OverflowError.

(** Python's [a % b] on integers: the result has the sign of [b], as that of
    [Z.modulo]; a zero divisor raises. *)
Definition py_mod (a b : Z) : outcome Z :=
  if b =? 0 then Raised ZeroDivisionError else Done (a mod b).

(** ** The random source: C's [rand()] *)

Definition RAND_MAX : Z := INT_MAX.

Record rng : Type := { tape : Z -> Z; pos : Z }.

(** The source once [n] draws have been taken from it. *)
Definition advance (n : Z) (s : rng) : rng := {| tape := tape s; pos := pos s + n |}.

(** The draw that [rand()] returns in state [s], a C [int] in [0 .. RAND_MAX]. *)
Definition draw (s : rng) : Z := tape s (pos s) mod (RAND_MAX + 1).

Definition rand : M rng Z := fun s => (Done (draw s), advance 1 s).

(** [rand() % n] with [n] a Python object, assigned to a C [unsigned int]:
    the C [int] that [rand()] returns becomes a Python integer and [%] is
    Python's (the directive [cdivision] bears on C operands only). *)
Definition rand_mod (n : Z) : M rng Z :=
  r <- rand ;
  o <-! py_mod r n ;
  lift (as_uint o).

(** ** Arrays *)

Definition len {A : Type} (a : list A) : Z := Z.of_nat (length a).

(** [b[k]] on a typed buffer with a C unsigned index, [boundscheck=False]. *)
Definition buf_get {A : Type} (b : list A) (k : Z) : outcome A :=
  if k <? 0 then Undefined
  else match b !! Z.to_nat k with
       | Some x => Done x
       | None => Undefined
       end.

(** The position numpy gives to a Python index [k] on an axis of length [n]. *)
Definition np_pos (n k : Z) : option nat :=
  if (0 <=? k) && (k <? n) then Some (Z.to_nat k)
  else if (- n <=? k) && (k <? 0) then Some (Z.to_nat (k + n))
  else None.

(** [a[k]] through numpy, with a Python object as index. *)
Definition np_get {A : Type} (a : list A) (k : Z) : outcome A :=
  match np_pos (len a) k with
  | Some p => match a !! p with
              | Some x => Done x
              | None => Raised IndexError
              end
  | None => Raised IndexError
  end.

(** ** Floating-point numbers *)

Class Floating (T : Type) : Type := {
  f_zero : T;
  f_one : T;
  f_add : T -> T -> T;
  f_sub : T -> T -> T;
  f_mul : T -> T -> T;
  f_div : T -> T -> T;
  f_sqrt : T -> T;
  f_eqb : T -> T -> bool;
  f_ltb : T -> T -> bool;
  f_leb : T -> T -> bool;
  (** the value a double has once stored in a C [float] variable *)
  f_single : T -> T
}.

(** Rounding of a binary64 number to binary32 (24 bits of precision, least
    exponent -149, overflow to infinity from [2^128]), to nearest, ties to
    even; the result is again a binary64 number. *)
Definition round_to_single (x : float) : float :=
  if (PrimFloat.is_nan x || PrimFloat.is_infinity x || PrimFloat.is_zero x)%bool then x
  else
    let '(_, e) := Z.frexp x in
    let q := Z.max (e - 24) (-149) in
    let scaled := Z.ldexp x (- q) in
    let big := Z.ldexp 1%float 52 in
    let rounded :=
      if PrimFloat.ltb scaled 0%float then ((scaled - big) + big)%float
      else ((scaled + big) - big)%float in
    let y := Z.ldexp rounded q in
    if PrimFloat.leb (Z.ldexp 1%float 128) (PrimFloat.abs y)
    then (if PrimFloat.ltb y 0%float then neg_infinity else infinity)
    else y.

#[export] Instance binary64 : Floating float := {
  f_zero := 0%float;
  f_one := 1%float;
  f_add := PrimFloat.add;
  f_sub := PrimFloat.sub;
  f_mul := PrimFloat.mul;
  f_div := PrimFloat.div;
  f_sqrt := PrimFloat.sqrt;
  f_eqb := PrimFloat.eqb;
  f_ltb := PrimFloat.ltb;
  f_leb := PrimFloat.leb;
  f_single := round_to_single
}.

(** Classes of binary64 numbers: a zero of either sign, the zero with the
    sign bit set, a number that is neither a NaN nor an infinity, and such a
    number other than zero. *)
Definition signed_zero (x : float) : Prop :=
  match Prim2SF x with S754_zero _ => True | _ => False end.

Definition negative_zero (x : float) : Prop := Prim2SF x = S754_zero true.

Definition finite_number (x : float) : Prop :=
  match Prim2SF x with S754_zero _ | S754_finite _ _ _ => True | _ => False end.

Definition nonzero_number (x : float) : Prop :=
  match Prim2SF x with S754_finite _ _ _ => True | _ => False end.

(** ** numpy vectors and matrices *)

Abbreviation vector T := (list T) (only parsing).
Abbreviation matrix T := (list (list T)) (only parsing).

Section Numpy.
Context {T : Type} `{Floating T}.

(** The sum of the products of two vectors of one length. *)
Definition dot_sum (a b : vector T) : T :=
  fold_left (fun acc xy => f_add acc (f_mul (fst xy) (snd xy))) (combine a b) f_zero.

(** The L2 norm as [apply_updates] computes it: [sqrt(x.T.dot(x))]. *)
Definition norm (x : vector T) : T := f_sqrt (dot_sum x x).

(** [a.dot(b)] on one-dimensional arrays: shapes must agree. *)
Definition np_dot (a b : vector T) : outcome T :=
  if (length a =? length b)%nat then Done (dot_sum a b) else Raised ValueError.

(** [gamma*delta]: a Python float times an array. *)
Definition np_scale (gamma : T) (delta : vector T) : vector T :=
  map (f_mul gamma) delta.

(** [t += x] in place: [x] is broadcast to the shape of [t], so it has the
    length of [t] or length one. *)
Definition np_iadd (t x : vector T) : outcome (vector T) :=
  if (length x =? length t)%nat then Done (map (fun ab => f_add (fst ab) (snd ab)) (combine t x))
  else match x with
       | [c] => Done (map (fun a => f_add a c) t)
       | _ => Raised ValueError
       end.

(** [t /= p] in place, [p] a scalar. *)
Definition np_idiv (t : vector T) (p : T) : vector T :=
  map (fun a => f_div a p) t.

(** Python's [x / c] on floats: a zero divisor raises. *)
Definition py_div (x c : T) : outcome T :=
  if f_eqb c f_zero then Raised ZeroDivisionError else Done (f_div x c).

(** [M[k]] written back through numpy at a position already resolved. *)
Definition set_row (F : list (list T)) (p : nat) (t : list T) : list (list T) :=
  <[p := t]> F.

End Numpy.

(** ** The samplers *)

Section Samplers.
Context {T : Type} `{Floating T}.

(** The scan of [sample_negative_example] (lines 166-169):
    [for jx in xrange(begin,end): if indices[jx] == j: found = 1; break].
    The result is the position [jx] of the first match, if any; [indices[jx]]
    is an [int32] compared with the [unsigned int] [j]. [n] counts the
    positions left, [jx] is the current one. *)
Fixpoint scan_row (indices : list Z) (j : Z) (jx : Z) (n : nat) : outcome (option Z) :=
  match n with
  | O => Done None
  | S n' =>
      obind (buf_get indices jx) (fun c =>
        if to_uint c =? j then Done (Some jx)
        else scan_row indices j (jx + 1) n')
  end.

(** [sample_negative_example] (lines 130-171). [num_items], [begin], [end]
    and [ix] are Python objects: the draw is [rand_mod], and [vals[ix]] is
    numpy indexing, while [vals[jx]] reads the buffer at the C index [jx].
    [begin] and [end] are the offsets of a row, from 0 up and within the
    range of [jx]; other values are outside the model (a negative [begin],
    which the loop variable would turn into a large position, reads as
    [Undefined] here). *)
Fixpoint sample_negative_example (fuel : nat) (num_items : Z)
    (vals : list T) (indices : list Z) (begin end_ ix : Z) : M rng Z :=
  match fuel with
  | O => lift OutOfFuel
  | S fuel' =>
      j <- rand_mod num_items ;
      found <-! scan_row indices j begin (Z.to_nat (end_ - begin)) ;
      match found with
      | None => ret j
      | Some jx =>
          vj <-! buf_get vals jx ;
          vi <-! np_get vals ix ;
          if f_ltb vj vi then ret j
          else sample_negative_example fuel' num_items vals indices begin end_ ix
      end
  end.

(** [sample_positive_example] (lines 173-212). [num_users] is a Python
    object; [u], [ix], [i], [begin] and [end] are C [unsigned int]s, so
    [rand() % (end-begin)] is C arithmetic, guarded by [end > begin]. *)
Fixpoint sample_positive_example (fuel : nat) (positive_thresh : T) (num_users : Z)
    (vals : list T) (indices indptr : list Z) : M rng (Z * Z * Z) :=
  match fuel with
  | O => lift OutOfFuel
  | S fuel' =>
      u <- rand_mod num_users ;
      b <-! buf_get indptr u ;
      e <-! buf_get indptr (to_uint (u + 1)) ;
      let begin := to_uint b in
      let end_ := to_uint e in
      if begin <? end_ then
        r2 <- rand ;
        let ix := to_uint (begin + to_uint r2 mod to_uint (end_ - begin)) in
        v <-! buf_get vals ix ;
        if f_leb positive_thresh v then
          i <-! buf_get indices ix ;
          ret (u, ix, to_uint i)
        else sample_positive_example fuel' positive_thresh num_users vals indices indptr
      else sample_positive_example fuel' positive_thresh num_users vals indices indptr
  end.

(** [U[u].dot(V[i])] with Python objects as indices. *)
Definition score (U V : matrix T) (u i : Z) : outcome T :=
  obind (np_get U u) (fun a => obind (np_get V i) (fun b => np_dot a b)).

(** The test [r - U[u].dot(V[j]) < 1] of line 124. *)
Definition violates (U V : matrix T) (u : Z) (r : T) (j : Z) : outcome bool :=
  obind (score U V u j) (fun d => Done (f_ltb (f_sub r d) f_one)).

(** The loop [for N in xrange(1,max_trials)] (lines 121-128) when the
    bound is below [2^32], with [n] iterations left and [N] the current
    trial; [j] is a C [int]. *)
Fixpoint trials (fuel : nat) (U V : matrix T) (vals : list T) (indices : list Z)
    (begin end_ u ix : Z) (r : T) (max_trials : Z) (n : nat) (N : Z) : M rng (Z * Z) :=
  match n with
  | O => ret (-1, max_trials)
  | S n' =>
      jo <- sample_negative_example fuel (to_uint (len V)) vals indices begin end_ ix ;
      j <-! as_int jo ;
      hit <-! violates U V u r j ;
      if hit then ret (j, N)
      else trials fuel U V vals indices begin end_ u ix r max_trials n' (N + 1)
  end.

(** The same loop when the bound is [2^32] or more: the [unsigned int] [N]
    goes from [2^32 - 1] back to 0 and never reaches the bound, so that the
    loop ends with a violating item only. [n] is the fuel left. *)
Fixpoint trials_unbounded (fuel : nat) (U V : matrix T) (vals : list T) (indices : list Z)
    (begin end_ u ix : Z) (r : T) (n : nat) (N : Z) : M rng (Z * Z) :=
  match n with
  | O => lift OutOfFuel
  | S n' =>
      jo <- sample_negative_example fuel (to_uint (len V)) vals indices begin end_ ix ;
      j <-! as_int jo ;
      hit <-! violates U V u r j ;
      if hit then ret (j, N)
      else trials_unbounded fuel U V vals indices begin end_ u ix r n' (to_uint (N + 1))
  end.

(** [sample_violating_negative_example] (lines 70-128); [r] is a C [float].
    [max_trials] is a Python object: the loop coerces it to a C [long] once
    [r] is computed, and the give-up result returns it as it came. *)
Definition sample_violating_negative_example (fuel : nat) (U V : matrix T)
    (vals : list T) (indices : list Z) (begin end_ u ix i max_trials : Z) : M rng (Z * Z) :=
  d <-! score U V u i ;
  let r := f_single d in
  bound <-! as_long max_trials ;
  if bound <? UINT_MOD then
    trials fuel U V vals indices begin end_ u ix r max_trials (Z.to_nat (bound - 1)) 1
  else
    trials_unbounded fuel U V vals indices begin end_ u ix r fuel 1.

(** The candidates that the first [n] calls of [sample_negative_example]
    return, one after the other on the same random source. *)
Fixpoint candidates (fuel : nat) (num_items : Z) (vals : list T) (indices : list Z)
    (begin end_ ix : Z) (n : nat) : M rng (list Z) :=
  match n with
  | O => ret []
  | S n' =>
      j <- sample_negative_example fuel num_items vals indices begin end_ ix ;
      js <- candidates fuel num_items vals indices begin end_ ix n' ;
      ret (j :: js)
  end.

(** The [while True] loop of [warp_sample] (lines 63-68); [tot_trials] and
    [N] are C [unsigned int]s and [j] a C [int]. *)
Fixpoint warp_loop (fuel k : nat) (U V : matrix T) (vals : list T) (indices indptr : list Z)
    (positive_thresh : T) (max_trials : Z) (num_users tot_trials : Z)
    : M rng (Z * Z * Z * Z * Z) :=
  match k with
  | O => lift OutOfFuel
  | S k' =>
      ' (u, ix, i) <- sample_positive_example fuel positive_thresh num_users vals indices indptr ;
      b <-! buf_get indptr u ;
      e <-! buf_get indptr (to_uint (u + 1)) ;
      ' (jo, No) <- sample_violating_negative_example fuel U V vals indices b e u ix i max_trials ;
      j <-! as_int jo ;
      N <-! as_uint No ;
      let tot_trials := to_uint (tot_trials + N) in
      if 0 <=? j then ret (u, i, j, N, tot_trials)
      else warp_loop fuel k' U V vals indices indptr positive_thresh max_trials num_users tot_trials
  end.

(** [warp_sample] (lines 12-68). *)
Definition warp_sample (fuel : nat) (U V : matrix T) (vals : list T) (indices indptr : list Z)
    (positive_thresh : T) (max_trials : Z) : M rng (Z * Z * Z * Z * Z) :=
  warp_loop fuel fuel U V vals indices indptr positive_thresh max_trials (to_uint (len U)) 0.

(** [m] rounds of the loop of [warp_sample] in a row, from the random source
    [s] to [s'], in each of which a positive example was sampled and the
    search for a violating item gave up with [(-1, max_trials)]. *)
Inductive discarded (fuel : nat) (U V : matrix T) (vals : list T) (indices indptr : list Z)
    (positive_thresh : T) (max_trials num_users : Z) : nat -> rng -> rng -> Prop :=
  | discarded_none (s : rng) :
      discarded fuel U V vals indices indptr positive_thresh max_trials num_users 0 s s
  | discarded_round (m : nat) (s s1 s2 s' : rng) (u ix i b e : Z) :
      sample_positive_example fuel positive_thresh num_users vals indices indptr s
        = (Done (u, ix, i), s1) ->
      buf_get indptr u = Done b -> buf_get indptr (to_uint (u + 1)) = Done e ->
      sample_violating_negative_example fuel U V vals indices b e u ix i max_trials s1
        = (Done (-1, max_trials), s2) ->
      discarded fuel U V vals indices indptr positive_thresh max_trials num_users m s2 s' ->
      discarded fuel U V vals indices indptr positive_thresh max_trials num_users (S m) s s'.

End Samplers.

(** ** The SGD update *)

Section Updates.
Context {T : Type} `{Floating T}.

(** The memory behind the [deltas] argument: an array of its own, or a view
    of consecutive rows of [F] ([F[start : start + count]], and [F] itself
    as [F[0 : len(F)]]), which shares the memory of [F]. *)
Inductive delta_array : Type :=
  | Own (d : matrix T)
  | View (start count : nat).

(** The arrays [apply_updates] is called on. [rows] holds integers and has
    a memory of its own. The learning rate [gamma] and the radius [C] are
    Python floats, immutable. *)
Record store : Type := { F : matrix T; rows : list Z; delta_mem : delta_array }.

(** What [deltas] holds in a store: a view follows the writes to [F]. *)
Definition deltas (s : store) : matrix T :=
  match delta_mem s with
  | Own d => d
  | View start count => take count (drop start (F s))
  end.

(** [F[row]] read through numpy ([row] is a Python object). *)
Definition get_row (row : Z) : M store (vector T) :=
  fun s => (np_get (F s) row, s).

(** The write of an in-place operation on [F[row]]. *)
Definition put_row (row : Z) (t : vector T) : M store unit :=
  fun s =>
    match np_pos (len (F s)) row with
    | Some p =>
        (Done tt, {| F := set_row (F s) p t; rows := rows s; delta_mem := delta_mem s |})
    | None => (Raised IndexError, s)
    end.

(** The body of the loop of [apply_updates] (lines 243-248); [p] is a C
    [float]. [deltas[i]] is read when [gamma*delta] is computed, into a new
    array, before the write to [F[row]]. *)
Definition update_row (gamma C : T) (i : Z) : M store unit :=
  s <- get ;
  row <-! buf_get (rows s) i ;
  delta <-! np_get (deltas s) i ;
  t <- get_row row ;
  t' <-! np_iadd t (np_scale gamma delta) ;
  _ <- put_row row t' ;
  x <- get_row row ;
  n2 <-! np_dot x x ;
  q <-! py_div (f_sqrt n2) C ;
  let p := f_single q in
  if f_ltb f_one p then
    y <- get_row row ;
    put_row row (np_idiv y p)
  else ret tt.

(** [for i in xrange(num)], with [n] iterations left from [i]. *)
Fixpoint for_range {S : Type} (body : Z -> M S unit) (i : Z) (n : nat) : M S unit :=
  match n with
  | O => ret tt
  | S n' => _ <- body i ; for_range body (i + 1) n'
  end.

(** [apply_updates] (lines 214-248), on the arrays of the store. *)
Definition apply_updates (gamma C : T) : M store unit :=
  s <- get ;
  if (length (rows s) =? length (deltas s))%nat then
    let num := to_uint (len (rows s)) in
    for_range (update_row gamma C) 0 (Z.to_nat num)
  else lift (Raised AssertionError).

(** [apply_updates] called [n] times in a row with the same arguments. *)
Fixpoint apply_updates_times (n : nat) (gamma C : T) : M store unit :=
  match n with
  | O => ret tt
  | S n' => _ <- apply_updates gamma C ; apply_updates_times n' gamma C
  end.

(** The position [p] of [F] is the row that some entry of [rows] names. *)
Definition designated (s : store) (p : nat) : Prop :=
  exists row, row ∈ rows s /\ np_pos (len (F s)) row = Some p.

(** From [s] to [s'] nothing changed but rows of [F] that [rows] names:
    [rows] and the array behind [deltas] are the same, [F] has as many rows. *)
Definition frame (s s' : store) : Prop :=
  rows s' = rows s /\ delta_mem s' = delta_mem s /\ length (F s') = length (F s) /\
  forall p, ~ designated s p -> F s' !! p = F s !! p.

End Updates.

Arguments store T : clear implicits.
Arguments delta_array T : clear implicits.

(** ** The rating store, as the samplers read it *)

Section RatingStore.
Context {T : Type}.

(** The item at position [p] of [indices], as the [unsigned int] the scan
    compares it with. *)
Definition item_at (indices : list Z) (p : Z) : option Z :=
  if p <? 0 then None else to_uint <$> indices !! Z.to_nat p.

Definition value_at (vals : list T) (p : Z) : option T :=
  if p <? 0 then None else vals !! Z.to_nat p.

(** User [u]'s entries occupy the positions [b .. e-1]. *)
Definition row_of (indptr : list Z) (u b e : Z) : Prop :=
  0 <= u /\ indptr !! Z.to_nat u = Some b /\ indptr !! Z.to_nat (u + 1) = Some e.

(** No position of [b .. e-1] holds [item]. *)
Definition absent (indices : list Z) (b e item : Z) : Prop :=
  forall p, b <= p < e -> item_at indices p <> Some item.

(** [jx] is the first position of [b .. e-1] that holds [item]. *)
Definition first_match (indices : list Z) (b e item jx : Z) : Prop :=
  b <= jx < e /\ item_at indices jx = Some item /\ absent indices b jx item.

(** User [u] rated [item] with [v], at position [p] of the row. *)
Definition rated_at (vals : list T) (indices indptr : list Z) (u p item : Z) (v : T) : Prop :=
  exists b e, row_of indptr u b e /\ b <= p < e /\
    item_at indices p = Some item /\ value_at vals p = Some v.

(** [item] does not appear among user [u]'s column indices. *)
Definition unrated (indices indptr : list Z) (u item : Z) : Prop :=
  exists b e, row_of indptr u b e /\ absent indices b e item.

(** The rating of [item] for user [u] as a scan of the row finds it: the
    value at the first position that holds [item]. *)
Definition rating (vals : list T) (indices indptr : list Z) (u item : Z) (v : T) : Prop :=
  exists b e jx, row_of indptr u b e /\ first_match indices b e item jx /\
    value_at vals jx = Some v.

(** The column indices within user [u]'s row are unique. *)
Definition unique_row (indices indptr : list Z) (u : Z) : Prop :=
  forall b e p q item, row_of indptr u b e -> b <= p < e -> b <= q < e ->
    item_at indices p = Some item -> item_at indices q = Some item -> p = q.

(** The row offsets are non-negative [int32] values. *)
Definition offsets_ok (indptr : list Z) : Prop :=
  Forall (fun z => 0 <= z <= INT_MAX) indptr.

End RatingStore.

(** What [sample_negative_example] accepts as a candidate [j] against the
    positive position [ix], on the row [b .. e-1]: an item the row does not
    hold, or one whose first entry is rated strictly below [vals[ix]]. *)
Definition candidate_ok {T : Type} `{Floating T} (vals : list T) (indices : list Z)
    (b e ix j : Z) : Prop :=
  absent indices b e j \/
  exists jx vj vi, first_match indices b e j jx /\ value_at vals jx = Some vj /\
    np_get vals ix = Done vi /\ f_ltb vj vi = true.

(** What one round of [warp_sample] establishes about a triple [(u, i, j)]:
    [i] sits at a position [ix] of [u]'s row with a rating of at least the
    threshold, and [j] is an accepted candidate against that position. *)
Definition sampled_triple {T : Type} `{Floating T} (vals : list T) (indices indptr : list Z)
    (positive_thresh : T) (u i j : Z) : Prop :=
  exists b e ix vi, row_of indptr u b e /\ b <= ix < e /\
    item_at indices ix = Some i /\ value_at vals ix = Some vi /\
    f_leb positive_thresh vi = true /\ candidate_ok vals indices b e ix j.

(** ** Sample data

    The row of the specification's scenario: one user who rated item 2 with
    5.0, item 5 with 3.0 and item 9 with 5.0, among ten items, with factors
    of rank two. *)

Module Scenario.

Definition vals : list float := [5; 3; 5]%float.
Definition indices : list Z := [2; 5; 9].
Definition indptr : list Z := [0; 3].
Definition U : matrix float := [[1; 0]%float].
Definition V : matrix float :=
  [[1; 0]; [1; 0]; [1; 0]; [0; 0]; [0; 0]; [1; 0]; [0; 0]; [0; 0]; [0; 0]; [1; 0]]%float.

(** A random source that yields the draws of [l], then zeros. *)
Definition source (l : list Z) : rng := {| tape := fun p => nth (Z.to_nat p) l 0; pos := 0 |}.

End Scenario.

(** ** Rows to update

    Stores of one row of two factors, on binary64, each with a zero delta:
    the row [3, 4] of the specification's example, the row [1, 1], the row
    [1 + 2^-30, 0], and the row [0.6, 0.8]. *)

Module Rows.

#[local] Set Warnings "-inexact-float".

Definition three_four : store float :=
  {| F := [[3; 4]%float]; rows := [0]; delta_mem := Own [[0; 0]%float] |}.

Definition one_one : store float :=
  {| F := [[1; 1]%float]; rows := [0]; delta_mem := Own [[0; 0]%float] |}.

Definition barely_outside : store float :=
  {| F := [[0x1.00000004p+0; 0]%float]; rows := [0]; delta_mem := Own [[0; 0]%float] |}.

Definition normalized : store float :=
  {| F := [[0.6; 0.8]%float]; rows := [0]; delta_mem := Own [[0; 0]%float] |}.

(** The row [2^600, 0], whose dot product with itself overflows, and the
    row [-0, 1]. *)
Definition huge : store float :=
  {| F := [[0x1p+600; 0]%float]; rows := [0]; delta_mem := Own [[0; 0]%float] |}.

Definition minus_zero : store float :=
  {| F := [[neg_zero; 1%float]]; rows := [0]; delta_mem := Own [[0; 0]%float] |}.

(** The rational number that a finite binary64 number is. *)
Definition float_value (x : float) : option Q :=
  match Prim2SF x with
  | S754_zero _ => Some 0%Q
  | S754_finite sg m e =>
      Some (Qmult (inject_Z (if sg then Z.neg m else Z.pos m)) (Qpower 2 e))
  | _ => None
  end.

(** The square of the L2 norm of a row of finite numbers, without rounding. *)
Fixpoint exact_square_norm (x : list float) : option Q :=
  match x with
  | [] => Some 0%Q
  | a :: x' =>
      match float_value a, exact_square_norm x' with
      | Some q, Some r => Some (Qplus (Qmult q q) r)
      | _, _ => None
      end
  end.

End Rows.

(** ** Arrays that share memory

    [apply_updates(F, rows, F, 1.0, 100.0)]: the deltas are the factors
    themselves. *)

Module Shared.

Definition arrays : store float :=
  {| F := [[3; 4]; [1; 0]]%float; rows := [1; 0]; delta_mem := View 0 2 |}.

End Shared.

(** ** A row with a repeated column index

    One user whose row holds item 2 twice, rated 1 at position 0 and 5 at
    position 1. *)

Module Duplicates.

Definition vals : list float := [1; 5]%float.
Definition indices : list Z := [2; 2].
Definition indptr : list Z := [0; 2].
Definition U : matrix float := [[1; 0]%float].
Definition V : matrix float := [[1; 0]; [1; 0]; [1; 0]]%float.

End Duplicates.

(** ** A margin reference next to 1

    One user with the factor [1 - 2^-30], which rounds to 1 in single
    precision, and two items with the factors 1 and 0; the user rated item 0
    alone. *)

Module Margin.

Definition vals : list float := [5%float].
Definition indices : list Z := [0].
Definition U : matrix float := [[0x1.fffffff8p-1%float]].
Definition V : matrix float := [[1]; [0]]%float.
Definition source : rng := {| tape := fun _ => 1; pos := 0 |}.

End Margin.

(** ** A run that overflows the trial counter

    One user whose only rating is 5.0 for item 0; item 1 scores too low to
    violate the margin against item 0 and item 2 violates it. The random
    source yields 1 everywhere but at position [2^32 + 3], where it yields 2,
    and the budget is the largest an [unsigned int] holds. *)

Module Overflow.

Definition vals : list float := [5%float].
Definition indices : list Z := [0].
Definition indptr : list Z := [0; 1].
Definition U : matrix float := [[1%float]].
Definition V : matrix float := [[3]; [1]; [2.5]]%float.
Definition max_trials : Z := 4294967295.
Definition draws (p : Z) : Z := if p =? 4294967299 then 2 else 1.
Definition source : rng := {| tape := draws; pos := 0 |}.

End Overflow.

(** ** A run whose trial number wraps around

    The same user and items, a budget of [2^32 + 2] trials, and a random
    source that yields 2 at position [2^32 + 1], where the trial number
    [2^32] draws its candidate, and 1 everywhere else. The fuel lets the
    search run for [2^32] trials. *)

Module Wrap.

Definition max_trials : Z := 4294967298.
Definition fuel : nat := Z.to_nat 4294967296.
Definition draws (p : Z) : Z := if p =? 4294967297 then 2 else 1.
Definition source : rng := {| tape := draws; pos := 0 |}.

End Wrap.

(** ** Well-formed inputs *)

(** An outcome that is neither an exception nor a read outside a buffer. *)
Definition safe {A : Type} (o : outcome A) : Prop :=
  match o with
  | Done _ | OutOfFuel => True
  | Raised _ | Undefined => False
  end.

(** A CSR triple for [num_users] users: [indptr] has an offset past each
    user's row, every offset lies within [vals], and [indices] is as long
    as [vals]. *)
Definition csr_ok {T : Type} (num_users : Z) (vals : list T) (indices indptr : list Z) : Prop :=
  num_users + 1 <= len indptr /\ len indices = len vals /\ len vals <= INT_MAX /\
  Forall (fun z => 0 <= z <= len vals) indptr.

(** A factor matrix of at least one row, every row of [k] factors. *)
Definition factors_ok {T : Type} (k : nat) (A : matrix T) : Prop :=
  1 <= len A < UINT_MOD /\ Forall (fun row => length row = k) A.

(** Every column index names one of [num_items] items. *)
Definition items_ok (num_items : Z) (indices : list Z) : Prop :=
  Forall (fun c => 0 <= c < num_items) indices.

(** The random source [s'] is [s] after some draws. *)
Definition later (n : Z) (s s' : rng) : Prop :=
  tape s' = tape s /\ pos s + n <= pos s'.

(** What an iteration of [apply_updates] leaves in a row that holds [x]
    once [gamma*delta] is added (lines 246-248). *)
Definition project {T : Type} `{Floating T} (C : T) (x : vector T) : vector T :=
  if f_ltb f_one (f_single (f_div (norm x) C))
  then np_idiv x (f_single (f_div (norm x) C)) else x.


(** The entry [k] of [rows] names the position [p] of [F]. *)
Definition resolved {T : Type} (s : store T) (k p : nat) : Prop :=
  exists row, rows s !! k = Some row /\ np_pos (len (F s)) row = Some p.

(** No two entries of [rows] name the same row of [F]. *)
Definition distinct_rows {T : Type} (s : store T) : Prop :=
  forall k1 k2 p, resolved s k1 p -> resolved s k2 p -> k1 = k2.

(** Arrays on which [apply_updates] runs through: as many deltas as rows,
    fewer than [2^32], every entry of [rows] an index into [F], and the rows
    of [F] and the deltas all of length [k]. *)
Definition update_ok {T : Type} (k : nat) (s : store T) : Prop :=
  length (rows s) = length (deltas s) /\ len (rows s) < UINT_MOD /\
  Forall (fun row => - len (F s) <= row < len (F s)) (rows s) /\
  Forall (fun t => length t = k) (F s) /\
  Forall (fun d => length d = k) (deltas s).

(** * Properties *)

(** ** The monad *)

Lemma bind_Done {S A B : Type} (c : M S A) (k : A -> M S B) (s s' : S) (b : B) :
  bind c k s = (Done b, s') ->
  exists a s1, c s = (Done a, s1) /\ k a s1 = (Done b, s').
Proof.
  unfold bind. destruct (c s) as [[a | e | | ] s1]; intros E; try discriminate E.
  exists a, s1. split; [reflexivity | exact E].
Qed.

Lemma bind_step {S A B : Type} (c : M S A) (k : A -> M S B) (s s1 : S) (a : A) :
  c s = (Done a, s1) -> bind c k s = k a s1.
Proof. intros E. unfold bind. rewrite E. reflexivity. Qed.

Lemma bind_snd_ret {S A B : Type} (c : M S A) (f : A -> B) (s : S) :
  snd (bind c (fun a => ret (f a)) s) = snd (c s).
Proof. unfold bind, ret. destruct (c s) as [[a | e | | ] s1]; reflexivity. Qed.

Lemma lift_Done {S A : Type} (o : outcome A) (s s' : S) (a : A) :
  lift o s = (Done a, s') -> o = Done a /\ s' = s.
Proof. unfold lift. intros E. inversion E. split; reflexivity. Qed.

Lemma ret_Done {S A : Type} (a b : A) (s s' : S) :
  ret a s = (Done b, s') -> b = a /\ s' = s.
Proof. unfold ret. intros E. inversion E. split; reflexivity. Qed.

Lemma obind_Done {A B : Type} (o : outcome A) (k : A -> outcome B) (b : B) :
  obind o k = Done b -> exists a, o = Done a /\ k a = Done b.
Proof. destruct o as [a | e | | ]; simpl; intros E; try discriminate E. exists a. auto. Qed.

(** ** C integers and the random source *)

Lemma UINT_MOD_eq : UINT_MOD = 4294967296.
Proof. reflexivity. Qed.

Lemma INT_MAX_eq : INT_MAX = 2147483647.
Proof. reflexivity. Qed.

Lemma to_uint_range (z : Z) : 0 <= to_uint z < UINT_MOD.
Proof. unfold to_uint. apply Z.mod_pos_bound. rewrite UINT_MOD_eq. lia. Qed.

Lemma to_uint_small (z : Z) : 0 <= z < UINT_MOD -> to_uint z = z.
Proof. intros R. unfold to_uint. apply Z.mod_small. exact R. Qed.

Lemma as_uint_Done (z v : Z) : as_uint z = Done v -> v = z /\ 0 <= z < UINT_MOD.
Proof.
  unfold as_uint. destruct (0 <=? z) eqn:L, (z <? UINT_MOD) eqn:U; simpl; intros E;
    try discriminate E.
  inversion E. lia.
Qed.

Lemma as_uint_small (z : Z) : 0 <= z < UINT_MOD -> as_uint z = Done z.
Proof.
  intros R. unfold as_uint.
  replace (0 <=? z) with true by (symmetry; apply Z.leb_le; lia).
  replace (z <? UINT_MOD) with true by (symmetry; apply Z.ltb_lt; lia).
  reflexivity.
Qed.

Lemma as_int_Done (z v : Z) : as_int z = Done v -> v = z /\ - INT_MAX - 1 <= z <= INT_MAX.
Proof.
  unfold as_int. destruct (- INT_MAX - 1 <=? z) eqn:L, (z <=? INT_MAX) eqn:U; simpl; intros E;
    try discriminate E.
  inversion E. lia.
Qed.

Lemma as_int_small (z : Z) : - INT_MAX - 1 <= z <= INT_MAX -> as_int z = Done z.
Proof.
  intros R. unfold as_int.
  replace (- INT_MAX - 1 <=? z) with true by (symmetry; apply Z.leb_le; lia).
  replace (z <=? INT_MAX) with true by (symmetry; apply Z.leb_le; lia).
  reflexivity.
Qed.

Lemma LONG_MAX_eq : LONG_MAX = 9223372036854775807.
Proof. reflexivity. Qed.

Lemma as_long_Done (z v : Z) : as_long z = Done v -> v = z /\ - LONG_MAX - 1 <= z <= LONG_MAX.
Proof.
  unfold as_long. destruct (- LONG_MAX - 1 <=? z) eqn:A; [ | intros E; discriminate E].
  destruct (z <=? LONG_MAX) eqn:B; [ | intros E; discriminate E].
  intros E. inversion E. apply Z.leb_le in A, B. lia.
Qed.

Lemma as_long_small (z : Z) : - LONG_MAX - 1 <= z <= LONG_MAX -> as_long z = Done z.
Proof.
  intros R. unfold as_long.
  replace (- LONG_MAX - 1 <=? z) with true by (symmetry; apply Z.leb_le; lia).
  replace (z <=? LONG_MAX) with true by (symmetry; apply Z.leb_le; lia).
  reflexivity.
Qed.

Lemma as_long_large (z : Z) : LONG_MAX < z -> as_long z = Raised OverflowError.
Proof.
  intros R. unfold as_long.
  replace (z <=? LONG_MAX) with false by (symmetry; apply Z.leb_gt; lia).
  rewrite andb_false_r. reflexivity.
Qed.

Lemma as_long_uint (z : Z) : 0 <= z < UINT_MOD -> as_long z = Done z.
Proof.
  intros R. apply as_long_small. rewrite LONG_MAX_eq. rewrite UINT_MOD_eq in R. lia.
Qed.

Lemma pos_advance (n : Z) (s : rng) : pos (advance n s) = pos s + n.
Proof. reflexivity. Qed.

Lemma advance_advance (n m : Z) (s : rng) : advance m (advance n s) = advance (n + m) s.
Proof. unfold advance. simpl. f_equal. lia. Qed.

Lemma advance_0 (s : rng) : advance 0 s = s.
Proof. destruct s as [t p]. unfold advance. simpl. f_equal. lia. Qed.

Lemma draw_range (s : rng) : 0 <= draw s <= RAND_MAX.
Proof.
  unfold draw. pose proof (Z.mod_pos_bound (tape s (pos s)) (RAND_MAX + 1)) as B.
  unfold RAND_MAX in *. rewrite INT_MAX_eq in *. lia.
Qed.

Lemma rand_mod_zero (s : rng) : rand_mod 0 s = (Raised ZeroDivisionError, advance 1 s).
Proof. reflexivity. Qed.

Lemma rand_mod_pos (n : Z) (s : rng) :
  0 < n -> rand_mod n s = (Done (draw s mod n), advance 1 s).
Proof.
  intros P. unfold rand_mod, rand, bind, lift, py_mod.
  replace (n =? 0) with false by (symmetry; apply Z.eqb_neq; lia).
  rewrite as_uint_small; [reflexivity | ].
  pose proof (draw_range s) as D. pose proof (Z.mod_pos_bound (draw s) n P) as B.
  assert (draw s mod n <= draw s) by (apply Z.mod_le; lia).
  unfold RAND_MAX in D. rewrite INT_MAX_eq in D. rewrite UINT_MOD_eq. lia.
Qed.

Lemma rand_mod_Done (n v : Z) (s s' : rng) :
  rand_mod n s = (Done v, s') ->
  n <> 0 /\ s' = advance 1 s /\ v = draw s mod n /\ 0 <= v <= RAND_MAX /\ (0 < n -> v < n).
Proof.
  unfold rand_mod, rand, bind, lift, py_mod.
  destruct (n =? 0) eqn:Z0; [intros E; discriminate E | ].
  apply Z.eqb_neq in Z0.
  destruct (as_uint (draw s mod n)) as [w | e | | ] eqn:W; intros E; try discriminate E.
  inversion E; subst. apply as_uint_Done in W. destruct W as [-> R].
  pose proof (draw_range s) as D.
  repeat split; try lia; try assumption.
  - destruct (Z_lt_le_dec 0 n) as [P | P].
    + assert (draw s mod n <= draw s) by (apply Z.mod_le; lia). lia.
    + pose proof (Z.mod_neg_bound (draw s) n ltac:(lia)). lia.
  - intros P. apply Z.mod_pos_bound. exact P.
Qed.

(** ** Arrays *)

Lemma buf_get_Done {A : Type} (b : list A) (k : Z) (x : A) :
  buf_get b k = Done x <-> 0 <= k /\ b !! Z.to_nat k = Some x.
Proof.
  unfold buf_get. destruct (k <? 0) eqn:K.
  - apply Z.ltb_lt in K. split; [intros E; discriminate E | intros [P _]; lia].
  - apply Z.ltb_ge in K. destruct (b !! Z.to_nat k) as [y | ]; split.
    + intros E. inversion E. auto.
    + intros [_ E]. inversion E. reflexivity.
    + intros E. discriminate E.
    + intros [_ E]. discriminate E.
Qed.

Lemma buf_get_item (indices : list Z) (p c : Z) :
  buf_get indices p = Done c -> item_at indices p = Some (to_uint c).
Proof.
  intros E. apply buf_get_Done in E. destruct E as [P E].
  unfold item_at. replace (p <? 0) with false by (symmetry; apply Z.ltb_ge; lia).
  rewrite E. reflexivity.
Qed.

Lemma buf_get_value {T : Type} (vals : list T) (p : Z) (v : T) :
  buf_get vals p = Done v <-> value_at vals p = Some v.
Proof.
  rewrite buf_get_Done. unfold value_at. destruct (p <? 0) eqn:K.
  - apply Z.ltb_lt in K. split; [intros [P _]; lia | intros E; discriminate E].
  - apply Z.ltb_ge in K. tauto.
Qed.

Lemma np_pos_nonneg (n k : Z) (p : nat) :
  0 <= k -> np_pos n k = Some p -> p = Z.to_nat k /\ k < n.
Proof.
  intros K. unfold np_pos.
  destruct (0 <=? k) eqn:L; [ | apply Z.leb_gt in L; lia].
  destruct (k <? n) eqn:U; simpl.
  - apply Z.ltb_lt in U. intros E. inversion E. auto.
  - replace (k <? 0) with false by (symmetry; apply Z.ltb_ge; lia).
    rewrite andb_false_r. intros E. discriminate E.
Qed.

Lemma np_get_nonneg {T : Type} (vals : list T) (k : Z) (v : T) :
  0 <= k -> np_get vals k = Done v -> value_at vals k = Some v.
Proof.
  intros K. unfold np_get.
  destruct (np_pos (len vals) k) as [p | ] eqn:P; [ | intros E; discriminate E].
  apply np_pos_nonneg in P; [ | exact K]. destruct P as [-> _].
  unfold value_at. replace (k <? 0) with false by (symmetry; apply Z.ltb_ge; lia).
  destruct (vals !! Z.to_nat k); intros E; inversion E. reflexivity.
Qed.

(** ** The scan of a row *)

Lemma absent_empty (indices : list Z) (b e item : Z) : e <= b -> absent indices b e item.
Proof. intros L p R. lia. Qed.

Lemma absent_cons (indices : list Z) (b e item c : Z) :
  item_at indices b = Some c -> c <> item ->
  absent indices (b + 1) e item -> absent indices b e item.
Proof.
  intros I N A p R. destruct (Z.eq_dec p b) as [-> | D].
  - rewrite I. intros E. inversion E. contradiction.
  - apply A. lia.
Qed.

Lemma scan_row_None (indices : list Z) (j : Z) (n : nat) (b : Z) :
  scan_row indices j b n = Done None -> absent indices b (b + Z.of_nat n) j.
Proof.
  revert b. induction n as [ | n IH]; intros b E.
  - apply absent_empty. lia.
  - simpl in E. apply obind_Done in E. destruct E as (c & G & E).
    destruct (to_uint c =? j) eqn:Q; [discriminate E | ].
    apply Z.eqb_neq in Q. apply IH in E.
    apply absent_cons with (c := to_uint c).
    + apply buf_get_item. exact G.
    + exact Q.
    + replace (b + Z.of_nat (S n)) with (b + 1 + Z.of_nat n) by lia. exact E.
Qed.

Lemma scan_row_Some (indices : list Z) (j : Z) (n : nat) (b jx : Z) :
  scan_row indices j b n = Done (Some jx) -> first_match indices b (b + Z.of_nat n) j jx.
Proof.
  revert b. induction n as [ | n IH]; intros b E.
  - discriminate E.
  - simpl in E. apply obind_Done in E. destruct E as (c & G & E).
    pose proof (buf_get_item _ _ _ G) as I.
    destruct (to_uint c =? j) eqn:Q.
    + apply Z.eqb_eq in Q. inversion E; subst jx.
      split; [lia | split; [rewrite I, Q; reflexivity | apply absent_empty; lia]].
    + apply Z.eqb_neq in Q. apply IH in E. destruct E as (R & I' & A).
      split; [lia | split; [exact I' | ]].
      apply absent_cons with (c := to_uint c); assumption.
Qed.

Lemma scan_span (b e : Z) : b + Z.of_nat (Z.to_nat (e - b)) = Z.max b e.
Proof. lia. Qed.

(** ** What the samplers return *)

Section SamplerFacts.
Context {T : Type} `{Floating T}.

Lemma sample_negative_example_Done (fuel : nat) (num_items : Z) (vals : list T)
    (indices : list Z) (b e ix : Z) (s s' : rng) (j : Z) :
  sample_negative_example fuel num_items vals indices b e ix s = (Done j, s') ->
  num_items <> 0 /\ 0 <= j <= RAND_MAX /\ (0 < num_items -> j < num_items) /\
  candidate_ok vals indices b (Z.max b e) ix j.
Proof.
  revert s. induction fuel as [ | fuel IH]; intros s E.
  - discriminate E.
  - simpl in E. apply bind_Done in E. destruct E as (j0 & s1 & D & E).
    apply rand_mod_Done in D. destruct D as (N0 & -> & Ej & R & B).
    apply bind_Done in E. destruct E as (found & s2 & S & E).
    apply lift_Done in S. destruct S as [S ->].
    destruct found as [jx | ].
    + apply bind_Done in E. destruct E as (vj & s2 & Vj & E).
      apply lift_Done in Vj. destruct Vj as [Vj ->].
      apply bind_Done in E. destruct E as (vi & s2 & Vi & E).
      apply lift_Done in Vi. destruct Vi as [Vi ->].
      destruct (f_ltb vj vi) eqn:Lt.
      * apply ret_Done in E. destruct E as [-> _].
        repeat split; try assumption; try lia.
        right. exists jx, vj, vi.
        apply scan_row_Some in S. rewrite scan_span in S.
        apply buf_get_value in Vj. auto.
      * apply IH in E. exact E.
    + apply ret_Done in E. destruct E as [-> _].
      repeat split; try assumption; try lia.
      left. apply scan_row_None in S. rewrite scan_span in S. exact S.
Qed.

Lemma sample_positive_example_Done (fuel : nat) (positive_thresh : T) (num_users : Z)
    (vals : list T) (indices indptr : list Z) (s s' : rng) (u ix i : Z) :
  sample_positive_example fuel positive_thresh num_users vals indices indptr s
    = (Done (u, ix, i), s') ->
  num_users <> 0 /\ 0 <= u <= RAND_MAX /\ (0 < num_users -> u < num_users) /\
  exists b e v,
    buf_get indptr u = Done b /\ buf_get indptr (to_uint (u + 1)) = Done e /\
    to_uint b <= ix < to_uint e /\
    value_at vals ix = Some v /\ f_leb positive_thresh v = true /\
    item_at indices ix = Some i.
Proof.
  revert s. induction fuel as [ | fuel IH]; intros s E.
  - discriminate E.
  - simpl in E. apply bind_Done in E. destruct E as (u0 & s1 & D & E).
    apply rand_mod_Done in D. destruct D as (N0 & -> & Eu & R & B).
    apply bind_Done in E. destruct E as (b & s2 & Gb & E).
    apply lift_Done in Gb. destruct Gb as [Gb ->].
    apply bind_Done in E. destruct E as (e & s2 & Ge & E).
    apply lift_Done in Ge. destruct Ge as [Ge ->].
    destruct (to_uint b <? to_uint e) eqn:Lt; [ | apply IH in E; exact E].
    apply Z.ltb_lt in Lt.
    apply bind_Done in E. destruct E as (r2 & s2 & D2 & E).
    unfold rand in D2. inversion D2; subst r2 s2; clear D2.
    apply bind_Done in E. destruct E as (v & s2 & Gv & E).
    apply lift_Done in Gv. destruct Gv as [Gv ->].
    destruct (f_leb positive_thresh v) eqn:Le; [ | apply IH in E; exact E].
    apply bind_Done in E. destruct E as (c & s2 & Gc & E).
    apply lift_Done in Gc. destruct Gc as [Gc ->].
    apply ret_Done in E. destruct E as [E _]. inversion E; subst u ix i; clear E.
    repeat split; try assumption; try lia.
    exists b, e, v.
    pose proof (to_uint_range b) as Rb. pose proof (to_uint_range e) as Re.
    pose proof (draw_range (advance 1 s)) as Rd.
    unfold RAND_MAX in Rd. rewrite INT_MAX_eq in Rd. rewrite UINT_MOD_eq in Rb, Re.
    set (d := draw (advance 1 s)) in *.
    assert (Ed : to_uint d = d) by (apply to_uint_small; rewrite UINT_MOD_eq; lia).
    assert (Ew : to_uint (to_uint e - to_uint b) = to_uint e - to_uint b)
      by (apply to_uint_small; rewrite UINT_MOD_eq; lia).
    rewrite Ed, Ew in *.
    pose proof (Z.mod_pos_bound d (to_uint e - to_uint b) ltac:(lia)) as Rm.
    assert (Ex : to_uint (to_uint b + d mod (to_uint e - to_uint b))
                 = to_uint b + d mod (to_uint e - to_uint b))
      by (apply to_uint_small; rewrite UINT_MOD_eq; lia).
    rewrite Ex in *.
    repeat split; try assumption; try lia.
    + apply buf_get_value. exact Gv.
    + apply buf_get_item. exact Gc.
Qed.

Lemma trials_Done (fuel : nat) (U V : matrix T) (vals : list T) (indices : list Z)
    (b e u ix : Z) (r : T) (max_trials : Z) (n : nat) (N : Z) (s s' : rng) (j Nr : Z) :
  trials fuel U V vals indices b e u ix r max_trials n N s = (Done (j, Nr), s') ->
  (j = -1 /\ Nr = max_trials) \/
  (N <= Nr < N + Z.of_nat n /\ 0 <= j < len V /\
   candidate_ok vals indices b (Z.max b e) ix j /\ violates U V u r j = Done true).
Proof.
  revert N s. induction n as [ | n IH]; intros N s E.
  - simpl in E. apply ret_Done in E. destruct E as [E _]. inversion E. left. auto.
  - simpl in E. apply bind_Done in E. destruct E as (jo & s1 & D & E).
    apply sample_negative_example_Done in D.
    destruct D as (N0 & R & B & C).
    apply bind_Done in E. destruct E as (j1 & s2 & I & E).
    apply lift_Done in I. destruct I as [I ->].
    apply as_int_Done in I. destruct I as [-> _].
    apply bind_Done in E. destruct E as (hit & s2 & Vi & E).
    apply lift_Done in Vi. destruct Vi as [Vi ->].
    destruct hit.
    + apply ret_Done in E. destruct E as [E _]. inversion E; subst j Nr; clear E.
      right. pose proof (to_uint_range (len V)) as Rv.
      assert (to_uint (len V) <= len V).
      { unfold to_uint. apply Z.mod_le; [unfold len; lia | rewrite UINT_MOD_eq; lia]. }
      repeat split; try assumption; try lia.
    + apply IH in E. destruct E as [E | (R1 & E)]; [left; exact E | right].
      split; [lia | exact E].
Qed.

Lemma to_uint_succ (N : Z) : 0 <= N -> to_uint (N + 1) <= N + 1.
Proof.
  intros P. unfold to_uint. apply Z.mod_le; [lia | rewrite UINT_MOD_eq; lia].
Qed.

Lemma trials_unbounded_Done (fuel : nat) (U V : matrix T) (vals : list T) (indices : list Z)
    (b e u ix : Z) (r : T) (n : nat) (N : Z) (s s' : rng) (j Nr : Z) :
  trials_unbounded fuel U V vals indices b e u ix r n N s = (Done (j, Nr), s') ->
  0 <= N < UINT_MOD ->
  0 <= Nr < UINT_MOD /\ 0 <= j < len V /\
  candidate_ok vals indices b (Z.max b e) ix j /\ violates U V u r j = Done true.
Proof.
  revert N s. induction n as [ | n IH]; intros N s E RN.
  - discriminate E.
  - simpl in E. apply bind_Done in E. destruct E as (jo & s1 & D & E).
    apply sample_negative_example_Done in D.
    destruct D as (N0 & R & B & C).
    apply bind_Done in E. destruct E as (j1 & s2 & I & E).
    apply lift_Done in I. destruct I as [I ->].
    apply as_int_Done in I. destruct I as [-> _].
    apply bind_Done in E. destruct E as (hit & s2 & Vi & E).
    apply lift_Done in Vi. destruct Vi as [Vi ->].
    destruct hit.
    + apply ret_Done in E. destruct E as [E _]. inversion E; subst j Nr; clear E.
      pose proof (to_uint_range (len V)) as Rv.
      assert (to_uint (len V) <= len V).
      { unfold to_uint. apply Z.mod_le; [unfold len; lia | rewrite UINT_MOD_eq; lia]. }
      repeat split; try assumption; try lia.
    + apply IH in E; [exact E | apply to_uint_range].
Qed.

(** What [sample_violating_negative_example] returns: the give-up pair
    [(-1, max_trials)], with a bound below [2^32] only, or an accepted
    candidate that violates the margin, with the trial number as the
    [unsigned int] [N] holds it. *)
Lemma sample_violating_negative_example_Done (fuel : nat) (U V : matrix T) (vals : list T)
    (indices : list Z) (b e u ix i max_trials : Z) (s s' : rng) (j Nr : Z) :
  sample_violating_negative_example fuel U V vals indices b e u ix i max_trials s
    = (Done (j, Nr), s') ->
  (j = -1 /\ Nr = max_trials /\ max_trials < UINT_MOD) \/
  (0 <= Nr < UINT_MOD /\ (max_trials < UINT_MOD -> 1 <= Nr <= max_trials - 1) /\
   0 <= j < len V /\
   candidate_ok vals indices b (Z.max b e) ix j /\
   exists d, score U V u i = Done d /\ violates U V u (f_single d) j = Done true).
Proof.
  intros E. unfold sample_violating_negative_example in E.
  apply bind_Done in E. destruct E as (d & s1 & D & E).
  apply lift_Done in D. destruct D as [D ->].
  apply bind_Done in E. destruct E as (bound & s1 & B & E).
  apply lift_Done in B. destruct B as [B ->].
  apply as_long_Done in B. destruct B as [-> _].
  destruct (max_trials <? UINT_MOD) eqn:Lt.
  - apply Z.ltb_lt in Lt. apply trials_Done in E.
    destruct E as [[Ej EN] | (R & J & C & Vi)]; [left; auto | right].
    repeat split; try assumption; try lia. exists d. auto.
  - apply Z.ltb_ge in Lt. apply trials_unbounded_Done in E; [ | rewrite UINT_MOD_eq; lia].
    destruct E as (R & J & C & Vi). right.
    repeat split; try assumption; try lia. exists d. auto.
Qed.

Lemma to_uint_add_l (x y : Z) : to_uint (to_uint x + y) = to_uint (x + y).
Proof. unfold to_uint. apply Z.add_mod_idemp_l. rewrite UINT_MOD_eq. lia. Qed.

Lemma warp_loop_Done (fuel k : nat) (U V : matrix T) (vals : list T) (indices indptr : list Z)
    (positive_thresh : T) (max_trials num_users tot : Z) (s s' : rng) (u i j N tot' : Z) :
  warp_loop fuel k U V vals indices indptr positive_thresh max_trials num_users tot s
    = (Done (u, i, j, N, tot'), s') ->
  (num_users <> 0 /\ (0 < num_users -> 0 <= u < num_users)) /\
  (offsets_ok indptr -> sampled_triple vals indices indptr positive_thresh u i j) /\
  0 <= j < len V /\ 0 <= N < UINT_MOD /\
  (max_trials < UINT_MOD -> 1 <= N <= max_trials - 1) /\
  exists m : nat, tot' = to_uint (tot + Z.of_nat m * max_trials + N).
Proof.
  revert tot s. induction k as [ | k IH]; intros tot s E.
  - discriminate E.
  - simpl in E. apply bind_Done in E. destruct E as ([[u0 ix] i0] & s1 & P & E).
    apply sample_positive_example_Done in P.
    destruct P as (N0 & Ru & Bu & b & e & v & Gb & Ge & Rx & Vv & Le & It).
    apply bind_Done in E. destruct E as (b' & s2 & Gb' & E).
    apply lift_Done in Gb'. destruct Gb' as [Gb' ->].
    apply bind_Done in E. destruct E as (e' & s2 & Ge' & E).
    apply lift_Done in Ge'. destruct Ge' as [Ge' ->].
    rewrite Gb in Gb'. inversion Gb'; subst b'; clear Gb'.
    rewrite Ge in Ge'. inversion Ge'; subst e'; clear Ge'.
    apply bind_Done in E. destruct E as ([jo No] & s2 & Sv & E).
    apply sample_violating_negative_example_Done in Sv.
    apply bind_Done in E. destruct E as (j1 & s3 & Ij & E).
    apply lift_Done in Ij. destruct Ij as [Ij ->].
    apply as_int_Done in Ij. destruct Ij as [-> _].
    apply bind_Done in E. destruct E as (N1 & s3 & IN & E).
    apply lift_Done in IN. destruct IN as [IN ->].
    apply as_uint_Done in IN. destruct IN as [-> RN].
    destruct Sv as [(-> & -> & _) | (R0 & R1 & J & C & _)].
    + replace (0 <=? -1) with false in E by reflexivity.
      apply IH in E. destruct E as (Bu' & St & J & RN' & RM & m & Et).
      repeat split; try assumption; try lia.
      exists (S m). rewrite Et, <- Z.add_assoc, to_uint_add_l. f_equal. lia.
    + replace (0 <=? jo) with true in E by (symmetry; apply Z.leb_le; lia).
      apply ret_Done in E. destruct E as [E _]. inversion E; subst u i j N tot'; clear E.
      repeat split; try assumption; try lia.
      * intros O.
        assert (U1 : to_uint (u0 + 1) = u0 + 1).
        { apply to_uint_small. unfold RAND_MAX in Ru. rewrite INT_MAX_eq in Ru.
          rewrite UINT_MOD_eq. lia. }
        rewrite U1 in Ge.
        apply buf_get_Done in Gb. destruct Gb as [_ Gb].
        apply buf_get_Done in Ge. destruct Ge as [_ Ge].
        assert (Ob : 0 <= b <= INT_MAX).
        { unfold offsets_ok in O. rewrite Forall_lookup in O. exact (O _ _ Gb). }
        assert (Oe : 0 <= e <= INT_MAX).
        { unfold offsets_ok in O. rewrite Forall_lookup in O. exact (O _ _ Ge). }
        rewrite INT_MAX_eq in Ob, Oe.
        rewrite (to_uint_small b) in Rx by (rewrite UINT_MOD_eq; lia).
        rewrite (to_uint_small e) in Rx by (rewrite UINT_MOD_eq; lia).
        replace (Z.max b e) with e in C by lia.
        exists b, e, ix, v. unfold row_of. repeat split; try assumption; try lia.
      * exists 0%nat. f_equal. lia.
Qed.

(** The rounds of a returning loop: [m] discarded attempts, then one round
    whose search returns the item [j] and the count [N] that the loop hands
    on; the total is the sum of the counts, as an [unsigned int]. *)
Lemma warp_loop_rounds (fuel k : nat) (U V : matrix T) (vals : list T) (indices indptr : list Z)
    (positive_thresh : T) (max_trials num_users tot : Z) (s s' : rng) (u i j N tot' : Z) :
  warp_loop fuel k U V vals indices indptr positive_thresh max_trials num_users tot s
    = (Done (u, i, j, N, tot'), s') ->
  exists (m : nat) (s0 s1 : rng) (ix b e : Z),
    discarded fuel U V vals indices indptr positive_thresh max_trials num_users m s s0 /\
    sample_positive_example fuel positive_thresh num_users vals indices indptr s0
      = (Done (u, ix, i), s1) /\
    buf_get indptr u = Done b /\ buf_get indptr (to_uint (u + 1)) = Done e /\
    sample_violating_negative_example fuel U V vals indices b e u ix i max_trials s1
      = (Done (j, N), s') /\
    0 <= j /\
    (m <> 0%nat -> 0 <= max_trials < UINT_MOD) /\
    tot' = to_uint (tot + Z.of_nat m * max_trials + N).
Proof.
  revert tot s. induction k as [ | k IH]; intros tot s E.
  - discriminate E.
  - simpl in E. apply bind_Done in E. destruct E as ([[u0 ix] i0] & s1 & P & E).
    apply bind_Done in E. destruct E as (b & s2 & Gb & E).
    apply lift_Done in Gb. destruct Gb as [Gb ->].
    apply bind_Done in E. destruct E as (e & s2 & Ge & E).
    apply lift_Done in Ge. destruct Ge as [Ge ->].
    apply bind_Done in E. destruct E as ([jo No] & s2 & Sv & E).
    pose proof (sample_violating_negative_example_Done _ _ _ _ _ _ _ _ _ _ _ _ _ _ _ Sv) as Dv.
    apply bind_Done in E. destruct E as (j1 & s3 & Ij & E).
    apply lift_Done in Ij. destruct Ij as [Ij ->].
    apply as_int_Done in Ij. destruct Ij as [-> _].
    apply bind_Done in E. destruct E as (N1 & s3 & IN & E).
    apply lift_Done in IN. destruct IN as [IN ->].
    apply as_uint_Done in IN. destruct IN as [-> RN].
    destruct (0 <=? jo) eqn:Pj.
    + apply Z.leb_le in Pj.
      apply ret_Done in E. destruct E as [E ->]. inversion E; subst u i j N tot'; clear E.
      exists 0%nat, s, s1, ix, b, e.
      split; [constructor | ].
      split; [exact P | split; [exact Gb | split; [exact Ge | split; [exact Sv | ]]]].
      split; [exact Pj | split; [intros Ne; contradiction | f_equal; lia]].
    + apply Z.leb_gt in Pj.
      destruct Dv as [(-> & -> & _) | (_ & _ & J & _)]; [ | lia].
      apply IH in E.
      destruct E as (m & s0 & s1' & ix' & b' & e' & Di & Ep & Gb' & Ge' & Ev & Pj' & _ & Et).
      exists (S m), s0, s1', ix', b', e'.
      split; [eapply discarded_round; eassumption | ].
      split; [exact Ep | split; [exact Gb' | split; [exact Ge' | split; [exact Ev | ]]]].
      split; [exact Pj' | split; [intros _; exact RN | ]].
      rewrite Et, <- Z.add_assoc, to_uint_add_l. f_equal. lia.
Qed.

End SamplerFacts.

(** ** How the samplers run *)

Section SamplerSteps.
Context {T : Type} `{Floating T}.

Lemma sample_negative_example_unrated (fuel : nat) (num_items : Z) (vals : list T)
    (indices : list Z) (b e ix : Z) (s : rng) :
  0 < num_items ->
  scan_row indices (draw s mod num_items) b (Z.to_nat (e - b)) = Done None ->
  sample_negative_example (S fuel) num_items vals indices b e ix s
    = (Done (draw s mod num_items), advance 1 s).
Proof.
  intros P Sc. cbn [sample_negative_example].
  rewrite (bind_step _ _ _ _ _ (rand_mod_pos num_items s P)).
  unfold bind at 1, lift at 1. rewrite Sc. reflexivity.
Qed.

Lemma sample_negative_example_lower (fuel : nat) (num_items : Z) (vals : list T)
    (indices : list Z) (b e ix : Z) (s : rng) (jx : Z) (vj vi : T) :
  0 < num_items ->
  scan_row indices (draw s mod num_items) b (Z.to_nat (e - b)) = Done (Some jx) ->
  buf_get vals jx = Done vj -> np_get vals ix = Done vi -> f_ltb vj vi = true ->
  sample_negative_example (S fuel) num_items vals indices b e ix s
    = (Done (draw s mod num_items), advance 1 s).
Proof.
  intros P Sc Vj Vi Lt. cbn [sample_negative_example].
  rewrite (bind_step _ _ _ _ _ (rand_mod_pos num_items s P)).
  unfold bind at 1, lift at 1. rewrite Sc.
  unfold bind at 1, lift at 1. rewrite Vj.
  unfold bind at 1, lift at 1. rewrite Vi. rewrite Lt. reflexivity.
Qed.

Lemma sample_negative_example_reject (fuel : nat) (num_items : Z) (vals : list T)
    (indices : list Z) (b e ix : Z) (s : rng) (jx : Z) (vj vi : T) :
  0 < num_items ->
  scan_row indices (draw s mod num_items) b (Z.to_nat (e - b)) = Done (Some jx) ->
  buf_get vals jx = Done vj -> np_get vals ix = Done vi -> f_ltb vj vi = false ->
  sample_negative_example (S fuel) num_items vals indices b e ix s
    = sample_negative_example fuel num_items vals indices b e ix (advance 1 s).
Proof.
  intros P Sc Vj Vi Lt. cbn [sample_negative_example].
  rewrite (bind_step _ _ _ _ _ (rand_mod_pos num_items s P)).
  unfold bind at 1, lift at 1. rewrite Sc.
  unfold bind at 1, lift at 1. rewrite Vj.
  unfold bind at 1, lift at 1. rewrite Vi. rewrite Lt. reflexivity.
Qed.

Lemma sample_positive_example_accept (fuel : nat) (positive_thresh : T) (num_users : Z)
    (vals : list T) (indices indptr : list Z) (s : rng) (b e c : Z) (v : T) :
  let u := draw s mod num_users in
  let ix := to_uint (to_uint b + to_uint (draw (advance 1 s)) mod to_uint (to_uint e - to_uint b)) in
  0 < num_users ->
  buf_get indptr u = Done b -> buf_get indptr (to_uint (u + 1)) = Done e ->
  to_uint b < to_uint e ->
  buf_get vals ix = Done v -> f_leb positive_thresh v = true ->
  buf_get indices ix = Done c ->
  sample_positive_example (S fuel) positive_thresh num_users vals indices indptr s
    = (Done (u, ix, to_uint c), advance 1 (advance 1 s)).
Proof.
  intros u ix P Gb Ge Lt Gv Le Gc. cbn [sample_positive_example].
  rewrite (bind_step _ _ _ _ _ (rand_mod_pos num_users s P)). fold u.
  unfold bind at 1, lift at 1. rewrite Gb.
  unfold bind at 1, lift at 1. rewrite Ge.
  replace (to_uint b <? to_uint e) with true by (symmetry; apply Z.ltb_lt; exact Lt).
  unfold bind at 1, rand at 1. fold ix.
  unfold bind at 1, lift at 1. rewrite Gv. rewrite Le.
  unfold bind at 1, lift at 1. rewrite Gc. reflexivity.
Qed.

Lemma trials_exhausted (fuel : nat) (U V : matrix T) (vals : list T) (indices : list Z)
    (b e u ix : Z) (r : T) (max_trials N : Z) (s : rng) :
  trials fuel U V vals indices b e u ix r max_trials 0 N s = (Done (-1, max_trials), s).
Proof. reflexivity. Qed.

Lemma trials_miss (fuel : nat) (U V : matrix T) (vals : list T) (indices : list Z)
    (b e u ix : Z) (r : T) (max_trials : Z) (n : nat) (N : Z) (s s1 : rng) (j : Z) :
  sample_negative_example fuel (to_uint (len V)) vals indices b e ix s = (Done j, s1) ->
  violates U V u r j = Done false ->
  trials fuel U V vals indices b e u ix r max_trials (S n) N s
    = trials fuel U V vals indices b e u ix r max_trials n (N + 1) s1.
Proof.
  intros D Vi. cbn [trials]. rewrite (bind_step _ _ _ _ _ D).
  apply sample_negative_example_Done in D. destruct D as (_ & R & _).
  unfold bind at 1, lift at 1. rewrite as_int_small by (unfold RAND_MAX in R; lia).
  unfold bind at 1, lift at 1. rewrite Vi. reflexivity.
Qed.

Lemma trials_hit (fuel : nat) (U V : matrix T) (vals : list T) (indices : list Z)
    (b e u ix : Z) (r : T) (max_trials : Z) (n : nat) (N : Z) (s s1 : rng) (j : Z) :
  sample_negative_example fuel (to_uint (len V)) vals indices b e ix s = (Done j, s1) ->
  violates U V u r j = Done true ->
  trials fuel U V vals indices b e u ix r max_trials (S n) N s = (Done (j, N), s1).
Proof.
  intros D Vi. cbn [trials]. rewrite (bind_step _ _ _ _ _ D).
  apply sample_negative_example_Done in D. destruct D as (_ & R & _).
  unfold bind at 1, lift at 1. rewrite as_int_small by (unfold RAND_MAX in R; lia).
  unfold bind at 1, lift at 1. rewrite Vi. reflexivity.
Qed.

Lemma trials_unbounded_miss (fuel : nat) (U V : matrix T) (vals : list T) (indices : list Z)
    (b e u ix : Z) (r : T) (n : nat) (N : Z) (s s1 : rng) (j : Z) :
  sample_negative_example fuel (to_uint (len V)) vals indices b e ix s = (Done j, s1) ->
  violates U V u r j = Done false ->
  trials_unbounded fuel U V vals indices b e u ix r (S n) N s
    = trials_unbounded fuel U V vals indices b e u ix r n (to_uint (N + 1)) s1.
Proof.
  intros D Vi. cbn [trials_unbounded]. rewrite (bind_step _ _ _ _ _ D).
  apply sample_negative_example_Done in D. destruct D as (_ & R & _).
  unfold bind at 1, lift at 1. rewrite as_int_small by (unfold RAND_MAX in R; lia).
  unfold bind at 1, lift at 1. rewrite Vi. reflexivity.
Qed.

Lemma trials_unbounded_hit (fuel : nat) (U V : matrix T) (vals : list T) (indices : list Z)
    (b e u ix : Z) (r : T) (n : nat) (N : Z) (s s1 : rng) (j : Z) :
  sample_negative_example fuel (to_uint (len V)) vals indices b e ix s = (Done j, s1) ->
  violates U V u r j = Done true ->
  trials_unbounded fuel U V vals indices b e u ix r (S n) N s = (Done (j, N), s1).
Proof.
  intros D Vi. cbn [trials_unbounded]. rewrite (bind_step _ _ _ _ _ D).
  apply sample_negative_example_Done in D. destruct D as (_ & R & _).
  unfold bind at 1, lift at 1. rewrite as_int_small by (unfold RAND_MAX in R; lia).
  unfold bind at 1, lift at 1. rewrite Vi. reflexivity.
Qed.

Lemma candidates_cons (fuel : nat) (num_items : Z) (vals : list T) (indices : list Z)
    (b e ix : Z) (n : nat) (s s' : rng) (js : list Z) :
  candidates fuel num_items vals indices b e ix (S n) s = (Done js, s') ->
  exists j rest s1,
    js = j :: rest /\
    sample_negative_example fuel num_items vals indices b e ix s = (Done j, s1) /\
    candidates fuel num_items vals indices b e ix n s1 = (Done rest, s').
Proof.
  intros E. cbn [candidates] in E.
  apply bind_Done in E. destruct E as (j & s1 & D & E).
  apply bind_Done in E. destruct E as (rest & s2 & Cs & E).
  apply ret_Done in E. destruct E as [-> ->].
  exists j, rest, s1. auto.
Qed.

(** When none of the first [n] candidates violates the margin, the loop
    runs to its end. *)
Lemma trials_all_miss (fuel : nat) (U V : matrix T) (vals : list T) (indices : list Z)
    (b e u ix : Z) (r : T) (max_trials : Z) (n : nat) (N : Z) (s s' : rng) (js : list Z) :
  candidates fuel (to_uint (len V)) vals indices b e ix n s = (Done js, s') ->
  Forall (fun c => violates U V u r c = Done false) js ->
  trials fuel U V vals indices b e u ix r max_trials n N s = (Done (-1, max_trials), s').
Proof.
  revert N s js. induction n as [ | n IH]; intros N s js Cs Fa.
  - apply ret_Done in Cs. destruct Cs as [_ ->]. reflexivity.
  - apply candidates_cons in Cs. destruct Cs as (j & rest & s1 & -> & D & Cs).
    inversion Fa as [ | c l Vc Fr]; subst.
    rewrite (trials_miss _ _ _ _ _ _ _ _ _ _ _ _ _ _ _ _ D Vc).
    apply IH with (js := rest); assumption.
Qed.

(** When the candidates [js0] do not violate the margin and the next one,
    [j], does, the loop returns [j] with its trial number. *)
Lemma trials_first_hit (fuel : nat) (U V : matrix T) (vals : list T) (indices : list Z)
    (b e u ix : Z) (r : T) (max_trials : Z) (js0 : list Z) (j : Z) (n : nat) (N : Z)
    (s s' : rng) :
  candidates fuel (to_uint (len V)) vals indices b e ix (S (length js0)) s
    = (Done (js0 ++ [j]), s') ->
  Forall (fun c => violates U V u r c = Done false) js0 ->
  violates U V u r j = Done true ->
  (length js0 < n)%nat ->
  trials fuel U V vals indices b e u ix r max_trials n N s
    = (Done (j, N + Z.of_nat (length js0)), s').
Proof.
  revert n N s. induction js0 as [ | c js0 IH]; intros n N s Cs Fa Vj Ln.
  - destruct n as [ | n]; [inversion Ln | ].
    apply candidates_cons in Cs. destruct Cs as (j1 & rest & s1 & Ej & D & Cs).
    apply ret_Done in Cs. destruct Cs as [-> ->].
    simpl in Ej. inversion Ej; subst j1.
    rewrite (trials_hit _ _ _ _ _ _ _ _ _ _ _ _ _ _ _ _ D Vj).
    simpl. rewrite Z.add_0_r. reflexivity.
  - destruct n as [ | n]; [inversion Ln | ].
    apply candidates_cons in Cs. destruct Cs as (j1 & rest & s1 & Ej & D & Cs).
    simpl in Ej. inversion Ej; subst j1 rest.
    inversion Fa as [ | c' l Vc Fr]; subst.
    rewrite (trials_miss _ _ _ _ _ _ _ _ _ _ _ _ _ _ _ _ D Vc).
    change (length (c :: js0)) with (S (length js0)) in *.
    rewrite (IH n (N + 1) s1 Cs Fr Vj) by lia.
    replace (N + Z.of_nat (S (length js0))) with (N + 1 + Z.of_nat (length js0)) by lia.
    reflexivity.
Qed.

(** The loop stops after at most [n] candidates, whatever its outcome. *)
Lemma trials_draws (fuel : nat) (U V : matrix T) (vals : list T) (indices : list Z)
    (b e u ix : Z) (r : T) (max_trials : Z) (n : nat) (N : Z) (s : rng) :
  exists m : nat, (m <= n)%nat /\
    snd (trials fuel U V vals indices b e u ix r max_trials n N s)
      = snd (candidates fuel (to_uint (len V)) vals indices b e ix m s).
Proof.
  revert N s. induction n as [ | n IH]; intros N s.
  - exists 0%nat. split; [lia | reflexivity].
  - cbn [trials].
    destruct (sample_negative_example fuel (to_uint (len V)) vals indices b e ix s)
      as [o s1] eqn:D.
    assert (One : snd (candidates fuel (to_uint (len V)) vals indices b e ix 1 s) = s1).
    { cbn [candidates]. unfold bind at 1. rewrite D.
      destruct o; reflexivity. }
    destruct o as [j | ex | | ].
    + rewrite (bind_step _ _ _ _ _ D).
      unfold bind at 1, lift at 1.
      destruct (as_int j) as [j' | ex | | ]; try (exists 1%nat; split; [lia | ]; rewrite One; reflexivity).
      unfold bind at 1, lift at 1.
      destruct (violates U V u r j') as [[ | ] | ex | | ];
        try (exists 1%nat; split; [lia | ]; rewrite One; reflexivity).
      destruct (IH (N + 1) s1) as (m & Lm & Em).
      exists (S m). split; [lia | ]. rewrite Em.
      cbn [candidates]. rewrite (bind_step _ _ _ _ _ D).
      rewrite bind_snd_ret. reflexivity.
    + exists 1%nat. split; [lia | ]. rewrite One. unfold bind. rewrite D. reflexivity.
    + exists 1%nat. split; [lia | ]. rewrite One. unfold bind. rewrite D. reflexivity.
    + exists 1%nat. split; [lia | ]. rewrite One. unfold bind. rewrite D. reflexivity.
Qed.

Lemma sample_violating_negative_example_unfold (fuel : nat) (U V : matrix T) (vals : list T)
    (indices : list Z) (b e u ix i max_trials : Z) (d : T) (s : rng) :
  score U V u i = Done d ->
  - LONG_MAX - 1 <= max_trials < UINT_MOD ->
  sample_violating_negative_example fuel U V vals indices b e u ix i max_trials s
    = trials fuel U V vals indices b e u ix (f_single d) max_trials
        (Z.to_nat (max_trials - 1)) 1 s.
Proof.
  intros D R. unfold sample_violating_negative_example, bind, lift. rewrite D.
  rewrite as_long_small by (rewrite LONG_MAX_eq in *; rewrite UINT_MOD_eq in R; lia).
  replace (max_trials <? UINT_MOD) with true by (symmetry; apply Z.ltb_lt; lia).
  reflexivity.
Qed.

(** A bound of [2^32] or more that fits a C [long]: the loop has no end of
    its own. *)
Lemma sample_violating_negative_example_unbounded (fuel : nat) (U V : matrix T)
    (vals : list T) (indices : list Z) (b e u ix i max_trials : Z) (d : T) (s : rng) :
  score U V u i = Done d ->
  UINT_MOD <= max_trials <= LONG_MAX ->
  sample_violating_negative_example fuel U V vals indices b e u ix i max_trials s
    = trials_unbounded fuel U V vals indices b e u ix (f_single d) fuel 1 s.
Proof.
  intros D R. unfold sample_violating_negative_example, bind, lift. rewrite D.
  rewrite as_long_small by (rewrite LONG_MAX_eq in *; rewrite UINT_MOD_eq in R; lia).
  replace (max_trials <? UINT_MOD) with false by (symmetry; apply Z.ltb_ge; lia).
  reflexivity.
Qed.

(** A bound that does not fit a C [long] raises, once the margin reference
    is computed and before any draw. *)
Lemma sample_violating_negative_example_overflow (fuel : nat) (U V : matrix T)
    (vals : list T) (indices : list Z) (b e u ix i max_trials : Z) (d : T) (s : rng) :
  score U V u i = Done d ->
  LONG_MAX < max_trials ->
  sample_violating_negative_example fuel U V vals indices b e u ix i max_trials s
    = (Raised OverflowError, s).
Proof.
  intros D R. unfold sample_violating_negative_example, bind, lift. rewrite D.
  rewrite as_long_large by exact R. reflexivity.
Qed.

(** One round of the loop of [warp_sample] that gives up. *)
Lemma warp_loop_retry (fuel k : nat) (U V : matrix T) (vals : list T) (indices indptr : list Z)
    (positive_thresh : T) (max_trials num_users tot : Z) (s s1 s2 : rng) (u ix i b e : Z) :
  sample_positive_example fuel positive_thresh num_users vals indices indptr s
    = (Done (u, ix, i), s1) ->
  buf_get indptr u = Done b -> buf_get indptr (to_uint (u + 1)) = Done e ->
  sample_violating_negative_example fuel U V vals indices b e u ix i max_trials s1
    = (Done (-1, max_trials), s2) ->
  0 <= max_trials < UINT_MOD ->
  warp_loop fuel (S k) U V vals indices indptr positive_thresh max_trials num_users tot s
    = warp_loop fuel k U V vals indices indptr positive_thresh max_trials num_users
        (to_uint (tot + max_trials)) s2.
Proof.
  intros P Gb Ge Sv R. cbn [warp_loop].
  rewrite (bind_step _ _ _ _ _ P).
  unfold bind at 1, lift at 1. rewrite Gb.
  unfold bind at 1, lift at 1. rewrite Ge.
  rewrite (bind_step _ _ _ _ _ Sv).
  unfold bind at 1, lift at 1. rewrite as_int_small by (rewrite INT_MAX_eq; lia).
  unfold bind at 1, lift at 1. rewrite as_uint_small by exact R.
  reflexivity.
Qed.

(** One round of the loop of [warp_sample] that finds a violating negative. *)
Lemma warp_loop_return (fuel k : nat) (U V : matrix T) (vals : list T) (indices indptr : list Z)
    (positive_thresh : T) (max_trials num_users tot : Z) (s s1 s2 : rng)
    (u ix i b e j N : Z) :
  sample_positive_example fuel positive_thresh num_users vals indices indptr s
    = (Done (u, ix, i), s1) ->
  buf_get indptr u = Done b -> buf_get indptr (to_uint (u + 1)) = Done e ->
  sample_violating_negative_example fuel U V vals indices b e u ix i max_trials s1
    = (Done (j, N), s2) ->
  0 <= j <= INT_MAX -> 0 <= N < UINT_MOD ->
  warp_loop fuel (S k) U V vals indices indptr positive_thresh max_trials num_users tot s
    = (Done (u, i, j, N, to_uint (tot + N)), s2).
Proof.
  intros P Gb Ge Sv Rj RN. cbn [warp_loop].
  rewrite (bind_step _ _ _ _ _ P).
  unfold bind at 1, lift at 1. rewrite Gb.
  unfold bind at 1, lift at 1. rewrite Ge.
  rewrite (bind_step _ _ _ _ _ Sv).
  unfold bind at 1, lift at 1. rewrite as_int_small by lia.
  unfold bind at 1, lift at 1. rewrite as_uint_small by exact RN.
  replace (0 <=? j) with true by (symmetry; apply Z.leb_le; lia).
  reflexivity.
Qed.

End SamplerSteps.

(** ** Floating-point numbers *)

(** [round_to_single] on numbers whose binary32 neighbours are known: 0.1,
    a tie that goes to the even neighbour, a number next to 1, a binary32
    subnormal, and overflow. *)
Lemma round_to_single_examples :
  round_to_single 0x1.999999999999ap-4 = 0x1.99999ap-4%float /\
  round_to_single 16777217 = 16777216%float /\
  round_to_single 16777219 = 16777220%float /\
  round_to_single 0x1.00000004p+0 = 1%float /\
  round_to_single 0x1.8p-149 = 0x1p-148%float /\
  round_to_single 0x1p-150 = 0%float /\
  round_to_single 0x1.ffffffp+127 = infinity /\
  round_to_single (-0x1.fffffe1p+127) = (-0x1.fffffep+127)%float /\
  round_to_single 5 = 5%float.
Proof. repeat split; vm_compute; reflexivity. Qed.

(** ** The triples of [warp_sample] *)

Lemma binary64_ltb_irrefl (x : float) : PrimFloat.ltb x x = false.
Proof.
  rewrite ltb_spec. unfold SFltb.
  destruct (Prim2SF x) as [sg | sg | | sg m e]; simpl.
  - reflexivity.
  - destruct sg; reflexivity.
  - reflexivity.
  - destruct sg; rewrite Z.compare_refl, Pos.compare_cont_refl; reflexivity.
Qed.

Lemma rated_at_rating {T : Type} (vals : list T) (indices indptr : list Z) (u p item : Z) (v : T) :
  unique_row indices indptr u -> rated_at vals indices indptr u p item v ->
  rating vals indices indptr u item v.
Proof.
  intros Q (b & e & Ro & R & I & Va). exists b, e, p.
  split; [exact Ro | split; [ | exact Va]].
  split; [exact R | split; [exact I | ]].
  intros q Rq Iq. assert (q = p) by (apply (Q b e q p item); try assumption; lia). lia.
Qed.

(** C1, as amended. For every triple [(u, i, j, N, tot_trials)] that
    [warp_sample] returns, on row offsets that are non-negative: user [u]'s
    row holds [i] at the sampled position [ix], with a rating [vi] there
    that is at least [positive_thresh], and either [j] does not appear among
    [u]'s column indices or the rating at the first position of [j] in the
    row is strictly below [vi]; when the column indices within the row are
    unique, [vi] is the rating of [i] that a scan of the row finds, as the
    rating of [j] is. *)
Theorem warp_sample_ratings {T : Type} `{Floating T} (fuel : nat) (U V : matrix T)
    (vals : list T) (indices indptr : list Z) (positive_thresh : T) (max_trials : Z)
    (s s' : rng) (u i j N tot_trials : Z) :
  offsets_ok indptr ->
  warp_sample fuel U V vals indices indptr positive_thresh max_trials s
    = (Done (u, i, j, N, tot_trials), s') ->
  exists ix vi,
    rated_at vals indices indptr u ix i vi /\
    f_leb positive_thresh vi = true /\
    (unique_row indices indptr u -> rating vals indices indptr u i vi) /\
    (unrated indices indptr u j \/
     exists vj, rating vals indices indptr u j vj /\ f_ltb vj vi = true).
Proof.
  intros O E. unfold warp_sample in E. apply warp_loop_Done in E.
  destruct E as (_ & St & _). specialize (St O).
  destruct St as (b & e & ix & vi & Ro & R & I & Va & Le & C).
  assert (Ra : rated_at vals indices indptr u ix i vi) by (exists b, e; auto).
  exists ix, vi. split; [exact Ra | split; [exact Le | split]].
  - intros Q. apply rated_at_rating with (p := ix); assumption.
  - destruct C as [A | (jx & vj & vi' & Fm & Vj & Vi & Lt)].
    + left. exists b, e. auto.
    + right. exists vj. split; [exists b, e, jx; auto | ].
      destruct Ro as (_ & Gb & _).
      assert (0 <= ix).
      { destruct R as [R _]. unfold item_at in I. destruct (ix <? 0) eqn:K; [discriminate I | ].
        apply Z.ltb_ge in K. exact K. }
      apply np_get_nonneg in Vi; [ | assumption].
      rewrite Va in Vi. inversion Vi; subst vi'. exact Lt.
Qed.

(** C2. For every triple that [warp_sample] returns, [j <> i], provided the
    column indices within user [u]'s row are unique (and the row offsets are
    non-negative). The only fact about the numbers that the proof uses is
    that no rating is strictly below itself: the scan finds the positive
    item at its own position and rejects it. [sample_negative_example] does
    not receive [i] at all. *)
Theorem warp_sample_distinct {T : Type} `{Floating T} (fuel : nat) (U V : matrix T)
    (vals : list T) (indices indptr : list Z) (positive_thresh : T) (max_trials : Z)
    (s s' : rng) (u i j N tot_trials : Z) :
  (forall x : T, f_ltb x x = false) ->
  offsets_ok indptr ->
  unique_row indices indptr u ->
  warp_sample fuel U V vals indices indptr positive_thresh max_trials s
    = (Done (u, i, j, N, tot_trials), s') ->
  j <> i.
Proof.
  intros Irr O Q E. unfold warp_sample in E. apply warp_loop_Done in E.
  destruct E as (_ & St & _). specialize (St O).
  destruct St as (b & e & ix & vi & Ro & R & I & Va & Le & C).
  intros ->.
  destruct C as [A | (jx & vj & vi' & (Rj & Ij & _) & Vj & Vi & Lt)].
  - exact (A ix R I).
  - assert (jx = ix) by (apply (Q b e jx ix i); assumption). subst jx.
    assert (0 <= ix).
    { unfold item_at in I. destruct (ix <? 0) eqn:K; [discriminate I | ].
      apply Z.ltb_ge in K. exact K. }
    apply np_get_nonneg in Vi; [ | assumption].
    rewrite Va in Vi, Vj. inversion Vi; subst vi'. inversion Vj; subst vj.
    rewrite Irr in Lt. discriminate Lt.
Qed.

(** C6, as amended. Whenever [warp_sample] returns, [j] is an item index
    (at least 0 and below the number of rows of [V]); the run consisted of
    some number [m] of discarded attempts, each a search that gave up with
    [(-1, max_trials)], and one last attempt whose search returned [(j, N)]:
    [N] is the trial count of that attempt alone, at least 0 and below
    [2^32], and between 1 and [max_trials - 1] when [max_trials] is below
    [2^32]; [tot_trials] is, modulo [2^32], that count plus [max_trials] for
    each discarded attempt; when that sum is below [2^32] it is
    [tot_trials] itself, which is then at least [N]. *)
Theorem warp_sample_counts {T : Type} `{Floating T} (fuel : nat) (U V : matrix T)
    (vals : list T) (indices indptr : list Z) (positive_thresh : T) (max_trials : Z)
    (s s' : rng) (u i j N tot_trials : Z) :
  warp_sample fuel U V vals indices indptr positive_thresh max_trials s
    = (Done (u, i, j, N, tot_trials), s') ->
  0 <= j < len V /\
  0 <= N < UINT_MOD /\
  (max_trials < UINT_MOD -> 1 <= N <= max_trials - 1) /\
  exists (m : nat) (s0 s1 : rng) (ix b e : Z),
    discarded fuel U V vals indices indptr positive_thresh max_trials (to_uint (len U))
      m s s0 /\
    sample_positive_example fuel positive_thresh (to_uint (len U)) vals indices indptr s0
      = (Done (u, ix, i), s1) /\
    buf_get indptr u = Done b /\ buf_get indptr (to_uint (u + 1)) = Done e /\
    sample_violating_negative_example fuel U V vals indices b e u ix i max_trials s1
      = (Done (j, N), s') /\
    tot_trials = to_uint (Z.of_nat m * max_trials + N) /\
    (Z.of_nat m * max_trials + N < UINT_MOD ->
     tot_trials = Z.of_nat m * max_trials + N /\ N <= tot_trials).
Proof.
  intros E. unfold warp_sample in E.
  pose proof (warp_loop_Done _ _ _ _ _ _ _ _ _ _ _ _ _ _ _ _ _ _ E) as W.
  destruct W as (_ & _ & J & RN & RM & _).
  split; [exact J | split; [exact RN | split; [exact RM | ]]].
  apply warp_loop_rounds in E.
  destruct E as (m & s0 & s1 & ix & b & e & Di & Ep & Gb & Ge & Ev & _ & Rm & Et).
  exists m, s0, s1, ix, b, e. simpl in Et.
  split; [exact Di | split; [exact Ep | split; [exact Gb | split; [exact Ge | ]]]].
  split; [exact Ev | split; [exact Et | ]].
  intros Sm.
  assert (Pm : 0 <= Z.of_nat m * max_trials).
  { destruct m as [ | m]; [lia | ]. specialize (Rm ltac:(discriminate)). nia. }
  rewrite to_uint_small in Et by lia. lia.
Qed.

Lemma Scenario_offsets_ok : offsets_ok Scenario.indptr.
Proof. unfold offsets_ok, Scenario.indptr. repeat constructor; vm_compute; congruence. Qed.

Lemma Scenario_unique_row : unique_row Scenario.indices Scenario.indptr 0.
Proof.
  intros b e p q item (_ & Gb & Ge) Rp Rq Ip Iq.
  inversion Gb; subst b. inversion Ge; subst e.
  assert (Cp : p = 0 \/ p = 1 \/ p = 2) by lia.
  assert (Cq : q = 0 \/ q = 1 \/ q = 2) by lia.
  destruct Cp as [-> | [-> | ->]], Cq as [-> | [-> | ->]];
    try reflexivity; vm_compute in Ip, Iq; congruence.
Qed.

Lemma Scenario_run :
  warp_sample 5 Scenario.U Scenario.V Scenario.vals Scenario.indices Scenario.indptr
      5%float 3 (Scenario.source [0; 1; 0; 2; 3; 2; 9; 6; 0; 0; 5])
    = (Done (0, 2, 5, 1, 4), advance 11 (Scenario.source [0; 1; 0; 2; 3; 2; 9; 6; 0; 0; 5])).
Proof. vm_compute. reflexivity. Qed.

Lemma warp_sample_ratings_witness :
  offsets_ok Scenario.indptr /\
  warp_sample 5 Scenario.U Scenario.V Scenario.vals Scenario.indices Scenario.indptr
      5%float 3 (Scenario.source [0; 1; 0; 2; 3; 2; 9; 6; 0; 0; 5])
    = (Done (0, 2, 5, 1, 4), advance 11 (Scenario.source [0; 1; 0; 2; 3; 2; 9; 6; 0; 0; 5])) /\
  exists ix vi,
    rated_at Scenario.vals Scenario.indices Scenario.indptr 0 ix 2 vi /\
    f_leb 5%float vi = true /\
    (unique_row Scenario.indices Scenario.indptr 0 ->
     rating Scenario.vals Scenario.indices Scenario.indptr 0 2 vi) /\
    (unrated Scenario.indices Scenario.indptr 0 5 \/
     exists vj, rating Scenario.vals Scenario.indices Scenario.indptr 0 5 vj /\
       f_ltb vj vi = true).
Proof.
  split; [exact Scenario_offsets_ok | split; [exact Scenario_run | ]].
  exact (warp_sample_ratings 5 Scenario.U Scenario.V Scenario.vals Scenario.indices
           Scenario.indptr 5%float 3 (Scenario.source [0; 1; 0; 2; 3; 2; 9; 6; 0; 0; 5])
           (advance 11 (Scenario.source [0; 1; 0; 2; 3; 2; 9; 6; 0; 0; 5])) 0 2 5 1 4
           Scenario_offsets_ok Scenario_run).
Defined.

(** The claim as it was stated fails on a row that repeats a column index:
    with item 2 rated 1 at position 0 and 5 at position 1, the positive
    example is item 2 at position 1 and the candidate 2 is accepted, its
    first entry being rated 1. The negative item is the positive item: it is
    among the user's column indices, and whatever rating [r] item 2 is taken
    to have, [r < r] does not hold. *)
Lemma repeated_index_returns_positive :
  warp_sample 5 Duplicates.U Duplicates.V Duplicates.vals Duplicates.indices
      Duplicates.indptr 5%float 3 (Scenario.source [0; 1; 2])
    = (Done (0, 2, 2, 1, 1), advance 3 (Scenario.source [0; 1; 2])) /\
  offsets_ok Duplicates.indptr /\
  ~ unrated Duplicates.indices Duplicates.indptr 0 2 /\
  (forall r : float, f_ltb r r = false).
Proof.
  split; [vm_compute; reflexivity | split; [ | split]].
  - unfold offsets_ok, Duplicates.indptr. repeat constructor; vm_compute; congruence.
  - intros (b & e & (_ & Gb & Ge) & A).
    inversion Gb; subst b. inversion Ge; subst e.
    apply (A 0); [lia | reflexivity].
  - exact binary64_ltb_irrefl.
Qed.

Lemma warp_sample_distinct_witness :
  (forall x : float, f_ltb x x = false) /\
  offsets_ok Scenario.indptr /\
  unique_row Scenario.indices Scenario.indptr 0 /\
  warp_sample 5 Scenario.U Scenario.V Scenario.vals Scenario.indices Scenario.indptr
      5%float 3 (Scenario.source [0; 1; 0; 2; 3; 2; 9; 6; 0; 0; 5])
    = (Done (0, 2, 5, 1, 4), advance 11 (Scenario.source [0; 1; 0; 2; 3; 2; 9; 6; 0; 0; 5])) /\
  5 <> 2.
Proof.
  split; [exact binary64_ltb_irrefl | ].
  split; [exact Scenario_offsets_ok | ].
  split; [exact Scenario_unique_row | ].
  split; [exact Scenario_run | ].
  exact (warp_sample_distinct 5 Scenario.U Scenario.V Scenario.vals Scenario.indices
           Scenario.indptr 5%float 3 (Scenario.source [0; 1; 0; 2; 3; 2; 9; 6; 0; 0; 5])
           (advance 11 (Scenario.source [0; 1; 0; 2; 3; 2; 9; 6; 0; 0; 5])) 0 2 5 1 4
           binary64_ltb_irrefl Scenario_offsets_ok Scenario_unique_row Scenario_run).
Defined.

Lemma warp_sample_counts_witness :
  warp_sample 5 Scenario.U Scenario.V Scenario.vals Scenario.indices Scenario.indptr
      5%float 3 (Scenario.source [0; 1; 0; 2; 3; 2; 9; 6; 0; 0; 5])
    = (Done (0, 2, 5, 1, 4), advance 11 (Scenario.source [0; 1; 0; 2; 3; 2; 9; 6; 0; 0; 5])) /\
  0 <= 5 < len Scenario.V /\
  0 <= 1 < UINT_MOD /\
  (3 < UINT_MOD -> 1 <= 1 <= 3 - 1) /\
  exists (m : nat) (s0 s1 : rng) (ix b e : Z),
    discarded 5 Scenario.U Scenario.V Scenario.vals Scenario.indices Scenario.indptr
      5%float 3 (to_uint (len Scenario.U)) m
      (Scenario.source [0; 1; 0; 2; 3; 2; 9; 6; 0; 0; 5]) s0 /\
    sample_positive_example 5 5%float (to_uint (len Scenario.U)) Scenario.vals
        Scenario.indices Scenario.indptr s0
      = (Done (0, ix, 2), s1) /\
    buf_get Scenario.indptr 0 = Done b /\ buf_get Scenario.indptr (to_uint (0 + 1)) = Done e /\
    sample_violating_negative_example 5 Scenario.U Scenario.V Scenario.vals Scenario.indices
        b e 0 ix 2 3 s1
      = (Done (5, 1), advance 11 (Scenario.source [0; 1; 0; 2; 3; 2; 9; 6; 0; 0; 5])) /\
    4 = to_uint (Z.of_nat m * 3 + 1) /\
    (Z.of_nat m * 3 + 1 < UINT_MOD -> 4 = Z.of_nat m * 3 + 1 /\ 1 <= 4).
Proof.
  split; [exact Scenario_run | ].
  exact (warp_sample_counts 5 Scenario.U Scenario.V Scenario.vals Scenario.indices
           Scenario.indptr 5%float 3 (Scenario.source [0; 1; 0; 2; 3; 2; 9; 6; 0; 0; 5])
           (advance 11 (Scenario.source [0; 1; 0; 2; 3; 2; 9; 6; 0; 0; 5])) 0 2 5 1 4
           Scenario_run).
Defined.

(** The scenario of the specification: against the positive item 2 (rated
    5.0, at position 0), [sample_negative_example] returns neither item 2
    nor item 9 (rated 5.0 too), whatever the random source yields. *)
Lemma Scenario_negatives (fuel : nat) (s s' : rng) (j : Z) :
  sample_negative_example fuel 10 Scenario.vals Scenario.indices 0 3 0 s = (Done j, s') ->
  0 <= j < 10 /\ j <> 2 /\ j <> 9.
Proof.
  intros E. apply sample_negative_example_Done in E.
  destruct E as (_ & R & B & C). split; [lia | ].
  change (Z.max 0 3) with 3 in C.
  assert (K : forall jx, 0 <= jx < 3 ->
                item_at Scenario.indices jx = Some j -> (j = 2 \/ j = 9) ->
                forall vj, value_at Scenario.vals jx = Some vj -> f_ltb vj 5%float = false).
  { intros jx Rj I Hj vj Vj.
    assert (Cj : jx = 0 \/ jx = 1 \/ jx = 2) by lia.
    destruct Cj as [-> | [-> | ->]]; vm_compute in I, Vj;
      inversion I; subst j; inversion Vj; subst vj;
      destruct Hj as [Hj | Hj]; try discriminate Hj; reflexivity. }
  assert (P : j = 2 \/ j = 9 -> False).
  { intros Hj. destruct C as [A | (jx & vj & vi & (Rj & I & _) & Vj & Vi & Lt)].
    - destruct Hj as [-> | ->]; [apply (A 0) | apply (A 2)]; try lia; reflexivity.
    - vm_compute in Vi. inversion Vi; subst vi.
      rewrite (K jx Rj I Hj vj Vj) in Lt. discriminate Lt. }
  split; intros ->; apply P; auto.
Qed.

(** ** The bounded search for a violating negative *)

(** C3, as amended. With [r] the margin reference [U[u].dot(V[i])]
    rounded to single precision, as the C [float] variable holds it, and
    [max_trials] from 1 up and below [2^32],
    [sample_violating_negative_example] stops after at most
    [max_trials - 1] candidate draws; when the first candidates [js0] do not
    satisfy [r - U[u].dot(V[j]) < 1] and the next one, [j], drawn at trial
    [t = length js0 + 1 <= max_trials - 1], does, it returns [(j, t)]; when
    none of [max_trials - 1] candidates does, it returns [(-1, max_trials)].
    A [max_trials] of [2^63] or more raises [OverflowError] once [r] is
    computed, before any draw. *)
Theorem sample_violating_negative_example_trials {T : Type} `{Floating T} (fuel : nat)
    (U V : matrix T) (vals : list T) (indices : list Z) (begin end_ u ix i max_trials : Z)
    (d : T) (s : rng) :
  score U V u i = Done d ->
  (1 <= max_trials < UINT_MOD ->
   (exists m : nat, Z.of_nat m <= max_trials - 1 /\
      snd (sample_violating_negative_example fuel U V vals indices begin end_ u ix i
             max_trials s)
        = snd (candidates fuel (to_uint (len V)) vals indices begin end_ ix m s)) /\
   (forall (js0 : list Z) (j : Z) (s' : rng),
      Z.of_nat (S (length js0)) <= max_trials - 1 ->
      candidates fuel (to_uint (len V)) vals indices begin end_ ix (S (length js0)) s
        = (Done (js0 ++ [j]), s') ->
      Forall (fun c => violates U V u (f_single d) c = Done false) js0 ->
      violates U V u (f_single d) j = Done true ->
      sample_violating_negative_example fuel U V vals indices begin end_ u ix i max_trials s
        = (Done (j, Z.of_nat (S (length js0))), s')) /\
   (forall (js : list Z) (s' : rng),
      candidates fuel (to_uint (len V)) vals indices begin end_ ix
          (Z.to_nat (max_trials - 1)) s
        = (Done js, s') ->
      Forall (fun c => violates U V u (f_single d) c = Done false) js ->
      sample_violating_negative_example fuel U V vals indices begin end_ u ix i max_trials s
        = (Done (-1, max_trials), s'))) /\
  (LONG_MAX < max_trials ->
   sample_violating_negative_example fuel U V vals indices begin end_ u ix i max_trials s
     = (Raised OverflowError, s)).
Proof.
  intros D. split.
  - intros [P Q].
    rewrite (sample_violating_negative_example_unfold fuel U V vals indices begin end_ u ix i
               max_trials d s D) by (rewrite LONG_MAX_eq; lia).
    split; [ | split].
    + destruct (trials_draws fuel U V vals indices begin end_ u ix (f_single d) max_trials
                  (Z.to_nat (max_trials - 1)) 1 s) as (m & Lm & Em).
      exists m. split; [lia | exact Em].
    + intros js0 j s' Lt Cs Fa Vj.
      rewrite (trials_first_hit fuel U V vals indices begin end_ u ix (f_single d) max_trials
                 js0 j (Z.to_nat (max_trials - 1)) 1 s s' Cs Fa Vj) by lia.
      replace (1 + Z.of_nat (length js0)) with (Z.of_nat (S (length js0))) by lia.
      reflexivity.
    + intros js s' Cs Fa.
      exact (trials_all_miss fuel U V vals indices begin end_ u ix (f_single d) max_trials
               (Z.to_nat (max_trials - 1)) 1 s s' js Cs Fa).
  - intros L. apply sample_violating_negative_example_overflow with (d := d); assumption.
Qed.

Lemma sample_violating_negative_example_trials_witness :
  score Scenario.U Scenario.V 0 2 = Done 1%float /\
  1 <= 3 < UINT_MOD /\
  candidates 5 (to_uint (len Scenario.V)) Scenario.vals Scenario.indices 0 3 0 2
      (Scenario.source [3; 2; 9; 5])
    = (Done [3; 5], advance 4 (Scenario.source [3; 2; 9; 5])) /\
  violates Scenario.U Scenario.V 0 (f_single 1%float) 3 = Done false /\
  violates Scenario.U Scenario.V 0 (f_single 1%float) 5 = Done true /\
  sample_violating_negative_example 5 Scenario.U Scenario.V Scenario.vals Scenario.indices
      0 3 0 0 2 3 (Scenario.source [3; 2; 9; 5])
    = (Done (5, 2), advance 4 (Scenario.source [3; 2; 9; 5])).
Proof.
  split; [vm_compute; reflexivity | ].
  split; [rewrite UINT_MOD_eq; lia | ].
  split; [vm_compute; reflexivity | ].
  split; [vm_compute; reflexivity | ].
  split; [vm_compute; reflexivity | ].
  refine (proj1 (proj2 (proj1 (sample_violating_negative_example_trials 5 Scenario.U
            Scenario.V Scenario.vals Scenario.indices 0 3 0 0 2 3 1%float
            (Scenario.source [3; 2; 9; 5]) _) _)) [3] 5
            (advance 4 (Scenario.source [3; 2; 9; 5])) _ _ _ _).
  - vm_compute. reflexivity.
  - rewrite UINT_MOD_eq. lia.
  - vm_compute. intros E. discriminate E.
  - vm_compute. reflexivity.
  - constructor; [vm_compute; reflexivity | constructor].
  - vm_compute. reflexivity.
Defined.

(** C4. With [max_trials = 1], [sample_violating_negative_example] leaves
    the random source as it found it (no candidate is drawn) and reads the
    factor matrices in the margin reference [U[u].dot(V[i])] alone: its
    outcome is [(-1, 1)] as soon as that reference can be computed, whatever
    the fuel, the ratings and the rest of the matrices. *)
Theorem sample_violating_negative_example_single_trial {T : Type} `{Floating T} (fuel : nat)
    (U V : matrix T) (vals : list T) (indices : list Z) (begin end_ u ix i : Z) (s : rng) :
  sample_violating_negative_example fuel U V vals indices begin end_ u ix i 1 s
    = (obind (score U V u i) (fun _ => Done (-1, 1)), s) /\
  (forall d : T, score U V u i = Done d ->
     sample_violating_negative_example fuel U V vals indices begin end_ u ix i 1 s
       = (Done (-1, 1), s)).
Proof.
  assert (E : sample_violating_negative_example fuel U V vals indices begin end_ u ix i 1 s
              = (obind (score U V u i) (fun _ => Done (-1, 1)), s)).
  { unfold sample_violating_negative_example, bind, lift.
    destruct (score U V u i) as [d | ex | | ]; reflexivity. }
  split; [exact E | ].
  intros d D. rewrite E, D. reflexivity.
Qed.

(** ** The draws of user and item indices *)

Lemma np_get_nil {A : Type} (k : Z) : np_get (@nil A) k = Raised IndexError.
Proof. unfold np_get. destruct (np_pos (len []) k) as [p | ]; reflexivity. Qed.

Lemma np_get_cases {A : Type} (a : list A) (k : Z) :
  (exists x, np_get a k = Done x) \/ np_get a k = Raised IndexError.
Proof.
  unfold np_get. destruct (np_pos (len a) k) as [p | ]; [ | right; reflexivity].
  destruct (a !! p) as [x | ]; [left; exists x | right]; reflexivity.
Qed.

Lemma score_no_items {T : Type} `{Floating T} (U : matrix T) (u i : Z) :
  score U [] u i = Raised IndexError.
Proof.
  unfold score. destruct (np_get_cases U u) as [[a ->] | ->]; simpl.
  - rewrite np_get_nil. reflexivity.
  - reflexivity.
Qed.

Section Draws.
Context {T : Type} `{Floating T}.

Lemma rand_mod_in_range (n : Z) (s : rng) :
  1 <= n -> exists v, rand_mod n s = (Done v, advance 1 s) /\ 0 <= v < n.
Proof.
  intros P. exists (draw s mod n).
  split; [apply rand_mod_pos; lia | apply Z.mod_pos_bound; lia].
Qed.

Lemma sample_violating_negative_example_no_items (fuel : nat) (U : matrix T) (vals : list T)
    (indices : list Z) (b e u ix i max_trials : Z) (s : rng) :
  sample_violating_negative_example fuel U [] vals indices b e u ix i max_trials s
    = (Raised IndexError, s).
Proof.
  unfold sample_violating_negative_example, bind, lift.
  rewrite score_no_items. reflexivity.
Qed.

Lemma sample_positive_example_in_range (fuel : nat) (positive_thresh : T) (num_users : Z)
    (vals : list T) (indices indptr : list Z) (s s' : rng) (u ix i : Z) :
  1 <= num_users ->
  sample_positive_example fuel positive_thresh num_users vals indices indptr s
    = (Done (u, ix, i), s') ->
  0 <= u < num_users.
Proof.
  intros P E. apply sample_positive_example_Done in E. destruct E as (_ & R & B & _). lia.
Qed.

Lemma sample_negative_example_in_range (fuel : nat) (num_items : Z) (vals : list T)
    (indices : list Z) (b e ix : Z) (s s' : rng) (j : Z) :
  1 <= num_items ->
  sample_negative_example fuel num_items vals indices b e ix s = (Done j, s') ->
  0 <= j < num_items.
Proof.
  intros P E. apply sample_negative_example_Done in E. destruct E as (_ & R & B & _). lia.
Qed.

Lemma warp_sample_in_range (fuel : nat) (U V : matrix T) (vals : list T)
    (indices indptr : list Z) (positive_thresh : T) (max_trials : Z) (s s' : rng)
    (u i j N tot_trials : Z) :
  warp_sample fuel U V vals indices indptr positive_thresh max_trials s
    = (Done (u, i, j, N, tot_trials), s') ->
  0 <= u < len U /\ 0 <= j < len V.
Proof.
  intros E. unfold warp_sample in E. apply warp_loop_Done in E.
  destruct E as ((N0 & B) & _ & J & _).
  pose proof (to_uint_range (len U)) as R.
  assert (L : to_uint (len U) <= len U).
  { unfold to_uint. apply Z.mod_le; [unfold len; lia | rewrite UINT_MOD_eq; lia]. }
  split; [lia | exact J].
Qed.

End Draws.

(** C10, as amended. [rand() % num_users] and [rand() % num_items] are
    Python's modulo, their right operands being Python objects: with a
    count of zero the draw raises [ZeroDivisionError], in
    [sample_positive_example], in [sample_negative_example] and in
    [warp_sample] on an empty [U]; with no item at all
    [sample_violating_negative_example] raises [IndexError] on [V[i]] before
    any draw. With a count of at least one, every draw succeeds and lies in
    [0 .. count-1], and so do the [u] and [j] that the samplers return. *)
Theorem draws_in_range {T : Type} `{Floating T} :
  (forall (n : Z) (s : rng), 1 <= n ->
     exists v, rand_mod n s = (Done v, advance 1 s) /\ 0 <= v < n) /\
  (forall (fuel : nat) (positive_thresh : T) (vals : list T) (indices indptr : list Z) (s : rng),
     sample_positive_example (S fuel) positive_thresh 0 vals indices indptr s
       = (Raised ZeroDivisionError, advance 1 s)) /\
  (forall (fuel : nat) (vals : list T) (indices : list Z) (begin end_ ix : Z) (s : rng),
     sample_negative_example (S fuel) 0 vals indices begin end_ ix s
       = (Raised ZeroDivisionError, advance 1 s)) /\
  (forall (fuel : nat) (V : matrix T) (vals : list T) (indices indptr : list Z)
          (positive_thresh : T) (max_trials : Z) (s : rng),
     warp_sample (S fuel) [] V vals indices indptr positive_thresh max_trials s
       = (Raised ZeroDivisionError, advance 1 s)) /\
  (forall (fuel : nat) (U : matrix T) (vals : list T) (indices : list Z)
          (begin end_ u ix i max_trials : Z) (s : rng),
     sample_violating_negative_example fuel U [] vals indices begin end_ u ix i max_trials s
       = (Raised IndexError, s)) /\
  (forall (fuel : nat) (positive_thresh : T) (num_users : Z) (vals : list T)
          (indices indptr : list Z) (s s' : rng) (u ix i : Z),
     1 <= num_users ->
     sample_positive_example fuel positive_thresh num_users vals indices indptr s
       = (Done (u, ix, i), s') ->
     0 <= u < num_users) /\
  (forall (fuel : nat) (num_items : Z) (vals : list T) (indices : list Z)
          (begin end_ ix : Z) (s s' : rng) (j : Z),
     1 <= num_items ->
     sample_negative_example fuel num_items vals indices begin end_ ix s = (Done j, s') ->
     0 <= j < num_items) /\
  (forall (fuel : nat) (U V : matrix T) (vals : list T) (indices indptr : list Z)
          (positive_thresh : T) (max_trials : Z) (s s' : rng) (u i j N tot_trials : Z),
     warp_sample fuel U V vals indices indptr positive_thresh max_trials s
       = (Done (u, i, j, N, tot_trials), s') ->
     0 <= u < len U /\ 0 <= j < len V).
Proof.
  split; [exact rand_mod_in_range | ].
  split; [reflexivity | ].
  split; [reflexivity | ].
  split; [reflexivity | ].
  split; [exact sample_violating_negative_example_no_items | ].
  split; [exact sample_positive_example_in_range | ].
  split; [exact sample_negative_example_in_range | ].
  exact warp_sample_in_range.
Qed.

(** The claim C10 as it was stated fails: on a model with no user the draw
    of [warp_sample] ends in a Python exception, not in undefined behaviour. *)
Lemma zero_users_raises :
  fst (warp_sample 5 [] Scenario.V Scenario.vals Scenario.indices Scenario.indptr
         5%float 3 (Scenario.source [7]))
    = Raised ZeroDivisionError /\
  fst (warp_sample 5 [] Scenario.V Scenario.vals Scenario.indices Scenario.indptr
         5%float 3 (Scenario.source [7]))
    <> Undefined.
Proof. split; [reflexivity | intros E; discriminate E]. Qed.

(** *** A run whose counter wraps around *)

Lemma Overflow_draw (s : rng) :
  tape s = Overflow.draws ->
  draw s = if pos s =? 4294967299 then 2 else 1.
Proof.
  intros Et. unfold draw. rewrite Et. unfold Overflow.draws.
  destruct (pos s =? 4294967299); reflexivity.
Qed.

Lemma Overflow_candidate (s : rng) :
  tape s = Overflow.draws ->
  sample_negative_example 2 (to_uint (len Overflow.V)) Overflow.vals Overflow.indices 0 1 0 s
    = (Done (if pos s =? 4294967299 then 2 else 1), advance 1 s).
Proof.
  intros Et.
  change (to_uint (len Overflow.V)) with 3.
  pose proof (sample_negative_example_unrated 1 3 Overflow.vals Overflow.indices 0 1 0 s
                ltac:(lia)) as E.
  rewrite (Overflow_draw s Et) in E.
  destruct (pos s =? 4294967299); apply E; reflexivity.
Qed.

Lemma Overflow_positive (s : rng) :
  sample_positive_example 2 5%float 1 Overflow.vals Overflow.indices Overflow.indptr s
    = (Done (0, 0, 0), advance 2 s).
Proof.
  pose proof (sample_positive_example_accept 1 5%float 1 Overflow.vals Overflow.indices
                Overflow.indptr s 0 1 0 5%float) as E.
  cbv zeta in E. rewrite Z.mod_1_r in E.
  change (to_uint (0 + 1)) with 1 in E.
  change (to_uint (to_uint 1 - to_uint 0)) with 1 in E.
  rewrite Z.mod_1_r in E.
  change (to_uint (to_uint 0 + 0)) with 0 in E.
  change (to_uint 0) with 0 in E.
  rewrite advance_advance in E.
  apply E; reflexivity.
Qed.

Lemma Overflow_trials_miss (n : nat) (N : Z) (s : rng) :
  tape s = Overflow.draws ->
  pos s + Z.of_nat n <= 4294967299 ->
  trials 2 Overflow.U Overflow.V Overflow.vals Overflow.indices 0 1 0 0 3%float
      Overflow.max_trials n N s
    = (Done (-1, Overflow.max_trials), advance (Z.of_nat n) s).
Proof.
  revert N s. induction n as [ | n IH]; intros N s Et Lp.
  - rewrite trials_exhausted. change (Z.of_nat 0) with 0. rewrite advance_0. reflexivity.
  - pose proof (Overflow_candidate s Et) as D.
    replace (pos s =? 4294967299) with false in D by (symmetry; apply Z.eqb_neq; lia).
    rewrite (trials_miss _ _ _ _ _ _ _ _ _ _ _ _ _ _ _ _ D) by reflexivity.
    rewrite IH; [ | exact Et | rewrite pos_advance; lia].
    rewrite advance_advance. f_equal. f_equal. lia.
Qed.

Lemma Overflow_first_attempt (s : rng) :
  tape s = Overflow.draws -> pos s = 2 ->
  sample_violating_negative_example 2 Overflow.U Overflow.V Overflow.vals
      Overflow.indices 0 1 0 0 0 Overflow.max_trials s
    = (Done (-1, Overflow.max_trials), advance 4294967294 s).
Proof.
  intros Et Ep.
  rewrite (sample_violating_negative_example_unfold _ _ _ _ _ _ _ _ _ _ _ 3%float)
    by (try reflexivity; unfold Overflow.max_trials; rewrite LONG_MAX_eq, UINT_MOD_eq; lia).
  change (f_single 3%float) with 3%float.
  rewrite Overflow_trials_miss.
  - replace (Z.of_nat (Z.to_nat (Overflow.max_trials - 1))) with 4294967294
      by (unfold Overflow.max_trials; lia).
    reflexivity.
  - exact Et.
  - rewrite Ep. unfold Overflow.max_trials. lia.
Qed.

Lemma Overflow_second_attempt (s : rng) :
  tape s = Overflow.draws -> pos s = 4294967298 ->
  sample_violating_negative_example 2 Overflow.U Overflow.V Overflow.vals
      Overflow.indices 0 1 0 0 0 Overflow.max_trials s
    = (Done (2, 2), advance 2 s).
Proof.
  intros Et Ep.
  rewrite (sample_violating_negative_example_unfold _ _ _ _ _ _ _ _ _ _ _ 3%float)
    by (try reflexivity; unfold Overflow.max_trials; rewrite LONG_MAX_eq, UINT_MOD_eq; lia).
  change (f_single 3%float) with 3%float.
  replace (Z.to_nat (Overflow.max_trials - 1))
    with (S (S (Z.to_nat (Overflow.max_trials - 3)))) by (unfold Overflow.max_trials; lia).
  pose proof (Overflow_candidate s Et) as D1.
  replace (pos s =? 4294967299) with false in D1 by (symmetry; apply Z.eqb_neq; lia).
  rewrite (trials_miss _ _ _ _ _ _ _ _ _ _ _ _ _ _ _ _ D1) by reflexivity.
  pose proof (Overflow_candidate (advance 1 s) Et) as D2.
  replace (pos (advance 1 s) =? 4294967299) with true in D2
    by (symmetry; apply Z.eqb_eq; rewrite pos_advance; lia).
  rewrite (trials_hit _ _ _ _ _ _ _ _ _ _ _ _ _ _ _ _ D2) by reflexivity.
  rewrite advance_advance. reflexivity.
Qed.

Lemma Overflow_run :
  fst (warp_sample 2 Overflow.U Overflow.V Overflow.vals Overflow.indices Overflow.indptr
         5%float Overflow.max_trials Overflow.source)
    = Done (0, 0, 2, 2, 1).
Proof.
  set (s1 := advance 2 Overflow.source).
  set (s2 := advance 4294967294 s1).
  set (s3 := advance 2 s2).
  unfold warp_sample. change (to_uint (len Overflow.U)) with 1.
  rewrite (warp_loop_retry 2 1 Overflow.U Overflow.V Overflow.vals Overflow.indices
             Overflow.indptr 5%float Overflow.max_trials 1 0 Overflow.source s1 s2
             0 0 0 0 1 (Overflow_positive Overflow.source) eq_refl eq_refl
             (Overflow_first_attempt s1 eq_refl eq_refl)).
  - rewrite (warp_loop_return 2 0 Overflow.U Overflow.V Overflow.vals Overflow.indices
               Overflow.indptr 5%float Overflow.max_trials 1
               (to_uint (0 + Overflow.max_trials)) s2 s3 (advance 2 s3)
               0 0 0 0 1 2 2 (Overflow_positive s2) eq_refl eq_refl
               (Overflow_second_attempt s3 eq_refl eq_refl)).
    + reflexivity.
    + rewrite INT_MAX_eq. lia.
    + rewrite UINT_MOD_eq. lia.
  - unfold Overflow.max_trials. rewrite UINT_MOD_eq. lia.
Qed.

(** *** A run whose trial number wraps around *)

Lemma Wrap_fuel : Wrap.fuel = S (Z.to_nat 4294967295).
Proof. unfold Wrap.fuel. lia. Qed.

Lemma Wrap_candidate (f : nat) (s : rng) :
  tape s = Wrap.draws ->
  sample_negative_example (S f) (to_uint (len Overflow.V)) Overflow.vals Overflow.indices
      0 1 0 s
    = (Done (if pos s =? 4294967297 then 2 else 1), advance 1 s).
Proof.
  intros Et.
  change (to_uint (len Overflow.V)) with 3.
  pose proof (sample_negative_example_unrated f 3 Overflow.vals Overflow.indices 0 1 0 s
                ltac:(lia)) as E.
  assert (Ed : draw s = if pos s =? 4294967297 then 2 else 1).
  { unfold draw. rewrite Et. unfold Wrap.draws.
    destruct (pos s =? 4294967297); reflexivity. }
  rewrite Ed in E.
  destruct (pos s =? 4294967297); apply E; reflexivity.
Qed.

Lemma Wrap_positive (f : nat) (s : rng) :
  sample_positive_example (S f) 5%float 1 Overflow.vals Overflow.indices Overflow.indptr s
    = (Done (0, 0, 0), advance 2 s).
Proof.
  pose proof (sample_positive_example_accept f 5%float 1 Overflow.vals Overflow.indices
                Overflow.indptr s 0 1 0 5%float) as E.
  cbv zeta in E. rewrite Z.mod_1_r in E.
  change (to_uint (0 + 1)) with 1 in E.
  change (to_uint (to_uint 1 - to_uint 0)) with 1 in E.
  rewrite Z.mod_1_r in E.
  change (to_uint (to_uint 0 + 0)) with 0 in E.
  change (to_uint 0) with 0 in E.
  rewrite advance_advance in E.
  apply E; reflexivity.
Qed.

(** As long as the source yields 1, the candidates miss and the trial
    number goes up, modulo [2^32]. *)
Lemma Wrap_trials_miss (f n k : nat) (N : Z) (s : rng) :
  tape s = Wrap.draws ->
  pos s + Z.of_nat n <= 4294967297 ->
  0 <= N < UINT_MOD ->
  trials_unbounded (S f) Overflow.U Overflow.V Overflow.vals Overflow.indices 0 1 0 0
      3%float (n + k) N s
    = trials_unbounded (S f) Overflow.U Overflow.V Overflow.vals Overflow.indices 0 1 0 0
        3%float k (to_uint (N + Z.of_nat n)) (advance (Z.of_nat n) s).
Proof.
  revert N s. induction n as [ | n IH]; intros N s Et Lp RN.
  - change (Z.of_nat 0) with 0. rewrite advance_0, Z.add_0_r, to_uint_small by exact RN.
    reflexivity.
  - pose proof (Wrap_candidate f s Et) as D.
    replace (pos s =? 4294967297) with false in D by (symmetry; apply Z.eqb_neq; lia).
    change (S n + k)%nat with (S (n + k)).
    rewrite (trials_unbounded_miss _ _ _ _ _ _ _ _ _ _ _ _ _ _ _ D) by reflexivity.
    rewrite (IH (to_uint (N + 1)) (advance 1 s) Et ltac:(rewrite pos_advance; lia)
               (to_uint_range (N + 1))).
    rewrite advance_advance, to_uint_add_l.
    replace (N + 1 + Z.of_nat n) with (N + Z.of_nat (S n)) by lia.
    replace (1 + Z.of_nat n) with (Z.of_nat (S n)) by lia. reflexivity.
Qed.

(** The search that starts at position 2 of the source finds item 2 at its
    trial [2^32], and reports the trial number 0. *)
Lemma Wrap_search (s : rng) :
  tape s = Wrap.draws -> pos s = 2 ->
  sample_violating_negative_example Wrap.fuel Overflow.U Overflow.V Overflow.vals
      Overflow.indices 0 1 0 0 0 Wrap.max_trials s
    = (Done (2, 0), advance 4294967296 s).
Proof.
  intros Et Ep.
  rewrite (sample_violating_negative_example_unbounded _ _ _ _ _ _ _ _ _ _ _ 3%float)
    by (try reflexivity; unfold Wrap.max_trials; rewrite LONG_MAX_eq, UINT_MOD_eq; lia).
  change (f_single 3%float) with 3%float.
  rewrite Wrap_fuel. set (g := Z.to_nat 4294967295).
  assert (Eg : Z.of_nat g = 4294967295) by (unfold g; lia).
  replace (S g) with (g + 1)%nat at 2 by lia.
  rewrite (Wrap_trials_miss g g 1 1 s Et ltac:(lia) ltac:(rewrite UINT_MOD_eq; lia)), Eg.
  pose proof (Wrap_candidate g (advance 4294967295 s) Et) as D.
  replace (pos (advance 4294967295 s) =? 4294967297) with true in D
    by (symmetry; apply Z.eqb_eq; rewrite pos_advance; lia).
  rewrite (trials_unbounded_hit _ _ _ _ _ _ _ _ _ _ _ _ _ _ _ D) by reflexivity.
  rewrite advance_advance. reflexivity.
Qed.

(** The claim C3 as it was stated fails. With [r] in double precision: the
    factor [1 - 2^-30] gives a margin reference below 1, so that the first
    candidate, item 1 with score 0, satisfies [d - 0 < 1] on doubles; the C
    [float] [r] is 1, the test [r - 0 < 1] fails at both trials and the
    search gives up. With a [max_trials] of [2^63]: the call raises. With a
    [max_trials] of [2^32 + 2]: the search that finds its item at trial
    [2^32] reports the trial number 0. *)
Lemma margin_reference_is_single :
  (score Margin.U Margin.V 0 0 = Done 0x1.fffffff8p-1%float /\
   candidates 5 (to_uint (len Margin.V)) Margin.vals Margin.indices 0 1 0 2 Margin.source
     = (Done [1; 1], advance 2 Margin.source) /\
   score Margin.U Margin.V 0 1 = Done 0%float /\
   f_ltb (f_sub 0x1.fffffff8p-1%float 0%float) f_one = true /\
   sample_violating_negative_example 5 Margin.U Margin.V Margin.vals Margin.indices
       0 1 0 0 0 3 Margin.source
     = (Done (-1, 3), advance 2 Margin.source)) /\
  sample_violating_negative_example 5 Margin.U Margin.V Margin.vals Margin.indices
      0 1 0 0 0 9223372036854775808 Margin.source
    = (Raised OverflowError, Margin.source) /\
  sample_violating_negative_example Wrap.fuel Overflow.U Overflow.V Overflow.vals
      Overflow.indices 0 1 0 0 0 Wrap.max_trials (advance 2 Wrap.source)
    = (Done (2, 0), advance 4294967296 (advance 2 Wrap.source)).
Proof.
  split; [repeat split; vm_compute; reflexivity | ].
  split; [vm_compute; reflexivity | ].
  exact (Wrap_search (advance 2 Wrap.source) eq_refl eq_refl).
Qed.

Lemma Wrap_run :
  fst (warp_sample Wrap.fuel Overflow.U Overflow.V Overflow.vals Overflow.indices
         Overflow.indptr 5%float Wrap.max_trials Wrap.source)
    = Done (0, 0, 2, 0, 0).
Proof.
  set (s1 := advance 2 Wrap.source).
  pose proof (Wrap_positive (Z.to_nat 4294967295) Wrap.source) as P.
  rewrite <- Wrap_fuel in P. fold s1 in P.
  pose proof (warp_loop_return Wrap.fuel (Z.to_nat 4294967295) Overflow.U Overflow.V
                Overflow.vals Overflow.indices Overflow.indptr 5%float Wrap.max_trials 1 0
                Wrap.source s1 (advance 4294967296 s1) 0 0 0 0 1 2 0 P eq_refl eq_refl
                (Wrap_search s1 eq_refl eq_refl)
                ltac:(rewrite INT_MAX_eq; lia) ltac:(rewrite UINT_MOD_eq; lia)) as R.
  rewrite <- Wrap_fuel in R.
  unfold warp_sample. change (to_uint (len Overflow.U)) with 1.
  rewrite R. reflexivity.
Qed.

(** The claim C6 as it was stated fails: after one discarded attempt of
    [2^32 - 1] trials and a successful one of 2 trials, [warp_sample]
    returns [N = 2] with [tot_trials = 1], which is neither the sum of the
    trial counts nor at least [N]. And with a budget of [2^32 + 2] trials,
    an attempt that succeeds at its trial [2^32] returns [N = 0]. *)
Lemma counter_wraps_around :
  (exists N tot_trials : Z,
     fst (warp_sample 2 Overflow.U Overflow.V Overflow.vals Overflow.indices Overflow.indptr
            5%float Overflow.max_trials Overflow.source)
       = Done (0, 0, 2, N, tot_trials) /\
     tot_trials <> Overflow.max_trials + N /\ tot_trials < N) /\
  (exists N tot_trials : Z,
     fst (warp_sample Wrap.fuel Overflow.U Overflow.V Overflow.vals Overflow.indices
            Overflow.indptr 5%float Wrap.max_trials Wrap.source)
       = Done (0, 0, 2, N, tot_trials) /\
     ~ 1 <= N <= Wrap.max_trials - 1).
Proof.
  split.
  - exists 2, 1. split; [exact Overflow_run | ].
    unfold Overflow.max_trials. lia.
  - exists 0, 0. split; [exact Wrap_run | lia].
Qed.

(** ** The SGD update *)

Section UpdateFacts.
Context {T : Type} `{Floating T}.

Lemma frame_refl (s : store T) : frame s s.
Proof. unfold frame. auto. Qed.

Lemma designated_frame (s s' : store T) :
  frame s s' -> forall p, designated s' p <-> designated s p.
Proof.
  intros (Er & _ & El & _) p. unfold designated, len. rewrite Er, El. tauto.
Qed.

Lemma frame_trans (s1 s2 s3 : store T) : frame s1 s2 -> frame s2 s3 -> frame s1 s3.
Proof.
  intros F12 F23. pose proof (designated_frame _ _ F12) as Ds.
  destruct F12 as (R12 & D12 & L12 & K12), F23 as (R23 & D23 & L23 & K23).
  split; [congruence | split; [congruence | split; [congruence | ]]].
  intros p N. rewrite K23, K12; [reflexivity | exact N | ].
  intros D. apply N. apply (proj1 (Ds p)). exact D.
Qed.

Lemma frame_insert (s : store T) (p : nat) (t : vector T) :
  designated s p ->
  frame s {| F := set_row (F s) p t; rows := rows s; delta_mem := delta_mem s |}.
Proof.
  intros D. unfold frame, set_row. simpl.
  split; [reflexivity | split; [reflexivity | split; [apply length_insert | ]]].
  intros q N. apply list_lookup_insert_ne. intros ->. exact (N D).
Qed.

Lemma put_row_frame (row : Z) (t : vector T) (s s' : store T) (o : outcome unit) :
  row ∈ rows s -> put_row row t s = (o, s') -> frame s s'.
Proof.
  intros I. unfold put_row.
  destruct (np_pos (len (F s)) row) as [p | ] eqn:P; intros E; inversion E; subst.
  - apply frame_insert. exists row. auto.
  - apply frame_refl.
Qed.

Lemma bind_rel {S A B : Type} (R : S -> S -> Prop) (c : M S A) (k : A -> M S B)
    (s s' : S) (o : outcome B) :
  (forall x y z, R x y -> R y z -> R x z) ->
  (forall o1 s1, c s = (o1, s1) -> R s s1) ->
  (forall a s1, c s = (Done a, s1) -> forall o2 s2, k a s1 = (o2, s2) -> R s1 s2) ->
  bind c k s = (o, s') -> R s s'.
Proof.
  intros Tr Hc Hk. unfold bind.
  destruct (c s) as [[a | ex | | ] s1] eqn:E.
  - intros E2. apply Tr with (y := s1); [apply (Hc _ _ eq_refl) | apply (Hk a s1 eq_refl _ _ E2)].
  - intros E2. inversion E2; subst. apply (Hc _ _ eq_refl).
  - intros E2. inversion E2; subst. apply (Hc _ _ eq_refl).
  - intros E2. inversion E2; subst. apply (Hc _ _ eq_refl).
Qed.

Lemma lift_same {S A : Type} (o o1 : outcome A) (s s1 : S) : lift o s = (o1, s1) -> s1 = s.
Proof. unfold lift. intros E. inversion E. reflexivity. Qed.

Lemma get_row_same (row : Z) (s s1 : store T) (o1 : outcome (vector T)) :
  get_row row s = (o1, s1) -> s1 = s.
Proof. unfold get_row. intros E. inversion E. reflexivity. Qed.

(** Steps of a run that leave the store as it is. *)
Ltac same_store :=
  match goal with
  | E : lift _ _ = (_, ?s1) |- frame _ ?s1 => apply lift_same in E; subst s1; apply frame_refl
  | E : get_row _ _ = (_, ?s1) |- frame _ ?s1 => apply get_row_same in E; subst s1; apply frame_refl
  | E : get _ = (_, ?s1) |- frame _ ?s1 => inversion E; subst; apply frame_refl
  | E : ret _ _ = (_, ?s1) |- frame _ ?s1 => inversion E; subst; apply frame_refl
  end.

(** The rule of [bind_rel] for [frame]. *)
Ltac frame_bind :=
  lazymatch goal with
  | |- bind _ _ _ = _ -> frame _ _ => idtac
  | |- _ => intros ? ?
  end;
  refine (bind_rel frame _ _ _ _ _ frame_trans _ _).

Lemma update_row_frame (gamma C : T) (i : Z) (s s' : store T) (o : outcome unit) :
  update_row gamma C i s = (o, s') -> frame s s'.
Proof.
  unfold update_row.
  frame_bind; [intros; same_store | ].
  intros s0 sa G. inversion G; subst s0 sa; clear G.
  frame_bind; [intros; same_store | ].
  intros row sa G. apply lift_Done in G. destruct G as [G ->].
  assert (I : row ∈ rows s).
  { apply buf_get_Done in G. destruct G as [_ G]. exact (list_elem_of_lookup_2 _ _ _ G). }
  frame_bind; [intros; same_store | ].
  intros delta sa G1. apply lift_Done in G1. destruct G1 as [G1 ->].
  frame_bind; [intros; same_store | ].
  intros t sa G2. apply get_row_same in G2. subst sa.
  frame_bind; [intros; same_store | ].
  intros t' sa G3. apply lift_Done in G3. destruct G3 as [G3 ->].
  frame_bind; [intros ob sb P; exact (put_row_frame _ _ _ _ _ I P) | ].
  intros [] sb P. pose proof (put_row_frame _ _ _ _ _ I P) as F1.
  assert (I1 : row ∈ rows sb) by (destruct F1 as (-> & _); exact I).
  frame_bind; [intros; same_store | ].
  intros x sa G4. apply get_row_same in G4. subst sa.
  frame_bind; [intros; same_store | ].
  intros n2 sa G5. apply lift_Done in G5. destruct G5 as [G5 ->].
  frame_bind; [intros; same_store | ].
  intros q sa G6. apply lift_Done in G6. destruct G6 as [G6 ->].
  destruct (f_ltb f_one (f_single q)).
  - frame_bind; [intros; same_store | ].
    intros y sa G7. apply get_row_same in G7. subst sa.
    intros oc sc P2. exact (put_row_frame _ _ _ _ _ I1 P2).
  - intros; same_store.
Qed.

Lemma for_range_frame (body : Z -> M (store T) unit) (n : nat) (i : Z) (s s' : store T)
    (o : outcome unit) :
  (forall i s o s', body i s = (o, s') -> frame s s') ->
  for_range body i n s = (o, s') -> frame s s'.
Proof.
  intros Hb. revert i s s' o. induction n as [ | n IH]; intros i s s' o.
  - simpl. intros E. inversion E. apply frame_refl.
  - cbn [for_range]. frame_bind; [intros o1 s1; apply Hb | ].
    intros [] s1 _ o2 s2. apply IH.
Qed.

Lemma apply_updates_frame (gamma C : T) (s s' : store T) (o : outcome unit) :
  apply_updates gamma C s = (o, s') -> frame s s'.
Proof.
  unfold apply_updates.
  frame_bind; [intros; same_store | ].
  intros s0 s1 G. inversion G; subst s0 s1; clear G.
  destruct (length (rows s) =? length (deltas s))%nat.
  - intros o2 s2. apply for_range_frame. intros i s1 o1 s3. apply update_row_frame.
  - intros o2 s2 E. same_store.
Qed.

Lemma np_dot_self (x : vector T) : np_dot x x = Done (dot_sum x x).
Proof. unfold np_dot. rewrite Nat.eqb_refl. reflexivity. Qed.

Lemma np_get_pos {A : Type} (a : list A) (k : Z) (p : nat) (x : A) :
  np_pos (len a) k = Some p -> a !! p = Some x -> np_get a k = Done x.
Proof. intros P L. unfold np_get. rewrite P, L. reflexivity. Qed.

(** One iteration of the loop of [apply_updates] on a row that exists:
    [x] is the row once [gamma*delta] is added, [p] the ratio of its norm to
    [C] as the C [float] variable holds it. *)
Lemma update_row_run (gamma C : T) (i : Z) (s : store T) (row : Z) (delta t x : vector T)
    (p : nat) :
  buf_get (rows s) i = Done row ->
  np_get (deltas s) i = Done delta ->
  np_pos (len (F s)) row = Some p ->
  F s !! p = Some t ->
  np_iadd t (np_scale gamma delta) = Done x ->
  f_eqb C f_zero = false ->
  update_row gamma C i s
    = (Done tt,
       {| F := set_row (F s) p
                 (if f_ltb f_one (f_single (f_div (norm x) C))
                  then np_idiv x (f_single (f_div (norm x) C)) else x);
          rows := rows s; delta_mem := delta_mem s |}).
Proof.
  intros Gr Gd P L A Cz.
  assert (Lp : (p < length (F s))%nat) by (apply lookup_lt_Some with (x := t); exact L).
  unfold update_row.
  unfold bind at 1, get at 1.
  unfold bind at 1, lift at 1. rewrite Gr.
  unfold bind at 1, lift at 1. rewrite Gd.
  unfold bind at 1, get_row at 1. rewrite (np_get_pos _ _ _ _ P L).
  unfold bind at 1, lift at 1. rewrite A.
  unfold bind at 1, put_row at 1. rewrite P.
  unfold bind at 1, get_row at 1. cbn [F rows deltas].
  assert (P1 : np_pos (len (set_row (F s) p x)) row = Some p).
  { unfold len, set_row. rewrite length_insert. exact P. }
  assert (L1 : set_row (F s) p x !! p = Some x).
  { unfold set_row. apply list_lookup_insert_eq. exact Lp. }
  rewrite (np_get_pos _ _ _ _ P1 L1).
  unfold bind at 1, lift at 1. rewrite np_dot_self.
  unfold bind at 1, lift at 1. unfold py_div. rewrite Cz.
  fold (norm x).
  destruct (f_ltb f_one (f_single (f_div (norm x) C))).
  - unfold bind at 1, get_row at 1. cbn [F rows deltas].
    rewrite (np_get_pos _ _ _ _ P1 L1).
    unfold put_row. cbn [F rows deltas]. rewrite P1.
    unfold set_row. rewrite list_insert_insert_eq. reflexivity.
  - reflexivity.
Qed.

(** [apply_updates] with one row to update is one iteration of its loop. *)
Lemma apply_updates_one (gamma C : T) (s : store T) (row : Z) (delta : vector T) :
  rows s = [row] -> deltas s = [delta] ->
  apply_updates gamma C s
    = bind (update_row gamma C 0) (fun _ => ret tt) s.
Proof.
  intros Er Ed. unfold apply_updates. unfold bind at 1, get at 1.
  rewrite Er, Ed. reflexivity.
Qed.

Lemma apply_updates_one_Done (gamma C : T) (s s' : store T) (row : Z) (delta : vector T) :
  rows s = [row] -> deltas s = [delta] ->
  update_row gamma C 0 s = (Done tt, s') ->
  apply_updates gamma C s = (Done tt, s').
Proof.
  intros Er Ed E. rewrite (apply_updates_one gamma C s row delta Er Ed).
  rewrite (bind_step _ _ _ _ _ E). reflexivity.
Qed.

(** An iteration on a row that adding [gamma*delta] leaves as it is, when
    [p] does not exceed one, changes nothing in the store. *)
Lemma update_row_unchanged (gamma C : T) (i : Z) (s : store T) (row : Z) (delta x : vector T)
    (p : nat) :
  buf_get (rows s) i = Done row ->
  np_get (deltas s) i = Done delta ->
  np_pos (len (F s)) row = Some p ->
  F s !! p = Some x ->
  np_iadd x (np_scale gamma delta) = Done x ->
  f_eqb C f_zero = false ->
  f_ltb f_one (f_single (f_div (norm x) C)) = false ->
  update_row gamma C i s = (Done tt, s).
Proof.
  intros Gr Gd P L A Cz Lt.
  rewrite (update_row_run gamma C i s row delta x x p Gr Gd P L A Cz), Lt.
  unfold set_row. rewrite (list_insert_id _ _ _ L). destruct s; reflexivity.
Qed.

Lemma apply_updates_times_unchanged (gamma C : T) (s : store T) (n : nat) :
  apply_updates gamma C s = (Done tt, s) ->
  apply_updates_times n gamma C s = (Done tt, s).
Proof.
  intros E. induction n as [ | n IH]; [reflexivity | ].
  cbn [apply_updates_times]. rewrite (bind_step _ _ _ _ _ E). exact IH.
Qed.

End UpdateFacts.

(** C5. When the number of rows differs from the number of delta vectors,
    [apply_updates] raises [AssertionError] and leaves the store, [F]
    included, exactly as it was: nothing is updated before the check. *)
Theorem apply_updates_length_mismatch {T : Type} `{Floating T} (gamma C : T) (s : store T) :
  length (rows s) <> length (deltas s) ->
  apply_updates gamma C s = (Raised AssertionError, s).
Proof.
  intros N. unfold apply_updates, bind, get.
  apply Nat.eqb_neq in N. rewrite N. reflexivity.
Qed.

Lemma apply_updates_length_mismatch_witness :
  length (rows {| F := [[3; 4]%float]; rows := [0; 0]; delta_mem := Own [[1; 1]%float] |})
    <> length (deltas {| F := [[3; 4]%float]; rows := [0; 0]; delta_mem := Own [[1; 1]%float] |}) /\
  apply_updates 1%float 1%float
      {| F := [[3; 4]%float]; rows := [0; 0]; delta_mem := Own [[1; 1]%float] |}
    = (Raised AssertionError,
       {| F := [[3; 4]%float]; rows := [0; 0]; delta_mem := Own [[1; 1]%float] |}).
Proof.
  assert (N : length (rows {| F := [[3; 4]%float]; rows := [0; 0]; delta_mem := Own [[1; 1]%float] |})
              <> length (deltas {| F := [[3; 4]%float]; rows := [0; 0];
                                   delta_mem := Own [[1; 1]%float] |}))
    by (simpl; lia).
  split; [exact N | ].
  exact (apply_updates_length_mismatch 1%float 1%float
           {| F := [[3; 4]%float]; rows := [0; 0]; delta_mem := Own [[1; 1]%float] |} N).
Defined.

(** C9, as amended. Whatever its outcome, [apply_updates] leaves [rows]
    as it was ([gamma] and [C] are immutable Python floats), keeps the
    number of rows of [F], and changes no row of [F] but those that an entry
    of [rows] names: a position [p] that no entry of [rows] resolves to
    holds the same row before and after the call. [deltas] stays the same
    array, and holds what it held provided it has a memory of its own. *)
Theorem apply_updates_touches_listed_rows {T : Type} `{Floating T} (gamma C : T) (s : store T) :
  let s' := snd (apply_updates gamma C s) in
  rows s' = rows s /\ delta_mem s' = delta_mem s /\ length (F s') = length (F s) /\
  (forall p : nat,
     (forall row, row ∈ rows s -> np_pos (len (F s)) row <> Some p) ->
     F s' !! p = F s !! p) /\
  (forall d : matrix T, delta_mem s = Own d -> deltas s' = deltas s).
Proof.
  intros s'.
  destruct (apply_updates gamma C s) as [o s1] eqn:E. subst s'. cbn [snd].
  apply apply_updates_frame in E. destruct E as (Er & Ed & El & K).
  split; [exact Er | split; [exact Ed | split; [exact El | split]]].
  - intros p N. apply K. intros (row & I & P). exact (N row I P).
  - intros d Ow. unfold deltas. rewrite Ed, Ow. reflexivity.
Qed.

(** The claim as it was stated fails when [deltas] shares the memory of
    [F]: called with [deltas = F] on the rows [[3, 4]] and [[1, 0]], in the
    order 1, 0 and with a radius that rescales nothing, [apply_updates] adds
    row 0 to row 1 and then the new row 1 to row 0, and [deltas] holds the
    new rows. *)
Lemma shared_deltas_change :
  apply_updates 1%float 100%float Shared.arrays
    = (Done tt, {| F := [[7; 8]; [4; 4]]%float; rows := [1; 0]; delta_mem := View 0 2 |}) /\
  deltas Shared.arrays = [[3; 4]; [1; 0]]%float /\
  deltas (snd (apply_updates 1%float 100%float Shared.arrays)) = [[7; 8]; [4; 4]]%float /\
  deltas (snd (apply_updates 1%float 100%float Shared.arrays)) <> deltas Shared.arrays.
Proof.
  split; [vm_compute; reflexivity | ].
  split; [vm_compute; reflexivity | ].
  split; [vm_compute; reflexivity | ].
  vm_compute. intros E. discriminate E.
Qed.

(** *** Rescaling *)

#[local] Set Warnings "-inexact-float".

(** C7. On the example of the claim the code does what the claim says: the
    row [3, 4] with a zero delta, [gamma = 1] and [C = 1] becomes
    [0.6, 0.8], whose computed norm is 1. The general rule fails, and with
    it the comment of the code, [ensure ||F[row]|| <= C]: [p] is a C
    [float], so that the row [1, 1] is divided by the square root of 2
    rounded to single precision and keeps a norm above [C = 1], computed
    and exact, and the row [1 + 2^-30, 0], of norm above [C = 1], has a
    [p] that rounds to 1 and is not rescaled at all. *)
Theorem apply_updates_exceeds_radius :
  (apply_updates 1%float 1%float Rows.three_four
     = (Done tt, {| F := [[0.6; 0.8]%float]; rows := [0]; delta_mem := Own [[0; 0]%float] |}) /\
   norm [0.6; 0.8]%float = 1%float) /\
  (f_ltb 1%float (norm [1; 1]%float) = true /\
   apply_updates 1%float 1%float Rows.one_one
     = (Done tt, {| F := [[0.70710679328816484; 0.70710679328816484]%float];
                    rows := [0]; delta_mem := Own [[0; 0]%float] |}) /\
   norm [0.70710679328816484; 0.70710679328816484]%float = 1.0000000171142713%float /\
   f_ltb 1%float (norm [0.70710679328816484; 0.70710679328816484]%float) = true /\
   exists q : Q,
     Rows.exact_square_norm [0.70710679328816484; 0.70710679328816484]%float = Some q /\
     Qle_bool q 1 = false) /\
  (f_ltb 1%float (norm [0x1.00000004p+0; 0]%float) = true /\
   f_single (f_div (norm [0x1.00000004p+0; 0]%float) 1%float) = 1%float /\
   apply_updates 1%float 1%float Rows.barely_outside = (Done tt, Rows.barely_outside) /\
   exists q : Q,
     Rows.exact_square_norm [0x1.00000004p+0; 0]%float = Some q /\
     Qle_bool q 1 = false).
Proof.
  split; [split; vm_compute; reflexivity | split].
  - split; [vm_compute; reflexivity | ].
    split; [vm_compute; reflexivity | ].
    split; [vm_compute; reflexivity | ].
    split; [vm_compute; reflexivity | ].
    eexists. split; vm_compute; reflexivity.
  - split; [vm_compute; reflexivity | ].
    split; [vm_compute; reflexivity | ].
    split; [vm_compute; reflexivity | ].
    eexists. split; vm_compute; reflexivity.
Qed.

(** *** Rows on the sphere *)

Lemma div_eucl_multiple (m : positive) (k : Z) :
  Z.div_eucl (Z.pos m * k) (Z.pos m) = (k, 0).
Proof.
  pose proof (Z.div_mul k (Z.pos m) ltac:(lia)) as Q.
  pose proof (Z.mod_mul k (Z.pos m) ltac:(lia)) as R.
  rewrite (Z.mul_comm k) in Q, R.
  unfold Z.div, Z.modulo in Q, R.
  destruct (Z.div_eucl (Z.pos m * k) (Z.pos m)) as [q r].
  subst. reflexivity.
Qed.

(** A number other than zero, divided by itself, is 1: the quotient of the
    mantissas is exact. *)
Lemma SF64div_self (sg : bool) (m : positive) (e : Z) :
  SF64div (S754_finite sg m e) (S754_finite sg m e) = Prim2SF 1%float.
Proof.
  unfold SF64div, SFdiv, SFdiv_core_binary.
  rewrite !Z.sub_diag, xorb_nilpotent.
  change (Z.min (fexp prec emax 0) 0) with (-53).
  change (0 - -53) with 53.
  cbv iota beta.
  rewrite Z.shiftl_mul_pow2 by lia.
  rewrite div_eucl_multiple.
  replace (new_location (Z.pos m) 0) with loc_Exact
    by (unfold new_location, new_location_even, new_location_odd;
        destruct (Z.even (Z.pos m)); reflexivity).
  vm_compute. reflexivity.
Qed.

Lemma float_div_self (c : float) : nonzero_number c -> (c / c)%float = 1%float.
Proof.
  unfold nonzero_number. intros N. apply Prim2SF_inj. rewrite div_spec.
  destruct (Prim2SF c) as [sg | sg | | sg m e]; try contradiction.
  apply SF64div_self.
Qed.

Lemma float_eqb_zero (c : float) : nonzero_number c -> (c =? 0)%float = false.
Proof.
  unfold nonzero_number. intros N. rewrite FloatAxioms.eqb_spec.
  destruct (Prim2SF c) as [sg | sg | | sg m e]; try contradiction.
  destruct sg; reflexivity.
Qed.

(** A finite number times a zero is a zero. *)
Lemma float_mul_zero (g d : float) :
  finite_number g -> signed_zero d -> signed_zero (g * d)%float.
Proof.
  unfold finite_number, signed_zero. intros Fg Zd. rewrite mul_spec.
  unfold SF64mul, SFmul.
  destruct (Prim2SF g) as [sg | sg | | sg mg eg]; try contradiction;
    destruct (Prim2SF d) as [sd | sd | | sd md ed]; try contradiction; exact I.
Qed.

(** Adding a zero changes nothing but a negative zero. *)
Lemma float_add_zero (x z : float) :
  signed_zero z -> ~ negative_zero x -> (x + z)%float = x.
Proof.
  unfold signed_zero, negative_zero. intros Zz Nx.
  apply Prim2SF_inj. rewrite add_spec. unfold SF64add, SFadd.
  destruct (Prim2SF z) as [sz | sz | | sz mz ez]; try contradiction.
  destruct (Prim2SF x) as [sx | sx | | sx mx ex]; try reflexivity.
  destruct sx; [contradiction Nx; reflexivity | destruct sz; reflexivity].
Qed.

Lemma binary64_zero_delta (gamma : float) (x delta : list float) :
  length delta = length x -> Forall signed_zero delta -> finite_number gamma ->
  Forall (fun a => ~ negative_zero a) x ->
  np_iadd x (np_scale gamma delta) = Done x.
Proof.
  intros El Z0 Fg Nx. unfold np_iadd, np_scale. rewrite length_map, El, Nat.eqb_refl.
  f_equal. revert delta El Z0. induction Nx as [ | a x Na Nx IH]; intros delta El Z0.
  - reflexivity.
  - destruct delta as [ | d delta]; [discriminate El | ].
    inversion Z0 as [ | d' l Zd Zr]; subst.
    cbn [map combine fst snd]. rewrite IH; [ | simpl in El; lia | exact Zr].
    f_equal. cbn [f_add f_mul binary64].
    apply float_add_zero; [apply float_mul_zero; assumption | exact Na].
Qed.

(** C8, as amended. On binary64, on a store with one row to update, whose
    norm as the code computes it is [C], a number other than zero, a delta
    of zeros of the length of the row, a finite [gamma] and no negative
    zero in the row, [apply_updates] returns and leaves the store as it
    was, once and therefore any number of times in a row: [p] is exactly
    one, which does not exceed one. *)
Theorem apply_updates_fixed_point (gamma C : float) (s : store float) (row : Z) (p : nat)
    (x delta : list float) :
  rows s = [row] -> deltas s = [delta] ->
  np_pos (len (F s)) row = Some p -> F s !! p = Some x ->
  length delta = length x -> Forall signed_zero delta ->
  finite_number gamma -> Forall (fun a => ~ negative_zero a) x ->
  norm x = C -> nonzero_number C ->
  f_single (f_div (norm x) C) = 1%float /\
  apply_updates gamma C s = (Done tt, s) /\
  forall n : nat, apply_updates_times n gamma C s = (Done tt, s).
Proof.
  intros Er Ed P L El Z0 Fg Nx En Cn.
  assert (Ep : f_single (f_div (norm x) C) = 1%float).
  { rewrite En. cbn [f_single f_div binary64]. rewrite (float_div_self C Cn).
    vm_compute. reflexivity. }
  assert (E : apply_updates gamma C s = (Done tt, s)).
  { apply (apply_updates_one_Done gamma C s s row delta Er Ed).
    apply (update_row_unchanged gamma C 0 s row delta x p).
    - rewrite Er. reflexivity.
    - rewrite Ed. reflexivity.
    - exact P.
    - exact L.
    - apply binary64_zero_delta; assumption.
    - exact (float_eqb_zero C Cn).
    - rewrite Ep. reflexivity. }
  split; [exact Ep | split; [exact E | ]].
  intros n. apply apply_updates_times_unchanged. exact E.
Qed.

Lemma normalized_no_negative_zero :
  Forall (fun a => ~ negative_zero a) [0.6; 0.8]%float.
Proof. repeat constructor; unfold negative_zero; vm_compute; intros E; discriminate E. Qed.

Lemma zeros_are_zeros : Forall signed_zero [0; 0]%float.
Proof. repeat constructor. Qed.

Lemma apply_updates_fixed_point_witness :
  rows Rows.normalized = [0] /\ deltas Rows.normalized = [[0; 0]%float] /\
  np_pos (len (F Rows.normalized)) 0 = Some 0%nat /\
  F Rows.normalized !! 0%nat = Some [0.6; 0.8]%float /\
  length [0; 0]%float = length [0.6; 0.8]%float /\
  Forall signed_zero [0; 0]%float /\ finite_number 2%float /\
  Forall (fun a => ~ negative_zero a) [0.6; 0.8]%float /\
  norm [0.6; 0.8]%float = 1%float /\ nonzero_number 1%float /\
  f_single (f_div (norm [0.6; 0.8]%float) 1%float) = 1%float /\
  apply_updates 2%float 1%float Rows.normalized = (Done tt, Rows.normalized) /\
  forall n : nat,
    apply_updates_times n 2%float 1%float Rows.normalized = (Done tt, Rows.normalized).
Proof.
  assert (En : norm [0.6; 0.8]%float = 1%float) by (vm_compute; reflexivity).
  split; [reflexivity | split; [reflexivity | split; [reflexivity | ]]].
  split; [reflexivity | split; [reflexivity | split; [exact zeros_are_zeros | ]]].
  split; [exact I | split; [exact normalized_no_negative_zero | ]].
  split; [exact En | split; [exact I | ]].
  exact (apply_updates_fixed_point 2%float 1%float Rows.normalized 0 0%nat
           [0.6; 0.8]%float [0; 0]%float eq_refl eq_refl eq_refl eq_refl eq_refl
           zeros_are_zeros I normalized_no_negative_zero En I).
Defined.

(** The claim as it was stated fails in the arithmetic of the code. The row
    [2^600, 0] has the norm [C = 2^600], but its dot product with itself
    overflows: the computed norm is infinite, [p] too, and the row becomes
    [0, 0]. In the row [-0, 1], of norm [C = 1], adding the zero delta turns
    [-0] into [0]. And with an infinite [gamma] the product [gamma * 0] is
    not a number: the row [0.6, 0.8], of norm [C = 1], is lost. *)
Lemma computed_norm_decides :
  (exists q c : Q,
     Rows.exact_square_norm [0x1p+600; 0]%float = Some q /\
     Rows.float_value 0x1p+600%float = Some c /\ Qeq_bool q (c * c) = true) /\
  apply_updates 1%float 0x1p+600%float Rows.huge
    = (Done tt, {| F := [[0; 0]%float]; rows := [0]; delta_mem := Own [[0; 0]%float] |}) /\
  (norm [neg_zero; 1%float] = 1%float /\
   apply_updates 1%float 1%float Rows.minus_zero
     = (Done tt, {| F := [[0; 1]%float]; rows := [0]; delta_mem := Own [[0; 0]%float] |}) /\
   Prim2SF neg_zero = S754_zero true /\ Prim2SF 0%float = S754_zero false) /\
  (norm [0.6; 0.8]%float = 1%float /\
   apply_updates infinity 1%float Rows.normalized
     = (Done tt, {| F := [[nan; nan]]; rows := [0]; delta_mem := Own [[0; 0]%float] |})).
Proof.
  split; [eexists; eexists; repeat split; vm_compute; reflexivity | ].
  split; [vm_compute; reflexivity | ].
  split; [repeat split; vm_compute; reflexivity | ].
  split; vm_compute; reflexivity.
Qed.

(** The row [0.6, 0.8] stays as it is under two calls with a zero delta,
    [gamma = 1] and [C = 1]. *)
Lemma normalized_row_stays :
  apply_updates_times 2 1%float 1%float Rows.normalized = (Done tt, Rows.normalized).
Proof. vm_compute. reflexivity. Qed.

(** * Further properties *)

(** ** The random source is only read forward *)

Lemma later_refl (s : rng) : later 0 s s.
Proof. unfold later. split; [reflexivity | lia]. Qed.

Lemma later_trans (n m : Z) (s1 s2 s3 : rng) :
  later n s1 s2 -> later m s2 s3 -> later (n + m) s1 s3.
Proof. unfold later. intros [T1 P1] [T2 P2]. split; [congruence | lia]. Qed.

Lemma later_weaken (n m : Z) (s s' : rng) : m <= n -> later n s s' -> later m s s'.
Proof. unfold later. intros L [T1 P1]. split; [exact T1 | lia]. Qed.

Lemma later_advance (n : Z) (s : rng) : later n s (advance n s).
Proof. unfold later, advance. simpl. split; [reflexivity | lia]. Qed.

Section Forward.
Context {T : Type} `{Floating T}.

Lemma sample_negative_example_later (fuel : nat) (num_items : Z) (vals : list T)
    (indices : list Z) (b e ix : Z) (s s' : rng) (j : Z) :
  sample_negative_example fuel num_items vals indices b e ix s = (Done j, s') ->
  later 1 s s'.
Proof.
  revert s. induction fuel as [ | fuel IH]; intros s E.
  - discriminate E.
  - simpl in E. apply bind_Done in E. destruct E as (j0 & s1 & D & E).
    apply rand_mod_Done in D. destruct D as (_ & -> & _).
    apply bind_Done in E. destruct E as (found & s2 & S & E).
    apply lift_Done in S. destruct S as [S ->].
    destruct found as [jx | ].
    + apply bind_Done in E. destruct E as (vj & s2 & Vj & E).
      apply lift_Done in Vj. destruct Vj as [Vj ->].
      apply bind_Done in E. destruct E as (vi & s2 & Vi & E).
      apply lift_Done in Vi. destruct Vi as [Vi ->].
      destruct (f_ltb vj vi).
      * apply ret_Done in E. destruct E as [_ ->]. apply later_advance.
      * apply IH in E. apply later_weaken with (n := 1 + 1); [lia | ].
        apply later_trans with (s2 := advance 1 s); [apply later_advance | exact E].
    + apply ret_Done in E. destruct E as [_ ->]. apply later_advance.
Qed.

Lemma sample_positive_example_later (fuel : nat) (positive_thresh : T) (num_users : Z)
    (vals : list T) (indices indptr : list Z) (s s' : rng) (r : Z * Z * Z) :
  sample_positive_example fuel positive_thresh num_users vals indices indptr s = (Done r, s') ->
  later 2 s s'.
Proof.
  revert s. induction fuel as [ | fuel IH]; intros s E.
  - discriminate E.
  - assert (Rec : forall s1, later 1 s s1 ->
              sample_positive_example fuel positive_thresh num_users vals indices indptr s1
                = (Done r, s') -> later 2 s s').
    { intros s1 L1 E1. apply IH in E1. apply later_weaken with (n := 1 + 2); [lia | ].
      apply later_trans with (s2 := s1); assumption. }
    simpl in E. apply bind_Done in E. destruct E as (u0 & s1 & D & E).
    apply rand_mod_Done in D. destruct D as (_ & -> & _).
    apply bind_Done in E. destruct E as (b & s2 & Gb & E).
    apply lift_Done in Gb. destruct Gb as [Gb ->].
    apply bind_Done in E. destruct E as (e & s2 & Ge & E).
    apply lift_Done in Ge. destruct Ge as [Ge ->].
    destruct (to_uint b <? to_uint e);
      [ | apply (Rec (advance 1 s)); [apply later_advance | exact E]].
    apply bind_Done in E. destruct E as (r2 & s2 & D2 & E).
    unfold rand in D2. inversion D2; subst r2 s2; clear D2.
    apply bind_Done in E. destruct E as (v & s2 & Gv & E).
    apply lift_Done in Gv. destruct Gv as [Gv ->].
    destruct (f_leb positive_thresh v).
    + apply bind_Done in E. destruct E as (c & s2 & Gc & E).
      apply lift_Done in Gc. destruct Gc as [Gc ->].
      apply ret_Done in E. destruct E as [_ ->].
      rewrite advance_advance. apply later_advance.
    + apply (Rec (advance 1 (advance 1 s))); [ | exact E].
      rewrite advance_advance. apply later_weaken with (n := 1 + 1); [lia | apply later_advance].
Qed.

Lemma trials_later (fuel : nat) (U V : matrix T) (vals : list T) (indices : list Z)
    (b e u ix : Z) (r : T) (max_trials : Z) (n : nat) (N : Z) (s s' : rng) (j Nr : Z) :
  trials fuel U V vals indices b e u ix r max_trials n N s = (Done (j, Nr), s') ->
  later 0 s s' /\ (0 <= j -> later (Nr - N + 1) s s').
Proof.
  revert N s. induction n as [ | n IH]; intros N s E.
  - simpl in E. apply ret_Done in E. destruct E as [E ->]. inversion E; subst.
    split; [apply later_refl | intros; lia].
  - simpl in E. apply bind_Done in E. destruct E as (jo & s1 & D & E).
    apply sample_negative_example_later in D.
    apply bind_Done in E. destruct E as (j1 & s2 & I & E).
    apply lift_Done in I. destruct I as [I ->].
    apply bind_Done in E. destruct E as (hit & s2 & Vi & E).
    apply lift_Done in Vi. destruct Vi as [Vi ->].
    destruct hit.
    + apply ret_Done in E. destruct E as [E ->]. inversion E; subst j Nr; clear E.
      split; [apply later_weaken with (n := 1); [lia | exact D] | ].
      intros _. replace (N - N + 1) with 1 by lia. exact D.
    + apply IH in E. destruct E as [L0 LN]. split.
      * apply later_weaken with (n := 1 + 0); [lia | ].
        apply later_trans with (s2 := s1); assumption.
      * intros J. replace (Nr - N + 1) with (1 + (Nr - (N + 1) + 1)) by lia.
        apply later_trans with (s2 := s1); [exact D | exact (LN J)].
Qed.

Lemma trials_unbounded_later (fuel : nat) (U V : matrix T) (vals : list T) (indices : list Z)
    (b e u ix : Z) (r : T) (n : nat) (N : Z) (s s' : rng) (j Nr : Z) :
  trials_unbounded fuel U V vals indices b e u ix r n N s = (Done (j, Nr), s') ->
  0 <= N ->
  later 0 s s' /\ later (Nr - N + 1) s s'.
Proof.
  revert N s. induction n as [ | n IH]; intros N s E PN.
  - discriminate E.
  - simpl in E. apply bind_Done in E. destruct E as (jo & s1 & D & E).
    apply sample_negative_example_later in D.
    apply bind_Done in E. destruct E as (j1 & s2 & I & E).
    apply lift_Done in I. destruct I as [I ->].
    apply bind_Done in E. destruct E as (hit & s2 & Vi & E).
    apply lift_Done in Vi. destruct Vi as [Vi ->].
    destruct hit.
    + apply ret_Done in E. destruct E as [E ->]. inversion E; subst j Nr; clear E.
      split; [apply later_weaken with (n := 1); [lia | exact D] | ].
      replace (N - N + 1) with 1 by lia. exact D.
    + pose proof (to_uint_succ N PN) as Le.
      pose proof (to_uint_range (N + 1)) as Ru.
      apply IH in E; [ | lia]. destruct E as [L0 LN]. split.
      * apply later_weaken with (n := 1 + 0); [lia | ].
        apply later_trans with (s2 := s1); assumption.
      * apply later_weaken with (n := 1 + (Nr - to_uint (N + 1) + 1)); [lia | ].
        apply later_trans with (s2 := s1); [exact D | exact LN].
Qed.

Lemma sample_violating_negative_example_later (fuel : nat) (U V : matrix T) (vals : list T)
    (indices : list Z) (b e u ix i max_trials : Z) (s s' : rng) (j Nr : Z) :
  sample_violating_negative_example fuel U V vals indices b e u ix i max_trials s
    = (Done (j, Nr), s') ->
  later 0 s s' /\ (0 <= j -> later Nr s s').
Proof.
  intros E. unfold sample_violating_negative_example in E.
  apply bind_Done in E. destruct E as (d & s1 & D & E).
  apply lift_Done in D. destruct D as [D ->].
  apply bind_Done in E. destruct E as (bound & s1 & B & E).
  apply lift_Done in B. destruct B as [B ->].
  destruct (bound <? UINT_MOD).
  - apply trials_later in E. destruct E as [L0 LN]. split; [exact L0 | ].
    intros J. replace Nr with (Nr - 1 + 1) by lia. exact (LN J).
  - apply trials_unbounded_later in E; [ | lia].
    split; [ | intros _; replace Nr with (Nr - 1 + 1) by lia; exact (proj2 E)].
    exact (proj1 E).
Qed.

(** The round of the loop of [warp_sample] that returns: a positive
    example drawn after the starting state, and a search that succeeds. *)
Lemma warp_loop_last_round (fuel k : nat) (U V : matrix T) (vals : list T)
    (indices indptr : list Z) (positive_thresh : T) (max_trials num_users tot : Z)
    (s s' : rng) (u i j N tot' : Z) :
  warp_loop fuel k U V vals indices indptr positive_thresh max_trials num_users tot s
    = (Done (u, i, j, N, tot'), s') ->
  exists s0 s1 ix b e,
    later 0 s s0 /\
    sample_positive_example fuel positive_thresh num_users vals indices indptr s0
      = (Done (u, ix, i), s1) /\
    buf_get indptr u = Done b /\ buf_get indptr (to_uint (u + 1)) = Done e /\
    sample_violating_negative_example fuel U V vals indices b e u ix i max_trials s1
      = (Done (j, N), s') /\
    0 <= j.
Proof.
  revert tot s. induction k as [ | k IH]; intros tot s E.
  - discriminate E.
  - simpl in E. apply bind_Done in E. destruct E as ([[u0 ix] i0] & s1 & P & E).
    apply bind_Done in E. destruct E as (b & s2 & Gb & E).
    apply lift_Done in Gb. destruct Gb as [Gb ->].
    apply bind_Done in E. destruct E as (e & s2 & Ge & E).
    apply lift_Done in Ge. destruct Ge as [Ge ->].
    apply bind_Done in E. destruct E as ([jo No] & s2 & Sv & E).
    apply bind_Done in E. destruct E as (j1 & s3 & Ij & E).
    apply lift_Done in Ij. destruct Ij as [Ij ->].
    apply as_int_Done in Ij. destruct Ij as [-> _].
    apply bind_Done in E. destruct E as (N1 & s3 & IN & E).
    apply lift_Done in IN. destruct IN as [IN ->].
    apply as_uint_Done in IN. destruct IN as [-> RN].
    destruct (0 <=? jo) eqn:J.
    + apply Z.leb_le in J. apply ret_Done in E. destruct E as [E ->].
      inversion E; subst u i j N tot'; clear E.
      exists s, s1, ix, b, e. repeat split; try assumption; try apply later_refl.
    + apply IH in E. destruct E as (s0 & s1' & ix' & b' & e' & L & Rest).
      exists s0, s1', ix', b', e'. split; [ | exact Rest].
      apply sample_positive_example_later in P.
      apply sample_violating_negative_example_later in Sv. destruct Sv as [Sv _].
      apply later_weaken with (n := (2 + 0) + 0); [lia | ].
      apply later_trans with (s2 := s2); [ | exact L].
      apply later_trans with (s2 := s1); assumption.
Qed.

End Forward.

(** ** Reads stay within the buffers *)

Lemma safe_bind_lift {S A B : Type} (o : outcome A) (k : A -> M S B) (s : S) (a : A) :
  o = Done a -> bind (lift o) k s = k a s.
Proof. intros ->. reflexivity. Qed.

Lemma buf_get_in_bounds {A : Type} (b : list A) (k : Z) :
  0 <= k < len b -> exists x, buf_get b k = Done x.
Proof.
  intros R. unfold len in R.
  destruct (lookup_lt_is_Some_2 b (Z.to_nat k) ltac:(lia)) as [x L].
  exists x. apply buf_get_Done. split; [lia | exact L].
Qed.

Lemma np_get_in_bounds {A : Type} (a : list A) (k : Z) :
  0 <= k < len a -> exists x, np_get a k = Done x /\ a !! Z.to_nat k = Some x.
Proof.
  intros R. unfold len in R.
  destruct (lookup_lt_is_Some_2 a (Z.to_nat k) ltac:(lia)) as [x L].
  exists x. split; [ | exact L]. unfold np_get, np_pos, len.
  replace (0 <=? k) with true by (symmetry; apply Z.leb_le; lia).
  replace (k <? Z.of_nat (length a)) with true by (symmetry; apply Z.ltb_lt; lia).
  simpl. rewrite L. reflexivity.
Qed.

(** On positions within [indices] the scan of a row always completes. *)
Lemma scan_row_total (indices : list Z) (j : Z) (n : nat) (b : Z) :
  0 <= b -> b + Z.of_nat n <= len indices ->
  exists r, scan_row indices j b n = Done r /\
    forall jx, r = Some jx -> b <= jx < b + Z.of_nat n.
Proof.
  revert b. induction n as [ | n IH]; intros b P L.
  - exists None. split; [reflexivity | intros jx E; discriminate E].
  - destruct (buf_get_in_bounds indices b ltac:(lia)) as [c G].
    cbn [scan_row]. rewrite G. cbn [obind].
    destruct (to_uint c =? j).
    + exists (Some b). split; [reflexivity | ]. intros jx E. inversion E. lia.
    + destruct (IH (b + 1) ltac:(lia) ltac:(lia)) as (r & E & R).
      exists r. split; [exact E | ]. intros jx Ej. specialize (R jx Ej). lia.
Qed.

Section Safety.
Context {T : Type} `{Floating T}.

Lemma sample_negative_example_safe (fuel : nat) (num_items : Z) (vals : list T)
    (indices : list Z) (b e ix : Z) (vi : T) (s : rng) :
  1 <= num_items ->
  0 <= b <= e -> e <= len indices -> e <= len vals ->
  np_get vals ix = Done vi ->
  safe (fst (sample_negative_example fuel num_items vals indices b e ix s)).
Proof.
  intros Pn Rb Le Lv Vi. revert s. induction fuel as [ | fuel IH]; intros s.
  - exact I.
  - cbn [sample_negative_example].
    rewrite (bind_step _ _ _ _ _ (rand_mod_pos num_items s ltac:(lia))).
    destruct (scan_row_total indices (draw s mod num_items) (Z.to_nat (e - b)) b
                ltac:(lia) ltac:(lia)) as (r & Sc & Rj).
    rewrite (safe_bind_lift _ _ _ _ Sc).
    destruct r as [jx | ]; [ | exact I].
    specialize (Rj jx eq_refl).
    destruct (buf_get_in_bounds vals jx ltac:(lia)) as [vj Vj].
    rewrite (safe_bind_lift _ _ _ _ Vj), (safe_bind_lift _ _ _ _ Vi).
    destruct (f_ltb vj vi); [exact I | apply IH].
Qed.

Lemma csr_offset {A : Type} (num_users : Z) (vals : list A) (indices indptr : list Z) (k : Z) :
  csr_ok num_users vals indices indptr -> 0 <= k <= num_users ->
  exists b, buf_get indptr k = Done b /\ 0 <= b <= len vals /\ to_uint b = b.
Proof.
  intros (Lp & Li & Lv & Fo) R.
  destruct (buf_get_in_bounds indptr k ltac:(lia)) as [b G].
  exists b. split; [exact G | ].
  apply buf_get_Done in G. destruct G as [_ G].
  rewrite Forall_lookup in Fo. specialize (Fo _ _ G).
  split; [exact Fo | ]. apply to_uint_small. rewrite INT_MAX_eq in Lv. rewrite UINT_MOD_eq. lia.
Qed.

Lemma sample_positive_example_safe (fuel : nat) (positive_thresh : T) (num_users : Z)
    (vals : list T) (indices indptr : list Z) (s : rng) :
  1 <= num_users ->
  csr_ok num_users vals indices indptr ->
  safe (fst (sample_positive_example fuel positive_thresh num_users vals indices indptr s)).
Proof.
  intros Pn Ok. revert s. induction fuel as [ | fuel IH]; intros s.
  - exact I.
  - cbn [sample_positive_example].
    rewrite (bind_step _ _ _ _ _ (rand_mod_pos num_users s ltac:(lia))).
    set (u := draw s mod num_users).
    assert (Ru : 0 <= u < num_users) by (apply Z.mod_pos_bound; lia).
    assert (Du : u <= draw s) by (apply Z.mod_le; [apply draw_range | lia]).
    pose proof (draw_range s) as Rd. unfold RAND_MAX in Rd. rewrite INT_MAX_eq in Rd.
    assert (U1 : to_uint (u + 1) = u + 1)
      by (apply to_uint_small; rewrite UINT_MOD_eq; lia).
    destruct (csr_offset num_users vals indices indptr u Ok ltac:(lia)) as (b & Gb & Rb & Tb).
    destruct (csr_offset num_users vals indices indptr (u + 1) Ok ltac:(lia))
      as (e & Ge & Re & Te).
    rewrite (safe_bind_lift _ _ _ _ Gb). rewrite U1, (safe_bind_lift _ _ _ _ Ge).
    rewrite Tb, Te.
    destruct (b <? e) eqn:Lt; [ | apply IH].
    apply Z.ltb_lt in Lt.
    unfold bind at 1, rand at 1.
    set (d := draw (advance 1 s)).
    pose proof (draw_range (advance 1 s)) as Rd2. fold d in Rd2.
    unfold RAND_MAX in Rd2. rewrite INT_MAX_eq in Rd2.
    destruct Ok as (Lp & Li & Lv & Fo). rewrite INT_MAX_eq in Lv.
    rewrite (to_uint_small d) by (rewrite UINT_MOD_eq; lia).
    rewrite (to_uint_small (e - b)) by (rewrite UINT_MOD_eq; lia).
    pose proof (Z.mod_pos_bound d (e - b) ltac:(lia)) as Rm.
    rewrite (to_uint_small (b + d mod (e - b))) by (rewrite UINT_MOD_eq; lia).
    destruct (buf_get_in_bounds vals (b + d mod (e - b)) ltac:(lia)) as [v Gv].
    rewrite (safe_bind_lift _ _ _ _ Gv).
    destruct (f_leb positive_thresh v); [ | apply IH].
    destruct (buf_get_in_bounds indices (b + d mod (e - b)) ltac:(lia)) as [c Gc].
    rewrite (safe_bind_lift _ _ _ _ Gc). exact I.
Qed.

Lemma score_defined (k : nat) (U V : matrix T) (u j : Z) (a : vector T) :
  np_get U u = Done a -> length a = k -> factors_ok k V -> 0 <= j < len V ->
  exists d, score U V u j = Done d.
Proof.
  intros Ga La (_ & Fv) Rj.
  destruct (np_get_in_bounds V j Rj) as (row & Gj & Lj).
  rewrite Forall_lookup in Fv. specialize (Fv _ _ Lj).
  exists (dot_sum a row). unfold score. rewrite Ga. cbn [obind]. rewrite Gj. cbn [obind].
  unfold np_dot. rewrite La, Fv, Nat.eqb_refl. reflexivity.
Qed.

Lemma trials_safe (fuel : nat) (k : nat) (U V : matrix T) (vals : list T) (indices : list Z)
    (b e u ix : Z) (r : T) (max_trials : Z) (a : vector T) (vi : T) (n : nat) (N : Z) (s : rng) :
  np_get U u = Done a -> length a = k -> factors_ok k V ->
  0 <= b <= e -> e <= len indices -> e <= len vals -> np_get vals ix = Done vi ->
  safe (fst (trials fuel U V vals indices b e u ix r max_trials n N s)).
Proof.
  intros Ga La Fv Rb Le Lv Vi. revert N s. induction n as [ | n IH]; intros N s.
  - exact I.
  - cbn [trials].
    assert (Tv : to_uint (len V) = len V) by (apply to_uint_small; destruct Fv as [Fv _]; lia).
    pose proof (sample_negative_example_safe fuel (to_uint (len V)) vals indices b e ix vi s
                  ltac:(rewrite Tv; destruct Fv as [Fv _]; lia) Rb Le Lv Vi) as Sf.
    destruct (sample_negative_example fuel (to_uint (len V)) vals indices b e ix s)
      as [o s1] eqn:D.
    destruct o as [j | ex | | ]; cbn [fst] in Sf; try contradiction.
    + rewrite (bind_step _ _ _ _ _ D).
      apply sample_negative_example_Done in D. destruct D as (_ & Rj & Bj & _).
      rewrite Tv in Bj.
      rewrite (safe_bind_lift _ _ _ _ (as_int_small j ltac:(unfold RAND_MAX in Rj; lia))).
      destruct (score_defined k U V u j a Ga La Fv
                  ltac:(destruct Fv as [Fv _]; lia)) as [d Sd].
      assert (Vd : violates U V u r j = Done (f_ltb (f_sub r d) f_one))
        by (unfold violates; rewrite Sd; reflexivity).
      rewrite (safe_bind_lift _ _ _ _ Vd).
      destruct (f_ltb (f_sub r d) f_one); [exact I | apply IH].
    + unfold bind. rewrite D. exact I.
Qed.

Lemma trials_result_int (fuel : nat) (U V : matrix T) (vals : list T) (indices : list Z)
    (b e u ix : Z) (r : T) (max_trials : Z) (n : nat) (N : Z) (s s' : rng) (j Nr : Z) :
  trials fuel U V vals indices b e u ix r max_trials n N s = (Done (j, Nr), s') ->
  -1 <= j <= RAND_MAX.
Proof.
  revert N s. induction n as [ | n IH]; intros N s E.
  - inversion E. unfold RAND_MAX. rewrite INT_MAX_eq. lia.
  - cbn [trials] in E. apply bind_Done in E. destruct E as (j0 & s1 & D & E).
    apply sample_negative_example_Done in D. destruct D as (_ & Rj & _).
    apply bind_Done in E. destruct E as (j1 & s2 & Dj & E).
    apply lift_Done in Dj. destruct Dj as [Dj ->].
    apply as_int_Done in Dj.
    apply bind_Done in E. destruct E as (v & s3 & Dv & E).
    apply lift_Done in Dv. destruct Dv as [Dv ->].
    destruct v.
    + inversion E. subst. lia.
    + apply IH in E. exact E.
Qed.

Lemma sample_violating_negative_example_safe (fuel : nat) (k : nat) (U V : matrix T)
    (vals : list T) (indices : list Z) (b e u ix i max_trials : Z) (vi : T) (s : rng) :
  factors_ok k U -> factors_ok k V -> 0 <= u < len U -> 0 <= i < len V ->
  0 <= b <= e -> e <= len indices -> e <= len vals -> np_get vals ix = Done vi ->
  0 <= max_trials < UINT_MOD ->
  safe (fst (sample_violating_negative_example fuel U V vals indices b e u ix i max_trials s)).
Proof.
  intros Fu Fv Ru Ri Rb Le Lv Vi Rm.
  destruct (np_get_in_bounds U u Ru) as (a & Ga & La).
  assert (Ka : length a = k)
    by (destruct Fu as [_ Fu]; rewrite Forall_lookup in Fu; exact (Fu _ _ La)).
  destruct (score_defined k U V u i a Ga Ka Fv Ri) as [d Sd].
  rewrite (sample_violating_negative_example_unfold fuel U V vals indices b e u ix i
             max_trials d s Sd) by (rewrite LONG_MAX_eq; lia).
  exact (trials_safe fuel k U V vals indices b e u ix (f_single d) max_trials a vi _ _ s
           Ga Ka Fv Rb Le Lv Vi).
Qed.

Lemma warp_loop_safe (fuel n : nat) (k : nat) (U V : matrix T) (vals : list T)
    (indices indptr : list Z) (positive_thresh : T) (max_trials tot : Z) (s : rng) :
  factors_ok k U -> factors_ok k V ->
  csr_ok (len U) vals indices indptr -> items_ok (len V) indices ->
  0 <= max_trials < UINT_MOD ->
  safe (fst (warp_loop fuel n U V vals indices indptr positive_thresh max_trials
               (len U) tot s)).
Proof.
  intros Fu Fv Ok Io Rm. revert tot s. induction n as [ | n IH]; intros tot s.
  - exact I.
  - cbn [warp_loop].
    pose proof (sample_positive_example_safe fuel positive_thresh (len U) vals indices indptr s
                  ltac:(destruct Fu as [Fu _]; lia) Ok) as Sp.
    destruct (sample_positive_example fuel positive_thresh (len U) vals indices indptr s)
      as [o s1] eqn:D.
    destruct o as [[[u ix] i] | ex | | ]; cbn [fst] in Sp; try contradiction;
      [ | unfold bind; rewrite D; exact I].
    rewrite (bind_step _ _ _ _ _ D).
    apply sample_positive_example_Done in D.
    destruct D as (_ & Ru & Bu & b & e & v & Gb & Ge & Rx & Vx & _ & Ix).
    specialize (Bu ltac:(destruct Fu as [Fu _]; lia)).
    assert (U1 : to_uint (u + 1) = u + 1).
    { apply to_uint_small. unfold RAND_MAX in Ru. rewrite INT_MAX_eq in Ru.
      rewrite UINT_MOD_eq. lia. }
    destruct (csr_offset (len U) vals indices indptr u Ok ltac:(lia)) as (b' & Gb' & Rb & Tb).
    destruct (csr_offset (len U) vals indices indptr (u + 1) Ok ltac:(lia))
      as (e' & Ge' & Re & Te).
    rewrite U1 in Ge. rewrite Gb in Gb'. rewrite Ge in Ge'.
    inversion Gb'. inversion Ge'. subst b' e'. clear Gb' Ge'.
    rewrite Tb, Te in Rx.
    rewrite (safe_bind_lift _ _ _ _ Gb). rewrite U1, (safe_bind_lift _ _ _ _ Ge).
    destruct Ok as (Lp & Li & Lv & Fo).
    destruct (np_get_in_bounds vals ix ltac:(lia)) as (vi & Gv & _).
    assert (Ri : 0 <= i < len V).
    { unfold item_at in Ix. destruct (ix <? 0); [discriminate Ix | ].
      destruct (indices !! Z.to_nat ix) as [c | ] eqn:Lc; [ | discriminate Ix].
      inversion Ix. unfold items_ok in Io. rewrite Forall_lookup in Io.
      specialize (Io _ _ Lc). rewrite to_uint_small; [exact Io | ].
      destruct Fv as [Fv _]. lia. }
    pose proof (sample_violating_negative_example_safe fuel k U V vals indices b e u ix i
                  max_trials vi s1 Fu Fv ltac:(lia) Ri ltac:(lia) ltac:(lia) ltac:(lia) Gv Rm)
      as Sv.
    destruct (sample_violating_negative_example fuel U V vals indices b e u ix i max_trials s1)
      as [o s2] eqn:D.
    destruct o as [[jo No] | ex | | ]; cbn [fst] in Sv; try contradiction;
      [ | unfold bind; rewrite D; exact I].
    rewrite (bind_step _ _ _ _ _ D).
    assert (Rj : -1 <= jo <= RAND_MAX).
    { unfold sample_violating_negative_example in D.
      apply bind_Done in D. destruct D as (d & s3 & _ & D).
      apply bind_Done in D. destruct D as (bound & s4 & B & D).
      apply lift_Done in B. destruct B as [B _].
      apply as_long_Done in B. destruct B as [-> _].
      replace (max_trials <? UINT_MOD) with true in D by (symmetry; apply Z.ltb_lt; lia).
      exact (trials_result_int _ _ _ _ _ _ _ _ _ _ _ _ _ _ _ _ _ D). }
    apply sample_violating_negative_example_Done in D.
    assert (RN : 0 <= No < UINT_MOD) by (destruct D as [(_ & -> & _) | (RN & _)]; lia).
    rewrite (safe_bind_lift _ _ _ _ (as_int_small jo ltac:(unfold RAND_MAX in Rj; lia))).
    rewrite (safe_bind_lift _ _ _ _ (as_uint_small No RN)).
    destruct (0 <=? jo); [exact I | apply IH].
Qed.

End Safety.

(** ** What a call of [warp_sample] guarantees *)

Section Sampling.
Context {T : Type} `{Floating T}.

(** X1. The triple that [warp_sample] returns violates the margin: with
    [r] the score of the positive item [i] for user [u], held in a C [float],
    and [dj] the score of the negative item [j], [r - dj < 1]. Both scores
    exist, that is [u], [i] and [j] index rows of [U] and [V] of one length. *)
Theorem warp_sample_margin_violated (fuel : nat) (U V : matrix T) (vals : list T)
    (indices indptr : list Z) (positive_thresh : T) (max_trials : Z) (s s' : rng)
    (u i j N tot : Z) :
  warp_sample fuel U V vals indices indptr positive_thresh max_trials s
    = (Done (u, i, j, N, tot), s') ->
  exists d dj, score U V u i = Done d /\ score U V u j = Done dj /\
    f_ltb (f_sub (f_single d) dj) f_one = true.
Proof.
  intros E. unfold warp_sample in E.
  apply warp_loop_last_round in E.
  destruct E as (s0 & s1 & ix & b & e & _ & _ & _ & _ & E & Pj).
  apply sample_violating_negative_example_Done in E.
  destruct E as [[Ej _] | (_ & _ & _ & _ & d & Sd & Vd)]; [lia | ].
  unfold violates in Vd.
  destruct (score U V u j) as [dj | | | ] eqn:Sj; try discriminate Vd.
  exists d, dj. cbn [obind] in Vd. inversion Vd as [Vt]. rewrite Vt. auto.
Qed.

(** X2. [warp_sample] only reads the random source forward: the tape of
    draws is untouched, and a returning call has consumed at least two draws
    for the positive example and one for each of the [N] trials it reports. *)
Theorem warp_sample_reads_forward (fuel : nat) (U V : matrix T) (vals : list T)
    (indices indptr : list Z) (positive_thresh : T) (max_trials : Z) (s s' : rng)
    (u i j N tot : Z) :
  warp_sample fuel U V vals indices indptr positive_thresh max_trials s
    = (Done (u, i, j, N, tot), s') ->
  tape s' = tape s /\ pos s + 2 + N <= pos s'.
Proof.
  intros E. unfold warp_sample in E.
  pose proof (warp_loop_Done _ _ _ _ _ _ _ _ _ _ _ _ _ _ _ _ _ _ E) as W.
  apply warp_loop_last_round in E.
  destruct E as (s0 & s1 & ix & b & e & L0 & Ep & _ & _ & En & Pj).
  apply sample_positive_example_later in Ep.
  pose proof (sample_violating_negative_example_Done _ _ _ _ _ _ _ _ _ _ _ _ _ _ _ En) as Dn.
  apply sample_violating_negative_example_later in En. destruct En as [_ Ln].
  specialize (Ln Pj).
  destruct Dn as [[Ej _] | (Rn & _)]; [lia | ].
  pose proof (later_trans _ _ _ _ _ L0 (later_trans _ _ _ _ _ Ep Ln)) as [Et Lp].
  split; [exact Et | ]. lia.
Qed.

(** X3. On well-formed inputs [warp_sample] neither reads outside a buffer
    nor raises: [U] and [V] are non-empty matrices of rows of one length [k],
    [indptr] has an offset into [vals] for every user and one more, [indices]
    is as long as [vals] and names rows of [V]. The call returns or runs on. *)
Theorem warp_sample_memory_safe (fuel : nat) (k : nat) (U V : matrix T) (vals : list T)
    (indices indptr : list Z) (positive_thresh : T) (max_trials : Z) (s : rng) :
  factors_ok k U -> factors_ok k V ->
  csr_ok (len U) vals indices indptr -> items_ok (len V) indices ->
  0 <= max_trials < UINT_MOD ->
  safe (fst (warp_sample fuel U V vals indices indptr positive_thresh max_trials s)).
Proof.
  intros Fu Fv Ok Io Rm. unfold warp_sample.
  rewrite (to_uint_small (len U)) by (destruct Fu as [Fu _]; lia).
  apply (warp_loop_safe fuel fuel k); assumption.
Qed.

Lemma sample_positive_example_row (fuel : nat) (positive_thresh : T)
    (num_users : Z) (vals : list T) (indices indptr : list Z) (s s' : rng) (u ix i : Z) :
  1 <= num_users -> csr_ok num_users vals indices indptr ->
  sample_positive_example fuel positive_thresh num_users vals indices indptr s
    = (Done (u, ix, i), s') ->
  0 <= u < num_users /\
  exists b e v, row_of indptr u b e /\ b <= ix < e /\ e <= len vals /\
    item_at indices ix = Some i /\ value_at vals ix = Some v /\
    f_leb positive_thresh v = true.
Proof.
  intros Pn Ok E. apply sample_positive_example_Done in E.
  destruct E as (_ & Ru & Bu & b & e & v & Gb & Ge & Rx & Vx & Tv & Ix).
  specialize (Bu ltac:(lia)). split; [lia | ].
  assert (U1 : to_uint (u + 1) = u + 1).
  { apply to_uint_small. unfold RAND_MAX in Ru. rewrite INT_MAX_eq in Ru.
    rewrite UINT_MOD_eq. lia. }
  destruct (csr_offset num_users vals indices indptr u Ok ltac:(lia)) as (b' & Gb' & Rb & Tb).
  destruct (csr_offset num_users vals indices indptr (u + 1) Ok ltac:(lia))
    as (e' & Ge' & Re & Te).
  rewrite U1 in Ge. rewrite Gb in Gb'. rewrite Ge in Ge'.
  inversion Gb'. inversion Ge'. subst b' e'. clear Gb' Ge'.
  rewrite Tb, Te in Rx.
  apply buf_get_Done in Gb, Ge.
  exists b, e, v. repeat split; try tauto; try lia.
Qed.

(** X4. On a well-formed rating matrix [sample_positive_example] stays
    within its buffers, and what it returns is a user [u] below [num_users],
    a position [ix] of [u]'s row [b .. e-1], the item at that position, and a
    rating at [ix] of at least the threshold. *)
Theorem sample_positive_example_well_formed (fuel : nat) (positive_thresh : T)
    (num_users : Z) (vals : list T) (indices indptr : list Z) (s : rng) :
  1 <= num_users -> csr_ok num_users vals indices indptr ->
  safe (fst (sample_positive_example fuel positive_thresh num_users vals indices indptr s)) /\
  forall u ix i s',
    sample_positive_example fuel positive_thresh num_users vals indices indptr s
      = (Done (u, ix, i), s') ->
    0 <= u < num_users /\
    exists b e v, row_of indptr u b e /\ b <= ix < e /\ e <= len vals /\
      item_at indices ix = Some i /\ value_at vals ix = Some v /\
      f_leb positive_thresh v = true.
Proof.
  intros Pn Ok. split; [apply sample_positive_example_safe; assumption | ].
  intros u ix i s' E.
  exact (sample_positive_example_row fuel positive_thresh num_users vals indices indptr
           s s' u ix i Pn Ok E).
Qed.

(** X5. On a row that lies within [indices] and [vals],
    [sample_negative_example] stays within its buffers, and an item it
    returns is below [num_items] and is one the row does not hold or holds
    first with a rating strictly below [vals[ix]]. *)
Theorem sample_negative_example_well_formed (fuel : nat) (num_items : Z) (vals : list T)
    (indices : list Z) (b e ix : Z) (vi : T) (s : rng) :
  1 <= num_items ->
  0 <= b <= e -> e <= len indices -> e <= len vals ->
  np_get vals ix = Done vi ->
  safe (fst (sample_negative_example fuel num_items vals indices b e ix s)) /\
  forall j s',
    sample_negative_example fuel num_items vals indices b e ix s = (Done j, s') ->
    0 <= j < num_items /\ candidate_ok vals indices b e ix j.
Proof.
  intros Pn Rb Le Lv Vi. split; [apply sample_negative_example_safe with (vi := vi); assumption | ].
  intros j s' E. apply sample_negative_example_Done in E.
  destruct E as (_ & Rj & Bj & Ok). rewrite Z.max_r in Ok by lia.
  split; [ | exact Ok]. specialize (Bj ltac:(lia)). lia.
Qed.

End Sampling.

(** ** Acceptance and rejection of a candidate *)

Lemma first_match_unique (indices : list Z) (b e item p q : Z) :
  first_match indices b e item p -> first_match indices b e item q -> p = q.
Proof.
  intros (Rp & Ip & Ap) (Rq & Iq & Aq).
  destruct (Z.lt_trichotomy p q) as [L | [E | L]]; [ | exact E | ].
  - exfalso. apply (Aq p); [lia | exact Ip].
  - exfalso. apply (Ap q); [lia | exact Iq].
Qed.

Lemma scan_row_absent (indices : list Z) (j b e : Z) :
  0 <= b <= e -> e <= len indices -> absent indices b e j ->
  scan_row indices j b (Z.to_nat (e - b)) = Done None.
Proof.
  intros Rb Le A.
  destruct (scan_row_total indices j (Z.to_nat (e - b)) b ltac:(lia) ltac:(lia))
    as (r & E & _).
  destruct r as [jx | ]; [ | exact E].
  exfalso. apply scan_row_Some in E. rewrite scan_span, Z.max_r in E by lia.
  destruct E as (R & I & _). exact (A jx R I).
Qed.

Lemma scan_row_first_match (indices : list Z) (j b e jx : Z) :
  0 <= b <= e -> e <= len indices -> first_match indices b e j jx ->
  scan_row indices j b (Z.to_nat (e - b)) = Done (Some jx).
Proof.
  intros Rb Le Fm.
  destruct (scan_row_total indices j (Z.to_nat (e - b)) b ltac:(lia) ltac:(lia))
    as (r & E & _).
  destruct r as [q | ].
  - pose proof (scan_row_Some _ _ _ _ _ E) as Fq.
    rewrite scan_span, Z.max_r in Fq by lia.
    rewrite (first_match_unique _ _ _ _ _ _ Fm Fq). exact E.
  - exfalso. apply scan_row_None in E. rewrite scan_span, Z.max_r in E by lia.
    destruct Fm as (R & I & _). exact (E jx R I).
Qed.

Section Candidates.
Context {T : Type} `{Floating T}.

(** X6. One draw of [sample_negative_example] on a row within [indices]:
    the drawn item [j] is returned at once when the row does not hold it;
    when the row holds it, only the rating [vj] at its first position is
    compared with [vals[ix]], and [j] is returned when [vj] is strictly lower
    and another item is drawn otherwise. *)
Theorem sample_negative_example_one_draw (fuel : nat) (num_items : Z) (vals : list T)
    (indices : list Z) (b e ix : Z) (vi : T) (s : rng) :
  1 <= num_items -> 0 <= b <= e -> e <= len indices ->
  np_get vals ix = Done vi ->
  (absent indices b e (draw s mod num_items) ->
   sample_negative_example (S fuel) num_items vals indices b e ix s
     = (Done (draw s mod num_items), advance 1 s)) /\
  (forall jx vj,
     first_match indices b e (draw s mod num_items) jx -> value_at vals jx = Some vj ->
     sample_negative_example (S fuel) num_items vals indices b e ix s
       = if f_ltb vj vi then (Done (draw s mod num_items), advance 1 s)
         else sample_negative_example fuel num_items vals indices b e ix (advance 1 s)).
Proof.
  intros Pn Rb Le Vi. split.
  - intros A. apply sample_negative_example_unrated; [lia | ].
    apply scan_row_absent; assumption.
  - intros jx vj Fm Vj.
    pose proof (scan_row_first_match _ _ _ _ _ Rb Le Fm) as Sc.
    apply buf_get_value in Vj.
    destruct (f_ltb vj vi) eqn:Lt.
    + apply (sample_negative_example_lower fuel num_items vals indices b e ix s jx vj vi);
        try assumption; lia.
    + apply (sample_negative_example_reject fuel num_items vals indices b e ix s jx vj vi);
        try assumption; lia.
Qed.

Lemma safe_not_Done {A : Type} (o : outcome A) :
  safe o -> (forall a, o <> Done a) -> o = OutOfFuel.
Proof.
  intros Sf N. destruct o as [a | ex | | ]; try contradiction; [ | reflexivity].
  exfalso. exact (N a eq_refl).
Qed.

(** X7. [sample_negative_example] never returns when no item can be
    accepted: if the row holds every item below [num_items], each first with
    a rating that is not strictly below [vals[ix]], the loop rejects every
    draw, whatever the random source and however long it runs. *)
Theorem sample_negative_example_no_candidate (num_items : Z) (vals : list T)
    (indices : list Z) (b e ix : Z) (vi : T) :
  1 <= num_items -> 0 <= b <= e -> e <= len indices -> e <= len vals ->
  np_get vals ix = Done vi ->
  (forall j, 0 <= j < num_items ->
     exists jx vj, first_match indices b e j jx /\ value_at vals jx = Some vj /\
       f_ltb vj vi = false) ->
  forall fuel s,
    fst (sample_negative_example fuel num_items vals indices b e ix s) = OutOfFuel.
Proof.
  intros Pn Rb Le Lv Vi All fuel s. apply safe_not_Done.
  - apply sample_negative_example_safe with (vi := vi); assumption.
  - intros j E.
    destruct (sample_negative_example fuel num_items vals indices b e ix s) as [o s'] eqn:D.
    cbn [fst] in E. subst o.
    apply sample_negative_example_Done in D. destruct D as (_ & Rj & Bj & Ok).
    specialize (Bj ltac:(lia)). rewrite Z.max_r in Ok by lia.
    destruct (All j ltac:(lia)) as (jx & vj & Fm & Vj & Lt).
    destruct Ok as [A | (jx' & vj' & vi' & Fm' & Vj' & Vi' & Lt')].
    + destruct Fm as (R & I & _). exact (A jx R I).
    + rewrite (first_match_unique _ _ _ _ _ _ Fm' Fm) in Vj'.
      rewrite Vi in Vi'. inversion Vi'. subst vi'.
      rewrite Vj in Vj'. inversion Vj'. subst vj'. congruence.
Qed.

(** X8. [sample_positive_example] never returns when no rating of a user
    below [num_users] reaches the threshold (all rows empty, all ratings
    below it, or a threshold that compares false with everything): on a
    well-formed matrix it runs on without a fault, whatever the draws. *)
Theorem sample_positive_example_no_positive (positive_thresh : T) (num_users : Z)
    (vals : list T) (indices indptr : list Z) :
  1 <= num_users -> csr_ok num_users vals indices indptr ->
  (forall u b e ix v, 0 <= u < num_users -> row_of indptr u b e -> b <= ix < e ->
     value_at vals ix = Some v -> f_leb positive_thresh v = false) ->
  forall fuel s,
    fst (sample_positive_example fuel positive_thresh num_users vals indices indptr s)
      = OutOfFuel.
Proof.
  intros Pn Ok No fuel s. apply safe_not_Done.
  - apply sample_positive_example_safe; assumption.
  - intros [[u ix] i] E.
    destruct (sample_positive_example fuel positive_thresh num_users vals indices indptr s)
      as [o s'] eqn:D.
    cbn [fst] in E. subst o.
    apply (sample_positive_example_row fuel) in D; [ | assumption | assumption].
    destruct D as (Ru & b & e & v & Ro & Rx & _ & _ & Vx & Tv).
    rewrite (No u b e ix v Ru Ro Rx Vx) in Tv. discriminate Tv.
Qed.

(** X9. Hence [warp_sample] never returns on such a matrix: with
    well-formed inputs and no rating at or above [positive_thresh], the call
    runs on without a fault for every random source. *)
Theorem warp_sample_no_positive (k : nat) (U V : matrix T) (vals : list T)
    (indices indptr : list Z) (positive_thresh : T) (max_trials : Z) :
  factors_ok k U -> factors_ok k V ->
  csr_ok (len U) vals indices indptr -> items_ok (len V) indices ->
  0 <= max_trials < UINT_MOD ->
  (forall u b e ix v, 0 <= u < len U -> row_of indptr u b e -> b <= ix < e ->
     value_at vals ix = Some v -> f_leb positive_thresh v = false) ->
  forall fuel s,
    fst (warp_sample fuel U V vals indices indptr positive_thresh max_trials s) = OutOfFuel.
Proof.
  intros Fu Fv Ok Io Rm No fuel s.
  assert (Tu : to_uint (len U) = len U)
    by (apply to_uint_small; destruct Fu as [Fu _]; lia).
  apply safe_not_Done.
  - unfold warp_sample. rewrite Tu. apply (warp_loop_safe fuel fuel k); assumption.
  - intros [[[[u i] j] N] tot] E.
    destruct (warp_sample fuel U V vals indices indptr positive_thresh max_trials s)
      as [o s'] eqn:D.
    cbn [fst] in E. subst o. unfold warp_sample in D. rewrite Tu in D.
    apply warp_loop_last_round in D.
    destruct D as (s0 & s1 & ix & b & e & _ & Ep & _).
    apply (sample_positive_example_row fuel) in Ep;
      [ | destruct Fu as [Fu _]; lia | assumption].
    destruct Ep as (Ru & b' & e' & v & Ro & Rx & _ & _ & Vx & Tv).
    rewrite (No u b' e' ix v Ru Ro Rx Vx) in Tv. discriminate Tv.
Qed.

End Candidates.

(** ** The update of one row *)

Section RowUpdate.
Context {T : Type} `{Floating T}.

(** With a radius [C] equal to zero the division [sqrt(...)/C] raises, after
    [gamma*delta] has been added to the row in place. *)
Lemma update_row_zero_radius (gamma C : T) (i : Z) (s : store T) (row : Z)
    (delta t x : vector T) (p : nat) :
  buf_get (rows s) i = Done row ->
  np_get (deltas s) i = Done delta ->
  np_pos (len (F s)) row = Some p ->
  F s !! p = Some t ->
  np_iadd t (np_scale gamma delta) = Done x ->
  f_eqb C f_zero = true ->
  update_row gamma C i s
    = (Raised ZeroDivisionError,
       {| F := set_row (F s) p x; rows := rows s; delta_mem := delta_mem s |}).
Proof.
  intros Gr Gd P L A Cz.
  assert (Lp : (p < length (F s))%nat) by (apply lookup_lt_Some with (x := t); exact L).
  unfold update_row.
  unfold bind at 1, get at 1.
  unfold bind at 1, lift at 1. rewrite Gr.
  unfold bind at 1, lift at 1. rewrite Gd.
  unfold bind at 1, get_row at 1. rewrite (np_get_pos _ _ _ _ P L).
  unfold bind at 1, lift at 1. rewrite A.
  unfold bind at 1, put_row at 1. rewrite P.
  unfold bind at 1, get_row at 1. cbn [F rows deltas].
  assert (P1 : np_pos (len (set_row (F s) p x)) row = Some p).
  { unfold len, set_row. rewrite length_insert. exact P. }
  assert (L1 : set_row (F s) p x !! p = Some x).
  { unfold set_row. apply list_lookup_insert_eq. exact Lp. }
  rewrite (np_get_pos _ _ _ _ P1 L1).
  unfold bind at 1, lift at 1. rewrite np_dot_self.
  unfold bind at 1, lift at 1. unfold py_div. rewrite Cz. reflexivity.
Qed.

(** What a returning iteration of the loop has read and written. *)
Lemma update_row_Done (gamma C : T) (i : Z) (s s' : store T) :
  update_row gamma C i s = (Done tt, s') ->
  exists row delta p t x,
    buf_get (rows s) i = Done row /\ np_get (deltas s) i = Done delta /\
    np_pos (len (F s)) row = Some p /\ F s !! p = Some t /\
    np_iadd t (np_scale gamma delta) = Done x /\ f_eqb C f_zero = false /\
    s' = {| F := set_row (F s) p (project C x); rows := rows s; delta_mem := delta_mem s |}.
Proof.
  intros E0. pose proof E0 as E. unfold update_row in E.
  apply bind_Done in E. destruct E as (s0 & s1 & D & E).
  unfold get in D. inversion D. subst s0 s1. clear D.
  apply bind_Done in E. destruct E as (row & s1 & D & E).
  apply lift_Done in D. destruct D as [Gr ->].
  apply bind_Done in E. destruct E as (delta & s1 & D & E).
  apply lift_Done in D. destruct D as [Gd ->].
  apply bind_Done in E. destruct E as (t & s1 & D & E).
  unfold get_row in D. inversion D as [[Gt Es]]. clear D. subst s1.
  apply bind_Done in E. destruct E as (x & s2 & D & _).
  apply lift_Done in D. destruct D as [A _].
  unfold np_get in Gt.
  destruct (np_pos (len (F s)) row) as [p | ] eqn:P; [ | discriminate Gt].
  destruct (F s !! p) as [t0 | ] eqn:L; [ | discriminate Gt].
  inversion Gt. subst t0. clear Gt.
  exists row, delta, p, t, x.
  destruct (f_eqb C f_zero) eqn:Cz.
  - rewrite (update_row_zero_radius gamma C i s row delta t x p Gr Gd P L A Cz) in E0.
    discriminate E0.
  - rewrite (update_row_run gamma C i s row delta t x p Gr Gd P L A Cz) in E0.
    injection E0 as <-. unfold project. repeat split; assumption.
Qed.

Lemma for_range_nil {S : Type} (body : Z -> M S unit) (i : Z) (s : S) :
  for_range body i 0 s = (Done tt, s).
Proof. reflexivity. Qed.

Lemma for_range_Done {S : Type} (body : Z -> M S unit) (i : Z) (n : nat) (s s' : S) :
  for_range body i (Datatypes.S n) s = (Done tt, s') ->
  exists s1, body i s = (Done tt, s1) /\ for_range body (i + 1) n s1 = (Done tt, s').
Proof.
  intros E. cbn [for_range] in E. apply bind_Done in E.
  destruct E as ([] & s1 & D & E). exists s1. auto.
Qed.

Lemma apply_updates_Done (gamma C : T) (s s' : store T) :
  len (rows s) < UINT_MOD ->
  apply_updates gamma C s = (Done tt, s') ->
  length (rows s) = length (deltas s) /\
  for_range (update_row gamma C) 0 (length (rows s)) s = (Done tt, s').
Proof.
  intros Ln E. unfold apply_updates in E. unfold bind at 1, get at 1 in E.
  destruct (length (rows s) =? length (deltas s))%nat eqn:Q; [ | discriminate E].
  apply Nat.eqb_eq in Q. split; [exact Q | ].
  rewrite to_uint_small in E by (unfold len in *; lia).
  unfold len in E. rewrite Nat2Z.id in E. exact E.
Qed.

End RowUpdate.

(** ** The loop of [apply_updates] *)

Lemma np_pos_lt (n k : Z) (p : nat) : np_pos n k = Some p -> Z.of_nat p < n.
Proof.
  unfold np_pos.
  destruct ((0 <=? k) && (k <? n)) eqn:A.
  - apply andb_prop in A. destruct A as [A B]. apply Z.leb_le in A. apply Z.ltb_lt in B.
    intros E. inversion E. lia.
  - destruct ((- n <=? k) && (k <? 0)) eqn:B; [ | intros E; discriminate E].
    apply andb_prop in B. destruct B as [B D]. apply Z.leb_le in B. apply Z.ltb_lt in D.
    intros E. inversion E. lia.
Qed.

Lemma np_pos_in_range (n k : Z) : - n <= k < n -> exists p, np_pos n k = Some p.
Proof.
  intros R. unfold np_pos.
  destruct (0 <=? k) eqn:A.
  - apply Z.leb_le in A.
    replace (k <? n) with true by (symmetry; apply Z.ltb_lt; lia). eauto.
  - apply Z.leb_gt in A. cbn [andb].
    replace (- n <=? k) with true by (symmetry; apply Z.leb_le; lia).
    replace (k <? 0) with true by (symmetry; apply Z.ltb_lt; lia). eauto.
Qed.

Lemma np_pos_Some_range (n k : Z) (p : nat) : np_pos n k = Some p -> - n <= k < n.
Proof.
  unfold np_pos.
  destruct ((0 <=? k) && (k <? n)) eqn:A.
  - apply andb_prop in A. destruct A as [A B]. apply Z.leb_le in A. apply Z.ltb_lt in B. lia.
  - destruct ((- n <=? k) && (k <? 0)) eqn:B; [ | intros E; discriminate E].
    apply andb_prop in B. destruct B as [B D]. apply Z.leb_le in B. apply Z.ltb_lt in D. lia.
Qed.

Section Loop.
Context {T : Type} `{Floating T}.

Lemma update_row_resolved (gamma C : T) (i : nat) (s s' : store T) :
  update_row gamma C (Z.of_nat i) s = (Done tt, s') ->
  exists delta p t x,
    resolved s i p /\ deltas s !! i = Some delta /\ F s !! p = Some t /\
    np_iadd t (np_scale gamma delta) = Done x /\ f_eqb C f_zero = false /\
    s' = {| F := set_row (F s) p (project C x); rows := rows s; delta_mem := delta_mem s |}.
Proof.
  intros E. apply update_row_Done in E.
  destruct E as (row & delta & p & t & x & Gr & Gd & P & L & A & Cz & ->).
  apply buf_get_Done in Gr. destruct Gr as [_ Gr]. rewrite Nat2Z.id in Gr.
  apply np_get_nonneg in Gd; [ | lia]. unfold value_at in Gd.
  replace (Z.of_nat i <? 0) with false in Gd by (symmetry; apply Z.ltb_ge; lia).
  rewrite Nat2Z.id in Gd.
  exists delta, p, t, x. repeat split; try assumption. exists row. auto.
Qed.

Lemma resolved_set_row (s : store T) (p : nat) (y : vector T) (k q : nat) :
  resolved {| F := set_row (F s) p y; rows := rows s; delta_mem := delta_mem s |} k q
  <-> resolved s k q.
Proof.
  unfold resolved. cbn [F rows]. unfold set_row, len. rewrite length_insert. tauto.
Qed.

Lemma deltas_own (s s1 : store T) (d : matrix T) :
  delta_mem s = Own d -> delta_mem s1 = delta_mem s -> deltas s1 = deltas s.
Proof. intros Ow E. unfold deltas. rewrite E, Ow. reflexivity. Qed.

(** The iterations [i .. i+n-1] of the loop, when they name distinct rows
    and [deltas] has a memory of its own: each named row is moved and
    projected once, from its initial value, and the rows that none of them
    names stay as they are. *)
Lemma for_range_distinct (gamma C : T) (n : nat) (i : nat) (s s' : store T) (d : matrix T) :
  delta_mem s = Own d ->
  for_range (update_row gamma C) (Z.of_nat i) n s = (Done tt, s') ->
  (forall k1 k2 p, (i <= k1 < i + n)%nat -> (i <= k2 < i + n)%nat ->
     resolved s k1 p -> resolved s k2 p -> k1 = k2) ->
  (forall q, (forall k, (i <= k < i + n)%nat -> ~ resolved s k q) -> F s' !! q = F s !! q) /\
  (forall k, (i <= k < i + n)%nat ->
     exists delta p t x,
       resolved s k p /\ deltas s !! k = Some delta /\ F s !! p = Some t /\
       np_iadd t (np_scale gamma delta) = Done x /\ F s' !! p = Some (project C x)).
Proof.
  revert i s. induction n as [ | n IH]; intros i s Ow E Di.
  - inversion E. subst s'. split; [reflexivity | intros k R; lia].
  - apply for_range_Done in E. destruct E as (s1 & E1 & E).
    apply update_row_resolved in E1.
    destruct E1 as (delta & p & t & x & Rp & Gd & L & A & _ & ->).
    replace (Z.of_nat i + 1) with (Z.of_nat (S i)) in E by lia.
    set (s1 := {| F := set_row (F s) p (project C x); rows := rows s;
                  delta_mem := delta_mem s |}) in *.
    assert (Ed : deltas s1 = deltas s) by (apply deltas_own with (d := d); auto).
    assert (Di1 : forall k1 k2 q, (S i <= k1 < S i + n)%nat -> (S i <= k2 < S i + n)%nat ->
                    resolved s1 k1 q -> resolved s1 k2 q -> k1 = k2).
    { intros k1 k2 q R1 R2 Q1 Q2. apply resolved_set_row in Q1, Q2.
      apply (Di k1 k2 q); try assumption; lia. }
    destruct (IH (S i) s1 Ow E Di1) as [Un Up].
    assert (Lp : (p < length (F s))%nat) by (apply lookup_lt_Some with (x := t); exact L).
    split.
    + intros q No. rewrite Un.
      * unfold s1. cbn [F]. unfold set_row. apply list_lookup_insert_ne.
        intros ->. exact (No i ltac:(lia) Rp).
      * intros k R Q. apply resolved_set_row in Q. exact (No k ltac:(lia) Q).
    + intros k R. destruct (Nat.eq_dec k i) as [-> | Ne].
      * exists delta, p, t, x. repeat split; try assumption.
        rewrite Un.
        -- unfold s1. cbn [F]. unfold set_row. apply list_lookup_insert_eq. exact Lp.
        -- intros k R1 Q. apply resolved_set_row in Q.
           assert (k = i) by (apply (Di k i p); try assumption; lia). lia.
      * destruct (Up k ltac:(lia)) as (delta' & p' & t' & x' & Rp' & Gd' & L' & A' & Fin).
        apply resolved_set_row in Rp'. rewrite Ed in Gd'.
        exists delta', p', t', x'. repeat split; try assumption.
        unfold s1 in L'. cbn [F] in L'. unfold set_row in L'.
        rewrite list_lookup_insert_ne in L'; [exact L' | ].
        intros ->. apply Ne. apply (Di k i p'); try assumption; lia.
Qed.

(** X10. When the entries of [rows] name distinct rows of [F] and
    [deltas] does not share the memory of [F], a returning call of
    [apply_updates] leaves in each named row the projection of
    [F[row] + gamma * delta] computed from the row's initial value (divided
    by [p], the ratio of its norm to [C] held in a C [float], when [p > 1]);
    the order of [rows] has no influence. *)
Theorem apply_updates_distinct_rows (gamma C : T) (s s' : store T) (d : matrix T) :
  len (rows s) < UINT_MOD -> distinct_rows s -> delta_mem s = Own d ->
  apply_updates gamma C s = (Done tt, s') ->
  forall k p, resolved s k p ->
    exists delta t x,
      deltas s !! k = Some delta /\ F s !! p = Some t /\
      np_iadd t (np_scale gamma delta) = Done x /\ F s' !! p = Some (project C x).
Proof.
  intros Ln Di Ow E k p Rp. apply apply_updates_Done in E; [ | exact Ln].
  destruct E as [_ E].
  assert (Rk : (0 <= k < 0 + length (rows s))%nat).
  { destruct Rp as (row & Lk & _). apply lookup_lt_Some in Lk. lia. }
  destruct (for_range_distinct gamma C (length (rows s)) 0 s s' d Ow E
              ltac:(intros k1 k2 q _ _; apply Di)) as [_ Up].
  destruct (Up k Rk) as (delta & p' & t & x & Rp' & Gd & L & A & Fin).
  assert (Ep : p' = p).
  { destruct Rp as (row & Lk & P), Rp' as (row' & Lk' & P').
    rewrite Lk in Lk'. inversion Lk'. subst row'. rewrite P in P'. inversion P'. reflexivity. }
  subst p'. exists delta, t, x. auto.
Qed.

Lemma for_range_requires (gamma C : T) (n : nat) (i : nat) (s s' : store T) :
  for_range (update_row gamma C) (Z.of_nat i) n s = (Done tt, s') ->
  (forall k, (i <= k < i + n)%nat -> exists p, resolved s k p) /\
  (n <> 0%nat -> f_eqb C f_zero = false).
Proof.
  revert i s. induction n as [ | n IH]; intros i s E.
  - split; [intros k R; lia | intros N; contradiction].
  - apply for_range_Done in E. destruct E as (s1 & E1 & E).
    apply update_row_resolved in E1.
    destruct E1 as (delta & p & t & x & Rp & _ & _ & _ & Cz & ->).
    replace (Z.of_nat i + 1) with (Z.of_nat (S i)) in E by lia.
    destruct (IH (S i) _ E) as [Re _].
    split; [ | intros _; exact Cz].
    intros k R. destruct (Nat.eq_dec k i) as [-> | Ne]; [exists p; exact Rp | ].
    destruct (Re k ltac:(lia)) as [q Q]. apply resolved_set_row in Q. exists q. exact Q.
Qed.

(** X11. What a returning call of [apply_updates] required: as many
    deltas as rows, every entry of [rows] an index [-len(F) <= row < len(F)],
    and, when there is a row to update, a radius [C] other than zero. With
    any of these missing the call raises. *)
Theorem apply_updates_requires (gamma C : T) (s s' : store T) :
  len (rows s) < UINT_MOD ->
  apply_updates gamma C s = (Done tt, s') ->
  length (rows s) = length (deltas s) /\
  Forall (fun row => - len (F s) <= row < len (F s)) (rows s) /\
  (rows s <> [] -> f_eqb C f_zero = false).
Proof.
  intros Ln E. apply apply_updates_Done in E; [ | exact Ln].
  destruct E as [El E].
  apply (for_range_requires gamma C (length (rows s)) 0) in E. destruct E as [Re Cz].
  split; [exact El | split].
  - apply Forall_lookup. intros k row Lk.
    destruct (Re k) as (p & row' & Lk' & P).
    + apply lookup_lt_Some in Lk. lia.
    + rewrite Lk in Lk'. inversion Lk'. subst row'. exact (np_pos_Some_range _ _ _ P).
  - intros Ne. apply Cz. destruct (rows s); [contradiction | discriminate].
Qed.

Lemma project_length (C : T) (x : vector T) : length (project C x) = length x.
Proof.
  unfold project. destruct (f_ltb f_one (f_single (f_div (norm x) C))); [ | reflexivity].
  unfold np_idiv. apply length_map.
Qed.

Lemma np_iadd_same_length (gamma : T) (t delta : vector T) :
  length delta = length t ->
  exists x, np_iadd t (np_scale gamma delta) = Done x /\ length x = length t.
Proof.
  intros El. unfold np_iadd, np_scale. rewrite length_map, El, Nat.eqb_refl.
  eexists. split; [reflexivity | ].
  rewrite length_map, length_combine, length_map. lia.
Qed.

(** The conditions survive a write of a row of the same length to [F],
    also when [deltas] is a view of [F]. *)
Lemma update_ok_set_row (k : nat) (s : store T) (p : nat) (y : vector T) :
  update_ok k s -> length y = k ->
  update_ok k {| F := set_row (F s) p y; rows := rows s; delta_mem := delta_mem s |}.
Proof.
  unfold update_ok, deltas. cbn [F rows delta_mem]. unfold set_row, len.
  intros (El & Lr & Fr & Ff & Fd) Ky.
  assert (Ff' : Forall (fun t => length t = k) (<[p := y]> (F s)))
    by (apply Forall_insert; assumption).
  rewrite length_insert.
  destruct (delta_mem s) as [d | start count].
  - auto.
  - split; [ | split; [exact Lr | split; [exact Fr | split; [exact Ff' | ]]]].
    + rewrite El, !length_take, !length_drop, length_insert. reflexivity.
    + apply Forall_take, Forall_drop. exact Ff'.
Qed.

Lemma for_range_returns (gamma C : T) (k : nat) (n : nat) (i : nat) (s : store T) :
  update_ok k s -> f_eqb C f_zero = false -> (i + n <= length (rows s))%nat ->
  exists s', for_range (update_row gamma C) (Z.of_nat i) n s = (Done tt, s') /\
    update_ok k s'.
Proof.
  revert i s. induction n as [ | n IH]; intros i s Ok Cz Ln.
  - exists s. split; [reflexivity | exact Ok].
  - pose proof Ok as (El & Lr & Fr & Ff & Fd).
    destruct (lookup_lt_is_Some_2 (rows s) i ltac:(lia)) as [row Lk].
    destruct (lookup_lt_is_Some_2 (deltas s) i ltac:(lia)) as [delta Ld].
    rewrite Forall_lookup in Fr. pose proof (Fr _ _ Lk) as Rr.
    destruct (np_pos_in_range _ _ Rr) as [p P].
    pose proof (np_pos_lt _ _ _ P) as Lp. unfold len in Lp.
    destruct (lookup_lt_is_Some_2 (F s) p ltac:(lia)) as [t L].
    rewrite Forall_lookup in Ff. pose proof (Ff _ _ L) as Kt.
    rewrite Forall_lookup in Fd. pose proof (Fd _ _ Ld) as Kd.
    destruct (np_iadd_same_length gamma t delta ltac:(lia)) as (x & A & Kx).
    assert (Gr : buf_get (rows s) (Z.of_nat i) = Done row).
    { apply buf_get_Done. rewrite Nat2Z.id. split; [lia | exact Lk]. }
    assert (Gd : np_get (deltas s) (Z.of_nat i) = Done delta).
    { destruct (np_get_in_bounds (deltas s) (Z.of_nat i) ltac:(unfold len; lia))
        as (d & Gd & Ld').
      rewrite Nat2Z.id, Ld in Ld'. inversion Ld'. subst d. exact Gd. }
    pose proof (update_row_run gamma C (Z.of_nat i) s row delta t x p Gr Gd P L A Cz) as E1.
    fold (project C x) in E1.
    set (s1 := {| F := set_row (F s) p (project C x); rows := rows s; delta_mem := delta_mem s |})
      in *.
    assert (Ok1 : update_ok k s1).
    { apply update_ok_set_row; [exact Ok | rewrite project_length; lia]. }
    destruct (IH (S i) s1 Ok1 Cz ltac:(unfold s1; cbn [rows]; lia)) as (s' & E & Ok').
    exists s'. split; [ | exact Ok'].
    cbn [for_range]. rewrite (bind_step _ _ _ _ _ E1).
    replace (Z.of_nat i + 1) with (Z.of_nat (S i)) by lia. exact E.
Qed.

(** On such arrays one call returns and keeps the conditions. *)
Lemma apply_updates_runs (gamma C : T) (k : nat) (s : store T) :
  update_ok k s -> f_eqb C f_zero = false ->
  exists s', apply_updates gamma C s = (Done tt, s') /\ update_ok k s'.
Proof.
  intros Ok Cz. pose proof Ok as (El & Lr & _).
  destruct (for_range_returns gamma C k (length (rows s)) 0 s Ok Cz ltac:(lia))
    as (s' & E & Ok').
  exists s'. split; [ | exact Ok'].
  unfold apply_updates. unfold bind at 1, get at 1.
  rewrite El, Nat.eqb_refl.
  rewrite to_uint_small by (unfold len in *; lia).
  unfold len. rewrite Nat2Z.id. exact E.
Qed.

(** X12. When [apply_updates] returns: with as many deltas as rows, every
    entry of [rows] an index into [F], rows and deltas of one length [k] and
    a radius [C] other than zero, the call returns, and so does any number
    of calls in a row, the arrays satisfying the same conditions after each. *)
Theorem apply_updates_times_returns (gamma C : T) (k : nat) (n : nat) (s : store T) :
  update_ok k s -> f_eqb C f_zero = false ->
  exists s', apply_updates_times n gamma C s = (Done tt, s') /\ update_ok k s'.
Proof.
  intros Ok Cz. revert s Ok. induction n as [ | n IH]; intros s Ok.
  - exists s. split; [reflexivity | exact Ok].
  - destruct (apply_updates_runs gamma C k s Ok Cz) as (s1 & E1 & Ok1).
    destruct (IH s1 Ok1) as (s' & E & Ok').
    exists s'. split; [ | exact Ok'].
    cbn [apply_updates_times]. rewrite (bind_step _ _ _ _ _ E1). exact E.
Qed.

(** X13. A radius [C] equal to zero makes [apply_updates] raise
    [ZeroDivisionError] on its first row, and only after [gamma * delta] has
    been added to that row: the failed call has changed [F]. *)
Theorem apply_updates_zero_radius (gamma C : T) (s : store T) (row : Z) (rest : list Z)
    (delta t x : vector T) (p : nat) :
  rows s = row :: rest -> length (rows s) = length (deltas s) ->
  len (rows s) < UINT_MOD ->
  np_get (deltas s) 0 = Done delta ->
  np_pos (len (F s)) row = Some p -> F s !! p = Some t ->
  np_iadd t (np_scale gamma delta) = Done x ->
  f_eqb C f_zero = true ->
  apply_updates gamma C s
    = (Raised ZeroDivisionError,
       {| F := set_row (F s) p x; rows := rows s; delta_mem := delta_mem s |}).
Proof.
  intros Er El Ln Gd P L A Cz.
  assert (Gr : buf_get (rows s) 0 = Done row).
  { apply buf_get_Done. rewrite Er. split; [lia | reflexivity]. }
  unfold apply_updates. unfold bind at 1, get at 1.
  rewrite <- El, Nat.eqb_refl.
  rewrite to_uint_small by (unfold len in *; lia).
  unfold len. rewrite Nat2Z.id, Er. cbn [length for_range].
  unfold bind at 1.
  rewrite (update_row_zero_radius gamma C 0 s row delta t x p Gr Gd P L A Cz).
  rewrite Er. reflexivity.
Qed.

End Loop.

(** ** The search for a violating item *)

Section ViolatingSearch.
Context {T : Type} `{Floating T}.

(** X15. On factor matrices of rows of one length, a row of ratings
    within [indices] and [vals], and a [max_trials] that is at least 0 and
    below [2^32], [sample_violating_negative_example] stays within its
    buffers and raises nothing; it reports either no item ([j = -1], with
    [N = max_trials]) or an item [j] below the number of rows of [V],
    accepted against [ix], found at a trial [N] below [max_trials]. *)
Theorem sample_violating_negative_example_well_formed (fuel : nat) (k : nat)
    (U V : matrix T) (vals : list T) (indices : list Z) (b e u ix i max_trials : Z)
    (vi : T) (s : rng) :
  factors_ok k U -> factors_ok k V -> 0 <= u < len U -> 0 <= i < len V ->
  0 <= b <= e -> e <= len indices -> e <= len vals -> np_get vals ix = Done vi ->
  0 <= max_trials < UINT_MOD ->
  safe (fst (sample_violating_negative_example fuel U V vals indices b e u ix i
               max_trials s)) /\
  forall j N s',
    sample_violating_negative_example fuel U V vals indices b e u ix i max_trials s
      = (Done (j, N), s') ->
    (j = -1 /\ N = max_trials) \/
    (0 <= j < len V /\ 1 <= N <= max_trials - 1 /\ candidate_ok vals indices b e ix j).
Proof.
  intros Fu Fv Ru Ri Rb Le Lv Vi Rm. split.
  - apply sample_violating_negative_example_safe with (k := k) (vi := vi); assumption.
  - intros j N s' E. apply sample_violating_negative_example_Done in E.
    destruct E as [(Ej & EN & _) | (_ & Rn & Rj & Ok & _)]; [left; auto | right].
    rewrite Z.max_r in Ok by lia.
    split; [exact Rj | split; [apply Rn; lia | exact Ok]].
Qed.

End ViolatingSearch.

(** ** The properties at work *)

Lemma Scenario_factors_U : factors_ok 2 Scenario.U.
Proof.
  split; [rewrite UINT_MOD_eq; unfold len, Scenario.U; cbn [length]; lia | ].
  repeat constructor.
Qed.

Lemma Scenario_factors_V : factors_ok 2 Scenario.V.
Proof.
  split; [rewrite UINT_MOD_eq; unfold len, Scenario.V; cbn [length]; lia | ].
  repeat constructor.
Qed.

Lemma Scenario_csr_ok :
  csr_ok (len Scenario.U) Scenario.vals Scenario.indices Scenario.indptr.
Proof.
  unfold csr_ok, len, Scenario.U, Scenario.vals, Scenario.indices, Scenario.indptr.
  cbn [length]. rewrite INT_MAX_eq.
  split; [lia | split; [reflexivity | split; [lia | ]]].
  repeat constructor; lia.
Qed.

Lemma Scenario_items_ok : items_ok (len Scenario.V) Scenario.indices.
Proof.
  unfold items_ok, len, Scenario.V, Scenario.indices. cbn [length].
  repeat constructor; lia.
Qed.

Lemma small_trials : 0 <= 3 < UINT_MOD.
Proof. rewrite UINT_MOD_eq. lia. Qed.

Lemma Scenario_no_rating_reaches (thresh : float) :
  Forall (fun v => f_leb thresh v = false) Scenario.vals ->
  forall u b e ix v, 0 <= u < len Scenario.U -> row_of Scenario.indptr u b e -> b <= ix < e ->
    value_at Scenario.vals ix = Some v -> f_leb thresh v = false.
Proof.
  intros Fa u b e ix v _ _ _ Vx. unfold value_at in Vx.
  destruct (ix <? 0); [discriminate Vx | ].
  rewrite Forall_lookup in Fa. exact (Fa _ _ Vx).
Qed.

Lemma warp_sample_margin_violated_witness :
  warp_sample 5 Scenario.U Scenario.V Scenario.vals Scenario.indices Scenario.indptr
      5%float 3 (Scenario.source [0; 1; 0; 2; 3; 2; 9; 6; 0; 0; 5])
    = (Done (0, 2, 5, 1, 4), advance 11 (Scenario.source [0; 1; 0; 2; 3; 2; 9; 6; 0; 0; 5])) /\
  exists d dj, score Scenario.U Scenario.V 0 2 = Done d /\
    score Scenario.U Scenario.V 0 5 = Done dj /\
    f_ltb (f_sub (f_single d) dj) f_one = true.
Proof.
  split; [exact Scenario_run | ].
  exact (warp_sample_margin_violated 5 Scenario.U Scenario.V Scenario.vals Scenario.indices
           Scenario.indptr 5%float 3 (Scenario.source [0; 1; 0; 2; 3; 2; 9; 6; 0; 0; 5])
           (advance 11 (Scenario.source [0; 1; 0; 2; 3; 2; 9; 6; 0; 0; 5])) 0 2 5 1 4
           Scenario_run).
Defined.

Lemma warp_sample_reads_forward_witness :
  warp_sample 5 Scenario.U Scenario.V Scenario.vals Scenario.indices Scenario.indptr
      5%float 3 (Scenario.source [0; 1; 0; 2; 3; 2; 9; 6; 0; 0; 5])
    = (Done (0, 2, 5, 1, 4), advance 11 (Scenario.source [0; 1; 0; 2; 3; 2; 9; 6; 0; 0; 5])) /\
  tape (advance 11 (Scenario.source [0; 1; 0; 2; 3; 2; 9; 6; 0; 0; 5]))
    = tape (Scenario.source [0; 1; 0; 2; 3; 2; 9; 6; 0; 0; 5]) /\
  pos (Scenario.source [0; 1; 0; 2; 3; 2; 9; 6; 0; 0; 5]) + 2 + 1
    <= pos (advance 11 (Scenario.source [0; 1; 0; 2; 3; 2; 9; 6; 0; 0; 5])).
Proof.
  split; [exact Scenario_run | ].
  exact (warp_sample_reads_forward 5 Scenario.U Scenario.V Scenario.vals Scenario.indices
           Scenario.indptr 5%float 3 (Scenario.source [0; 1; 0; 2; 3; 2; 9; 6; 0; 0; 5])
           (advance 11 (Scenario.source [0; 1; 0; 2; 3; 2; 9; 6; 0; 0; 5])) 0 2 5 1 4
           Scenario_run).
Defined.

Lemma warp_sample_memory_safe_witness :
  factors_ok 2 Scenario.U /\ factors_ok 2 Scenario.V /\
  csr_ok (len Scenario.U) Scenario.vals Scenario.indices Scenario.indptr /\
  items_ok (len Scenario.V) Scenario.indices /\ 0 <= 3 < UINT_MOD /\
  safe (fst (warp_sample 5 Scenario.U Scenario.V Scenario.vals Scenario.indices
               Scenario.indptr 5%float 3 (Scenario.source [0; 1; 0; 2; 3; 2; 9; 6; 0; 0; 5]))).
Proof.
  split; [exact Scenario_factors_U | ].
  split; [exact Scenario_factors_V | ].
  split; [exact Scenario_csr_ok | ].
  split; [exact Scenario_items_ok | ].
  split; [exact small_trials | ].
  exact (warp_sample_memory_safe 5 2 Scenario.U Scenario.V Scenario.vals Scenario.indices
           Scenario.indptr 5%float 3 (Scenario.source [0; 1; 0; 2; 3; 2; 9; 6; 0; 0; 5])
           Scenario_factors_U Scenario_factors_V Scenario_csr_ok Scenario_items_ok
           small_trials).
Defined.

Lemma sample_positive_example_well_formed_witness :
  1 <= len Scenario.U /\
  csr_ok (len Scenario.U) Scenario.vals Scenario.indices Scenario.indptr /\
  safe (fst (sample_positive_example 5 5%float (len Scenario.U) Scenario.vals
               Scenario.indices Scenario.indptr (Scenario.source [0; 1; 0; 2]))) /\
  forall u ix i s',
    sample_positive_example 5 5%float (len Scenario.U) Scenario.vals
        Scenario.indices Scenario.indptr (Scenario.source [0; 1; 0; 2])
      = (Done (u, ix, i), s') ->
    0 <= u < len Scenario.U /\
    exists b e v, row_of Scenario.indptr u b e /\ b <= ix < e /\ e <= len Scenario.vals /\
      item_at Scenario.indices ix = Some i /\ value_at Scenario.vals ix = Some v /\
      f_leb 5%float v = true.
Proof.
  assert (P : 1 <= len Scenario.U) by (unfold len, Scenario.U; cbn [length]; lia).
  split; [exact P | split; [exact Scenario_csr_ok | ]].
  exact (sample_positive_example_well_formed 5 5%float (len Scenario.U) Scenario.vals
           Scenario.indices Scenario.indptr (Scenario.source [0; 1; 0; 2])
           P Scenario_csr_ok).
Defined.

Lemma Scenario_first_rating : np_get Scenario.vals 0 = Done 5%float.
Proof. reflexivity. Qed.

Lemma Scenario_row_bounds :
  1 <= 10 /\ 0 <= 0 <= 3 /\ 3 <= len Scenario.indices /\ 3 <= len Scenario.vals.
Proof. unfold len, Scenario.indices, Scenario.vals. cbn [length]. lia. Qed.

Lemma sample_negative_example_well_formed_witness :
  1 <= 10 /\ 0 <= 0 <= 3 /\ 3 <= len Scenario.indices /\ 3 <= len Scenario.vals /\
  np_get Scenario.vals 0 = Done 5%float /\
  safe (fst (sample_negative_example 5 10 Scenario.vals Scenario.indices 0 3 0
               (Scenario.source [2; 5]))) /\
  forall j s',
    sample_negative_example 5 10 Scenario.vals Scenario.indices 0 3 0 (Scenario.source [2; 5])
      = (Done j, s') ->
    0 <= j < 10 /\ candidate_ok Scenario.vals Scenario.indices 0 3 0 j.
Proof.
  destruct Scenario_row_bounds as (A & B & C & D).
  split; [exact A | split; [exact B | split; [exact C | split; [exact D | ]]]].
  split; [exact Scenario_first_rating | ].
  exact (sample_negative_example_well_formed 5 10 Scenario.vals Scenario.indices 0 3 0
           5%float (Scenario.source [2; 5]) A B C D Scenario_first_rating).
Defined.

Lemma sample_negative_example_one_draw_witness :
  1 <= 10 /\ 0 <= 0 <= 3 /\ 3 <= len Scenario.indices /\
  np_get Scenario.vals 0 = Done 5%float /\
  (absent Scenario.indices 0 3 (draw (Scenario.source [5]) mod 10) ->
   sample_negative_example 1 10 Scenario.vals Scenario.indices 0 3 0 (Scenario.source [5])
     = (Done (draw (Scenario.source [5]) mod 10), advance 1 (Scenario.source [5]))) /\
  (forall jx vj,
     first_match Scenario.indices 0 3 (draw (Scenario.source [5]) mod 10) jx ->
     value_at Scenario.vals jx = Some vj ->
     sample_negative_example 1 10 Scenario.vals Scenario.indices 0 3 0 (Scenario.source [5])
       = if f_ltb vj 5%float
         then (Done (draw (Scenario.source [5]) mod 10), advance 1 (Scenario.source [5]))
         else sample_negative_example 0 10 Scenario.vals Scenario.indices 0 3 0
                (advance 1 (Scenario.source [5]))).
Proof.
  destruct Scenario_row_bounds as (A & B & C & _).
  split; [exact A | split; [exact B | split; [exact C | ]]].
  split; [exact Scenario_first_rating | ].
  exact (sample_negative_example_one_draw 0 10 Scenario.vals Scenario.indices 0 3 0
           5%float (Scenario.source [5]) A B C Scenario_first_rating).
Defined.

(** A user who rated both items of a universe of two with 3: against
    either position no item is rated lower. *)
Lemma all_rated_alike (j : Z) :
  0 <= j < 2 ->
  exists jx vj, first_match [0; 1] 0 2 j jx /\ value_at [3; 3]%float jx = Some vj /\
    f_ltb vj 3%float = false.
Proof.
  intros R. assert (Cj : j = 0 \/ j = 1) by lia. destruct Cj as [-> | ->].
  - exists 0, 3%float. split; [ | split; reflexivity].
    split; [lia | split; [reflexivity | intros p Rp; lia]].
  - exists 1, 3%float. split; [ | split; reflexivity].
    split; [lia | split; [reflexivity | ]].
    intros p Rp. assert (p = 0) by lia. subst p. vm_compute. congruence.
Qed.

Lemma all_rated_alike_bounds :
  1 <= 2 /\ 0 <= 0 <= 2 /\ 2 <= len [0; 1] /\ 2 <= len [3; 3]%float.
Proof. unfold len. cbn [length]. lia. Qed.

Lemma sample_negative_example_no_candidate_witness :
  1 <= 2 /\ 0 <= 0 <= 2 /\ 2 <= len [0; 1] /\ 2 <= len [3; 3]%float /\
  np_get [3; 3]%float 0 = Done 3%float /\
  (forall j, 0 <= j < 2 ->
     exists jx vj, first_match [0; 1] 0 2 j jx /\ value_at [3; 3]%float jx = Some vj /\
       f_ltb vj 3%float = false) /\
  forall fuel s,
    fst (sample_negative_example fuel 2 [3; 3]%float [0; 1] 0 2 0 s) = OutOfFuel.
Proof.
  destruct all_rated_alike_bounds as (A & B & C & D).
  split; [exact A | split; [exact B | split; [exact C | split; [exact D | ]]]].
  split; [reflexivity | split; [exact all_rated_alike | ]].
  exact (sample_negative_example_no_candidate 2 [3; 3]%float [0; 1] 0 2 0 3%float
           A B C D eq_refl all_rated_alike).
Defined.

Lemma Scenario_below_6 : Forall (fun v => f_leb 6%float v = false) Scenario.vals.
Proof. repeat constructor. Qed.

Lemma sample_positive_example_no_positive_witness :
  1 <= len Scenario.U /\
  csr_ok (len Scenario.U) Scenario.vals Scenario.indices Scenario.indptr /\
  (forall u b e ix v, 0 <= u < len Scenario.U -> row_of Scenario.indptr u b e ->
     b <= ix < e -> value_at Scenario.vals ix = Some v -> f_leb 6%float v = false) /\
  forall fuel s,
    fst (sample_positive_example fuel 6%float (len Scenario.U) Scenario.vals
           Scenario.indices Scenario.indptr s) = OutOfFuel.
Proof.
  assert (P : 1 <= len Scenario.U) by (unfold len, Scenario.U; cbn [length]; lia).
  split; [exact P | split; [exact Scenario_csr_ok | ]].
  split; [exact (Scenario_no_rating_reaches 6%float Scenario_below_6) | ].
  exact (sample_positive_example_no_positive 6%float (len Scenario.U) Scenario.vals
           Scenario.indices Scenario.indptr P Scenario_csr_ok
           (Scenario_no_rating_reaches 6%float Scenario_below_6)).
Defined.

Lemma warp_sample_no_positive_witness :
  factors_ok 2 Scenario.U /\ factors_ok 2 Scenario.V /\
  csr_ok (len Scenario.U) Scenario.vals Scenario.indices Scenario.indptr /\
  items_ok (len Scenario.V) Scenario.indices /\ 0 <= 3 < UINT_MOD /\
  (forall u b e ix v, 0 <= u < len Scenario.U -> row_of Scenario.indptr u b e ->
     b <= ix < e -> value_at Scenario.vals ix = Some v -> f_leb 6%float v = false) /\
  forall fuel s,
    fst (warp_sample fuel Scenario.U Scenario.V Scenario.vals Scenario.indices
           Scenario.indptr 6%float 3 s) = OutOfFuel.
Proof.
  split; [exact Scenario_factors_U | ].
  split; [exact Scenario_factors_V | ].
  split; [exact Scenario_csr_ok | ].
  split; [exact Scenario_items_ok | ].
  split; [exact small_trials | ].
  split; [exact (Scenario_no_rating_reaches 6%float Scenario_below_6) | ].
  exact (warp_sample_no_positive 2 Scenario.U Scenario.V Scenario.vals Scenario.indices
           Scenario.indptr 6%float 3
           Scenario_factors_U Scenario_factors_V Scenario_csr_ok Scenario_items_ok
           small_trials (Scenario_no_rating_reaches 6%float Scenario_below_6)).
Defined.

Lemma three_four_run :
  apply_updates 1%float 1%float Rows.three_four
    = (Done tt, {| F := [[0.6; 0.8]%float]; rows := [0]; delta_mem := Own [[0; 0]%float] |}).
Proof. vm_compute. reflexivity. Qed.

Lemma three_four_short : len (rows Rows.three_four) < UINT_MOD.
Proof. rewrite UINT_MOD_eq. unfold len, Rows.three_four. cbn [rows length]. lia. Qed.

Lemma single_row_distinct {T : Type} (s : store T) :
  length (rows s) = 1%nat -> distinct_rows s.
Proof.
  intros L k1 k2 p (r1 & L1 & _) (r2 & L2 & _).
  apply lookup_lt_Some in L1, L2. lia.
Qed.

Lemma three_four_resolved : resolved Rows.three_four 0 0.
Proof. exists 0. split; reflexivity. Qed.

Lemma three_four_ok : update_ok 2 Rows.three_four.
Proof.
  unfold update_ok, len, Rows.three_four. cbn [F rows deltas length].
  rewrite UINT_MOD_eq.
  split; [reflexivity | split; [lia | split; [ | split]]]; repeat constructor; lia.
Qed.

Lemma apply_updates_distinct_rows_witness :
  len (rows Rows.three_four) < UINT_MOD /\ distinct_rows Rows.three_four /\
  delta_mem Rows.three_four = Own [[0; 0]%float] /\
  apply_updates 1%float 1%float Rows.three_four
    = (Done tt, {| F := [[0.6; 0.8]%float]; rows := [0]; delta_mem := Own [[0; 0]%float] |}) /\
  resolved Rows.three_four 0 0 /\
  exists delta t x,
    deltas Rows.three_four !! 0%nat = Some delta /\ F Rows.three_four !! 0%nat = Some t /\
    np_iadd t (np_scale 1%float delta) = Done x /\
    [[0.6; 0.8]%float] !! 0%nat = Some (project 1%float x).
Proof.
  split; [exact three_four_short | ].
  split; [exact (single_row_distinct Rows.three_four eq_refl) | ].
  split; [reflexivity | ].
  split; [exact three_four_run | ].
  split; [exact three_four_resolved | ].
  exact (apply_updates_distinct_rows 1%float 1%float Rows.three_four _ [[0; 0]%float]
           three_four_short (single_row_distinct Rows.three_four eq_refl) eq_refl
           three_four_run 0%nat 0%nat three_four_resolved).
Defined.

Lemma apply_updates_requires_witness :
  len (rows Rows.three_four) < UINT_MOD /\
  apply_updates 1%float 1%float Rows.three_four
    = (Done tt, {| F := [[0.6; 0.8]%float]; rows := [0]; delta_mem := Own [[0; 0]%float] |}) /\
  length (rows Rows.three_four) = length (deltas Rows.three_four) /\
  Forall (fun row => - len (F Rows.three_four) <= row < len (F Rows.three_four))
    (rows Rows.three_four) /\
  (rows Rows.three_four <> [] -> f_eqb 1%float f_zero = false).
Proof.
  split; [exact three_four_short | split; [exact three_four_run | ]].
  exact (apply_updates_requires 1%float 1%float Rows.three_four _
           three_four_short three_four_run).
Defined.

Lemma apply_updates_times_returns_witness :
  update_ok 2 Rows.three_four /\ f_eqb 1%float f_zero = false /\
  exists s', apply_updates_times 3 1%float 1%float Rows.three_four = (Done tt, s') /\
    update_ok 2 s'.
Proof.
  split; [exact three_four_ok | split; [reflexivity | ]].
  exact (apply_updates_times_returns 1%float 1%float 2 3 Rows.three_four
           three_four_ok eq_refl).
Defined.

Lemma apply_updates_zero_radius_witness :
  rows Rows.three_four = [0] /\
  length (rows Rows.three_four) = length (deltas Rows.three_four) /\
  len (rows Rows.three_four) < UINT_MOD /\
  np_get (deltas Rows.three_four) 0 = Done [0; 0]%float /\
  np_pos (len (F Rows.three_four)) 0 = Some 0%nat /\
  F Rows.three_four !! 0%nat = Some [3; 4]%float /\
  np_iadd [3; 4]%float (np_scale 2%float [0; 0]%float) = Done [3; 4]%float /\
  f_eqb 0%float f_zero = true /\
  apply_updates 2%float 0%float Rows.three_four
    = (Raised ZeroDivisionError,
       {| F := set_row (F Rows.three_four) 0 [3; 4]%float;
          rows := rows Rows.three_four; delta_mem := delta_mem Rows.three_four |}).
Proof.
  split; [reflexivity | split; [reflexivity | split; [exact three_four_short | ]]].
  split; [reflexivity | split; [reflexivity | split; [reflexivity | ]]].
  split; [vm_compute; reflexivity | split; [reflexivity | ]].
  exact (apply_updates_zero_radius 2%float 0%float Rows.three_four 0 []
           [0; 0]%float [3; 4]%float [3; 4]%float 0%nat
           eq_refl eq_refl three_four_short eq_refl eq_refl eq_refl eq_refl eq_refl).
Defined.


Lemma Scenario_user_item : 0 <= 0 < len Scenario.U /\ 0 <= 2 < len Scenario.V.
Proof. unfold len, Scenario.U, Scenario.V. cbn [length]. lia. Qed.

Lemma sample_violating_negative_example_well_formed_witness :
  factors_ok 2 Scenario.U /\ factors_ok 2 Scenario.V /\
  0 <= 0 < len Scenario.U /\ 0 <= 2 < len Scenario.V /\
  0 <= 0 <= 3 /\ 3 <= len Scenario.indices /\ 3 <= len Scenario.vals /\
  np_get Scenario.vals 0 = Done 5%float /\ 0 <= 3 < UINT_MOD /\
  safe (fst (sample_violating_negative_example 5 Scenario.U Scenario.V Scenario.vals
               Scenario.indices 0 3 0 0 2 3 (Scenario.source [3; 5]))) /\
  forall j N s',
    sample_violating_negative_example 5 Scenario.U Scenario.V Scenario.vals
        Scenario.indices 0 3 0 0 2 3 (Scenario.source [3; 5])
      = (Done (j, N), s') ->
    (j = -1 /\ N = 3) \/
    (0 <= j < len Scenario.V /\ 1 <= N <= 3 - 1 /\
     candidate_ok Scenario.vals Scenario.indices 0 3 0 j).
Proof.
  destruct Scenario_row_bounds as (_ & B & C & D).
  destruct Scenario_user_item as (Ru & Ri).
  split; [exact Scenario_factors_U | split; [exact Scenario_factors_V | ]].
  split; [exact Ru | split; [exact Ri | ]].
  split; [exact B | split; [exact C | split; [exact D | ]]].
  split; [exact Scenario_first_rating | split; [exact small_trials | ]].
  exact (sample_violating_negative_example_well_formed 5 2 Scenario.U Scenario.V
           Scenario.vals Scenario.indices 0 3 0 0 2 3 5%float (Scenario.source [3; 5])
           Scenario_factors_U Scenario_factors_V Ru Ri B C D Scenario_first_rating
           small_trials).
Defined.
